(** * Trading engine utilities: session clock, position sizing, P&L scenarios

    A shallow embedding of [frontend/src/utils/tradingEngine.js] (the
    [marketStatus] and [riskManagement] objects) and of the
    [detectMarketStatus] closure of the dashboard page, together with the
    properties the specification states about them.  The rest of the
    engine ([getTimeUntilMarketOpen], [chartAnalysis], [validators]) and
    the pages that call it (the header, the intraday page, the signals
    pages) follow, with properties read off their code.

    Numbers.  A JavaScript number is an IEEE-754 binary64 value; it is
    modelled by Rocq's primitive [float], whose operations are the same
    binary64 operations (round to nearest, ties to even).  A decimal literal
    such as [0.01] denotes the nearest binary64 value, in JavaScript and
    here alike.

    Exceptions.  A function body evaluates to a [completion]: a returned
    value or a thrown error.

    [this].  Every method of [riskManagement] is an arrow function, so
    [this] inside it is the [this] of the enclosing module scope.  The file
    is an ES module (it uses [export]), whose top-level [this] is
    [undefined]. *)

From Stdlib Require Import ZArith Floats Bool List String Lia.
From Stdlib Require DecimalString Uint63.
From Stdlib Require DecimalNat DecimalFacts.
Import ListNotations.

Set Warnings "-inexact-float".

(** ** JavaScript values and built-ins used by the engine *)

Module JS.

Local Open Scope float_scope.

(** The values that reach the engine's parameters. *)
Inductive value :=
| Undefined
| Null
| Num (x : float).

(** A template-literal string: literal text, numbers rendered with
    [toFixed], and interpolated values.  The digits [toFixed] produces are
    not needed by any property below, so they stay symbolic. *)
Inductive fragment :=
| Text (s : string)
| ToFixed (x : float) (digits : nat)
| Interp (v : value).

Definition jsstring := list fragment.

Inductive error :=
| TypeError (msg : string).

Inductive completion (A : Type) :=
| Return (a : A)
| Throw (e : error).
Arguments Return {A} a.
Arguments Throw {A} e.

Definition bind {A B} (c : completion A) (k : A -> completion B) : completion B :=
  match c with
  | Return a => k a
  | Throw e => Throw e
  end.

(** ToBoolean on a number: [0], [-0] and [NaN] are falsy. *)
Definition truthy (x : float) : bool := negb (is_zero x || is_nan x).

Definition ToBoolean (v : value) : bool :=
  match v with
  | Undefined | Null => false
  | Num x => truthy x
  end.

Definition ToNumber (v : value) : float :=
  match v with
  | Undefined => nan
  | Null => 0
  | Num x => x
  end.

(** [a > b] on numbers. *)
Definition gtb (a b : float) : bool := b <? a.

(** [o.name(args)] where the receiver [o] is one of the values above:
    reading a property of [undefined] or [null] throws; a number has no
    such method, and calling [undefined] throws as well. *)
Definition callMethod (o : value) (name : string) (args : list value)
  : completion value :=
  match o with
  | Undefined =>
      Throw (TypeError ("Cannot read properties of undefined (reading '" ++ name ++ "')"))
  | Null =>
      Throw (TypeError ("Cannot read properties of null (reading '" ++ name ++ "')"))
  | Num _ =>
      Throw (TypeError ("this." ++ name ++ " is not a function"))
  end.

(** [a[0]] on an array: [undefined] when the array is empty. *)
Definition index0 (a : list value) : value :=
  match a with
  | [] => Undefined
  | v :: _ => v
  end.

(** Decimal rendering of a small non-negative integer, as in
    [`Target ${idx + 1}`]. *)
Definition decimal (n : nat) : string :=
  DecimalString.NilZero.string_of_uint (Nat.to_uint n).

(** *** Math *)

Definition Math_abs (x : float) : float := abs x.

(** [Math.floor] on the exact value [(-1)^s * m * 2^e] of a binary64
    number: the largest integer not above it.  The integer has at most 53
    bits, so it is again a binary64 number, written here in normal form
    (53-bit mantissa). *)
Definition SFfloor (x : spec_float) : spec_float :=
  match x with
  | S754_finite s m e =>
      if (0 <=? e)%Z then x
      else
        let q := Z.shiftr (Zpos m) (- e) in
        let exact := (Z.shiftl q (- e) =? Zpos m)%Z in
        let n := if s && negb exact then (q + 1)%Z else q in
        match n with
        | Zpos p =>
            let d := Zpos (digits2_pos p) in
            S754_finite s (Pos.shiftl p (Z.to_N (prec - d))) (d - prec)
        | _ => S754_zero s
        end
  | _ => x
  end.

Definition Math_floor (x : float) : float := SF2Prim (SFfloor (Prim2SF x)).

(** The integer a binary64 value denotes, when it denotes one. *)
Definition SFinteger (x : spec_float) : option Z :=
  match x with
  | S754_zero _ => Some 0%Z
  | S754_finite s m e =>
      if (0 <=? e)%Z then Some (cond_Zopp s (Zpos m * 2 ^ e))%Z
      else if (Zpos m mod 2 ^ (- e) =? 0)%Z
           then Some (cond_Zopp s (Zpos m / 2 ^ (- e)))%Z
           else None
  | _ => None
  end.

(** The floor of the exact value [(-1)^s * m * 2^e], with integer division
    rounding down. *)
Definition SFexactFloor (x : spec_float) : option Z :=
  match x with
  | S754_zero _ => Some 0%Z
  | S754_finite s m e =>
      Some (if (0 <=? e)%Z then cond_Zopp s (Zpos m) * 2 ^ e
            else cond_Zopp s (Zpos m) / 2 ^ (- e))%Z
  | _ => None
  end.

(** [Math.max] and [Math.min] of two numbers: [NaN] if either is [NaN],
    and [+0] counts as larger than [-0]. *)
Definition Math_max (x y : float) : float :=
  if is_nan x || is_nan y then nan
  else if x <? y then y
  else if y <? x then x
  else if get_sign x then y else x.

Definition Math_min (x y : float) : float :=
  if is_nan x || is_nan y then nan
  else if x <? y then x
  else if y <? x then y
  else if get_sign x then x else y.

(** *** Date

    A time value is a number of milliseconds since the epoch.  The engine
    reads three wall-clock fields of a [Date]; the dashboard page also
    reads the UTC calendar date. *)

Record Date := {
  getHours : Z;
  getMinutes : Z;
  getDay : Z      (* 0 = Sunday ... 6 = Saturday *)
}.

(** Wall-clock fields at a fixed offset from UTC, in minutes.
    1970-01-01 was a Thursday. *)
Definition wallClock (offsetMinutes : Z) (t : Z) : Date :=
  let l := (t + offsetMinutes * 60000)%Z in
  {| getHours := ((l / 3600000) mod 24)%Z;
     getMinutes := ((l / 60000) mod 60)%Z;
     getDay := ((l / 86400000 + 4) mod 7)%Z |}.

(** [new Date(now.toLocaleString('en-US', { timeZone: 'Asia/Kolkata' }))]:
    a [Date] whose local fields are the wall clock of India Standard
    Time, UTC+5:30. *)
Definition toKolkata (now : Z) : Date := wallClock 330 now.

(** Proleptic Gregorian date (year, month, day) of a day number counted
    from 1970-01-01. *)
Definition civilFromDays (z : Z) : Z * Z * Z :=
  (let z := z + 719468 in
   let era := z / 146097 in
   let doe := z - era * 146097 in
   let yoe := (doe - doe / 1460 + doe / 36524 - doe / 146096) / 365 in
   let doy := doe - (365 * yoe + yoe / 4 - yoe / 100) in
   let mp := (5 * doy + 2) / 153 in
   let d := doy - (153 * mp + 2) / 5 + 1 in
   let m := if mp <? 10 then mp + 3 else mp - 9 in
   let y := yoe + era * 400 in
   (if m <=? 2 then y + 1 else y, m, d))%Z.

(** [now.toISOString().split("T")[0]]: the UTC calendar date, kept as a
    triple; ["2026-01-26"] is [(2026, 1, 26)]. *)
Definition toISODate (now : Z) : Z * Z * Z := civilFromDays (now / 86400000).

(** *** Date objects *)

(** As an object a [Date] is its time value, in milliseconds since the
    epoch.  Its local fields are those of the wall clock of the browser's
    time zone, here a zone at a fixed offset from UTC (as India's is). *)

(** [new Date(now.toLocaleString('en-US', { timeZone }))]: the string shows
    the wall clock of the zone down to the second, and [new Date] reads it
    back as a local time of the browser. *)
Definition parseWallClock (zoneOffsetMinutes browserOffsetMinutes now : Z) : Z :=
  ((now + zoneOffsetMinutes * 60000) / 1000 * 1000 - browserOffsetMinutes * 60000)%Z.

(** [d.setDate(d.getDate() + n)]: the same local time of day, [n] days on. *)
Definition addDays (n : Z) (t : Z) : Z := (t + n * 86400000)%Z.

(** [d.setHours(h, m, s)]: the same local day and milliseconds. *)
Definition setHours (browserOffsetMinutes : Z) (h m s : Z) (t : Z) : Z :=
  (let l := t + browserOffsetMinutes * 60000 in
   l / 86400000 * 86400000 + (h * 3600000 + m * 60000 + s * 1000 + l mod 1000)
   - browserOffsetMinutes * 60000)%Z.

(** [d.getSeconds()] and [d.getMilliseconds()]. *)
Definition getSeconds (browserOffsetMinutes : Z) (t : Z) : Z :=
  (((t + browserOffsetMinutes * 60000) / 1000) mod 60)%Z.

Definition getMilliseconds (browserOffsetMinutes : Z) (t : Z) : Z :=
  ((t + browserOffsetMinutes * 60000) mod 1000)%Z.

(** *** Arrays *)

(** An argument that is expected to hold an array of numbers. *)
Inductive arrayArg :=
| ArgUndefined
| ArgNull
| ArgArray (a : list float).

(** [a[a.length - 1]]: [undefined] on the empty array, where the index
    is [-1]. *)
Definition lastElement (a : list float) : value :=
  match rev a with
  | [] => Undefined
  | x :: _ => Num x
  end.

(** [a.slice(-n)] for a whole number [n]: the last [n] elements, the whole
    array when it is shorter, and also when [n] is [0] ([-0] is [0]). *)
Definition sliceLast (n : nat) (a : list float) : list float :=
  if (n =? 0)%nat then a else skipn (List.length a - n) a.

(** [a.reduce((a, b) => a + b, 0)]. *)
Definition sum (a : list float) : float :=
  fold_left (fun a b => a + b) a 0.

(** [Math.min(...a)] and [Math.max(...a)] over the elements of an array. *)
Definition Math_min_of (a : list float) : float := fold_left Math_min a infinity.

Definition Math_max_of (a : list float) : float := fold_left Math_max a neg_infinity.

(** [a && b] on values: [a] when it is falsy, else [b]. *)
Definition andValue (a b : value) : value := if ToBoolean a then b else a.

(** [a.map(f)] for a callback that may throw: the first throw ends the
    loop. *)
Fixpoint mapArray {A B : Type} (f : A -> completion B) (a : list A)
  : completion (list B) :=
  match a with
  | [] => Return []
  | x :: rest =>
      bind (f x) (fun y => bind (mapArray f rest) (fun ys => Return (y :: ys)))
  end.

End JS.

Import JS.

(** ** marketStatus *)

Module marketStatus.

Record Status := {
  status : string;
  label : string;
  color : string
}.

(** The body of [isMarketOpen] once [istTime] is known. *)
Definition isMarketOpenAt (istTime : Date) : bool :=
  let hours := getHours istTime in
  let minutes := getMinutes istTime in
  let day := getDay istTime in
  let isWeekday := (1 <=? day)%Z && (day <=? 5)%Z in
  let isWithinHours :=
    ((hours =? 9)%Z && (15 <=? minutes)%Z)
    || ((9 <? hours)%Z && (hours <? 15)%Z)
    || ((hours =? 15)%Z && (minutes <=? 30)%Z) in
  isWeekday && isWithinHours.

(** [isMarketOpen()], with the clock reading [now] made a parameter. *)
Definition isMarketOpen (now : Z) : bool := isMarketOpenAt (toKolkata now).

Definition getMarketStatusAt (istTime : Date) : Status :=
  let hours := getHours istTime in
  let minutes := getMinutes istTime in
  let day := getDay istTime in
  let isWeekday := (1 <=? day)%Z && (day <=? 5)%Z in
  if negb isWeekday then
    {| status := "CLOSED"; label := "Market Closed (Weekend)"; color := "bg-gray-100" |}
  else if (hours <? 9)%Z || ((hours =? 9)%Z && (minutes <? 15)%Z) then
    {| status := "PRE_MARKET"; label := "Pre-Market (Before 9:15 AM)"; color := "bg-blue-100" |}
  else if (hours =? 9)%Z && (15 <=? minutes)%Z then
    {| status := "OPENING"; label := "Opening Session (9:15-12:00)"; color := "bg-orange-100" |}
  else if (10 <=? hours)%Z && (hours <? 12)%Z then
    {| status := "OPENING"; label := "Opening Session (9:15-12:00)"; color := "bg-orange-100" |}
  else if (12 <=? hours)%Z && (hours <? 15)%Z then
    {| status := "MID_DAY"; label := "Mid-Day Session (12:00-3:30 PM)"; color := "bg-blue-100" |}
  else if ((hours =? 15)%Z && (minutes <=? 30)%Z) || ((hours =? 15)%Z && (minutes <? 60)%Z) then
    {| status := "CLOSING"; label := "Closing Session (3:00-3:30 PM)"; color := "bg-red-100" |}
  else
    {| status := "CLOSED"; label := "Market Closed"; color := "bg-gray-100" |}.

Definition getMarketStatus (now : Z) : Status := getMarketStatusAt (toKolkata now).

(** The countdown to the next session. *)
Record TimeLeft := {
  hoursUntil : Z;
  minutesUntil : Z
}.

(** The [Date] that [getTimeUntilMarketOpen] leaves in [nextOpen], given
    [istTime]. *)
Definition nextOpenAfter (browserOffsetMinutes : Z) (istTime : Z) : Z :=
  (let local := wallClock browserOffsetMinutes istTime in
   let hours := getHours local in
   let minutes := getMinutes local in
   let day := getDay local in
   let setHours := setHours browserOffsetMinutes in
   if (day =? 5) && (15 <=? hours) && (30 <? minutes) then
     setHours 9 15 0 (addDays 3 istTime)
   else if day =? 6 then
     setHours 9 15 0 (addDays 2 istTime)
   else if day =? 0 then
     setHours 9 15 0 (addDays 1 istTime)
   else if (hours <? 9) || ((hours =? 9) && (minutes <? 15)) then
     setHours 9 15 0 istTime
   else if (15 <? hours) || ((hours =? 15) && (30 <? minutes)) then
     setHours 9 15 0 (addDays 1 istTime)
   else istTime)%Z.

(** [getTimeUntilMarketOpen()], with the clock reading [now] and the
    offset of the browser's time zone made parameters.  The time values
    are integers far below 2^53 and [diff] is below three days: the
    subtraction and [%] are exact on them, [%] takes the sign of the
    dividend ([Z.rem]), and the rounding of the two quotients is too small
    to move them across a whole number, so [Math.floor] of each is the
    integer quotient rounded down ([/] on [Z]).  The browser's zone keeps
    one offset here; where it changes its offset between [istTime] and
    [nextOpen] (daylight saving) the wall-clock fields are the same but
    [diff] is an hour more or less, which is outside this model. *)
Definition getTimeUntilMarketOpen (browserOffsetMinutes now : Z) : TimeLeft :=
  let istTime := parseWallClock 330 browserOffsetMinutes now in
  let nextOpen := nextOpenAfter browserOffsetMinutes istTime in
  let diff := (nextOpen - istTime)%Z in
  {| hoursUntil := (diff / (1000 * 60 * 60))%Z;
     minutesUntil := (Z.rem diff (1000 * 60 * 60) / (1000 * 60))%Z |}.

End marketStatus.

(** ** The dashboard page's own session check *)

Module Dashboard.

(** What [detectMarketStatus] stores with [setMarketStatus] and
    [setDataType]. *)
Record State := {
  marketStatus : string;
  dataType : string
}.

Definition holidays : list (Z * Z * Z) :=
  [ (2026, 1, 26); (2026, 3, 25); (2026, 4, 14); (2026, 8, 15);
    (2026, 9, 2); (2026, 10, 2); (2026, 10, 25); (2026, 12, 25) ]%Z.

Definition dateEqb (a b : Z * Z * Z) : bool :=
  let '(y1, m1, d1) := a in
  let '(y2, m2, d2) := b in
  ((y1 =? y2) && (m1 =? m2) && (d1 =? d2))%Z.

Definition includes (l : list (Z * Z * Z)) (x : Z * Z * Z) : bool :=
  existsb (dateEqb x) l.

(** [detectMarketStatus()]: [now] is the clock reading and
    [utcOffsetMinutes] the offset of the browser's time zone, whose wall
    clock [now.getHours()], [now.getMinutes()] and [now.getDay()] read. *)
Definition detectMarketStatus (utcOffsetMinutes : Z) (now : Z) : State :=
  let local := wallClock utcOffsetMinutes now in
  let hours := getHours local in
  let minutes := getMinutes local in
  let dayOfWeek := getDay local in
  let isWeekday := (0 <? dayOfWeek)%Z && (dayOfWeek <? 6)%Z in
  let isMarketHours :=
    ((9 <? hours)%Z || ((hours =? 9)%Z && (15 <=? minutes)%Z))
    && ((hours <? 15)%Z || ((hours =? 15)%Z && (minutes <=? 30)%Z)) in
  let today := toISODate now in
  let isHoliday := includes holidays today in
  if isHoliday then {| marketStatus := "HOLIDAY"; dataType := "PREVIOUS" |}
  else if isWeekday && isMarketHours then {| marketStatus := "OPEN"; dataType := "LIVE" |}
  else {| marketStatus := "CLOSED"; dataType := "PREVIOUS" |}.

End Dashboard.

(** ** The header's own session check *)
Module Header.

(** [updateMarketStatus()] of the header component: the value it stores
    with [setMarketStatus]. *)
Definition updateMarketStatus (utcOffsetMinutes : Z) (now : Z) : string :=
  let local := wallClock utcOffsetMinutes now in
  let hours := getHours local in
  let minutes := getMinutes local in
  let dayOfWeek := getDay local in
  let isWeekday := (0 <? dayOfWeek)%Z && (dayOfWeek <? 6)%Z in
  let isMarketHours :=
    ((9 <? hours)%Z || ((hours =? 9)%Z && (15 <=? minutes)%Z))
    && ((hours <? 15)%Z || ((hours =? 15)%Z && (minutes <=? 30)%Z)) in
  if isWeekday && isMarketHours then "OPEN"
  else if negb isWeekday then "WEEKEND"
  else "CLOSED".

End Header.

(** ** The intraday page's session label *)
Module Intraday.

Record State := {
  marketOpen : bool;
  marketStatusInfo : marketStatus.Status;
  sessionTime : string
}.

(** [updateMarketStatus()] of the intraday page.  It reads the clock three
    times: inside [isMarketOpen()], inside [getMarketStatus()] and for its
    own [now]; the browser's wall clock gives [hour]. *)
Definition updateMarketStatus (utcOffsetMinutes : Z) (t1 t2 now : Z) : State :=
  let isOpen := marketStatus.isMarketOpen t1 in
  let status := marketStatus.getMarketStatus t2 in
  let hour := getHours (wallClock utcOffsetMinutes now) in
  {| marketOpen := isOpen;
     marketStatusInfo := status;
     sessionTime :=
       if (9 <=? hour)%Z && (hour <? 12)%Z then "OPENING"
       else if (12 <=? hour)%Z && (hour <? 15)%Z then "MID_DAY"
       else if (15 <=? hour)%Z && (hour <? 16)%Z then "CLOSING"
       else "CLOSED" |}.

End Intraday.

(** ** riskManagement *)

Module Scenario.

Record t := {
  name : string;
  price : float;
  quantity : float;
  totalValue : float;
  pnl : float;
  pnlPercent : float;
  type : string
}.

End Scenario.

Module RiskAssessment.

(** The object returned with [valid: true]. *)
Record t := {
  capital : float;
  position : float;
  entryPrice : float;
  stopLoss : float;
  maxRisk : float;
  riskAmount : float;
  riskPercent : float;
  scenarios : list Scenario.t
}.

End RiskAssessment.

Module riskManagement.

Local Open Scope float_scope.

(** What [calculatePnL] returns: [null], the error object
    [{valid: false, error, message}], or the assessment with
    [valid: true]. *)
Inductive PnLResult :=
| PnLNull
| PnLInvalid (error : string) (message : jsstring)
| PnLValid (assessment : RiskAssessment.t).

(** The [valid] field of a result object. *)
Definition valid (r : PnLResult) : option bool :=
  match r with
  | PnLNull => None
  | PnLInvalid _ _ => Some false
  | PnLValid _ => Some true
  end.

(** What [calculateRiskReward] returns: the number [0], or the string
    [(reward / risk).toFixed(2)]. *)
Inductive RiskReward :=
| RRNumber (x : float)
| RRString (s : jsstring).

Record RiskWarnings := {
  warnings : list jsstring;
  recommendations : list jsstring
}.

(** The message of the RISK_TOO_HIGH result. *)
Definition riskTooHighMessage (riskAmount riskPercent maxRisk : float) : jsstring :=
  [Text "Position size would risk ₹"; ToFixed riskAmount 0;
   Text " ("; ToFixed riskPercent 2;
   Text "%) - Max allowed: ₹"; ToFixed maxRisk 0; Text " (1%)"].

(** [this] inside the arrow functions of the object literal. *)
Definition this : value := Undefined.

Definition calculatePositionSize (capital entryPrice stopLoss : float) : float :=
  if negb (truthy capital) || negb (truthy entryPrice) || negb (truthy stopLoss) then 0
  else
    let maxRisk := capital * 0.01 in
    let riskPerShare := Math_abs (entryPrice - stopLoss) in
    if riskPerShare =? 0 then 0
    else Math_floor (maxRisk / riskPerShare).

Definition stopLossScenario (position entryPrice stopLoss : float) : Scenario.t :=
  {| Scenario.name := "Worst Case (Stop Loss)";
     Scenario.price := stopLoss;
     Scenario.quantity := position;
     Scenario.totalValue := position * stopLoss;
     Scenario.pnl := position * (stopLoss - entryPrice);
     Scenario.pnlPercent := ((stopLoss - entryPrice) / entryPrice) * 100;
     Scenario.type := "loss" |}.

Definition targetScenario (position entryPrice target : float) (idx : nat) : Scenario.t :=
  let profitAmount := position * (target - entryPrice) in
  {| Scenario.name := "Target " ++ decimal (idx + 1);
     Scenario.price := target;
     Scenario.quantity := position;
     Scenario.totalValue := position * target;
     Scenario.pnl := profitAmount;
     Scenario.pnlPercent := ((target - entryPrice) / entryPrice) * 100;
     Scenario.type := "profit" |}.

(** The [targets.forEach((target, idx) => ...)] loop: the scenarios it
    pushes, in order, for the elements from index [idx] on. *)
Fixpoint forEachTarget (position entryPrice : float) (targets : list value) (idx : nat)
  : list Scenario.t :=
  match targets with
  | [] => []
  | target :: rest =>
      let pushed :=
        if ToBoolean target && gtb (ToNumber target) entryPrice
        then [targetScenario position entryPrice (ToNumber target) idx]
        else [] in
      pushed ++ forEachTarget position entryPrice rest (S idx)
  end.

(** [calculatePnL(capital, entryPrice, targets, stopLoss, quantity = null)].
    [targets] is [None] when the argument is not an array. *)
Definition calculatePnL (capital entryPrice : float) (targets : option (list value))
    (stopLoss : float) (quantity : value) : completion PnLResult :=
  let quantity := match quantity with Undefined => Null | _ => quantity end in
  if negb (truthy capital) || negb (truthy entryPrice) || negb (truthy stopLoss)
  then Return PnLNull
  else
    let maxRisk := capital * 0.01 in
    bind (if ToBoolean quantity then Return quantity
          else callMethod this "calculatePositionSize"
                 [Num capital; Num entryPrice; Num stopLoss])
      (fun position =>
    let position := ToNumber position in
    let riskAmount := Math_abs (position * (entryPrice - stopLoss)) in
    let riskPercent := (riskAmount / capital) * 100 in
    if gtb riskAmount (maxRisk * 1.1) then
      Return (PnLInvalid "RISK_TOO_HIGH"
                (riskTooHighMessage riskAmount riskPercent maxRisk))
    else
      let scenarios :=
        stopLossScenario position entryPrice stopLoss
        :: match targets with
           | Some targets => forEachTarget position entryPrice targets 0
           | None => []
           end in
      Return (PnLValid
                {| RiskAssessment.capital := capital;
                   RiskAssessment.position := position;
                   RiskAssessment.entryPrice := entryPrice;
                   RiskAssessment.stopLoss := stopLoss;
                   RiskAssessment.maxRisk := maxRisk;
                   RiskAssessment.riskAmount := riskAmount;
                   RiskAssessment.riskPercent := riskPercent;
                   RiskAssessment.scenarios := scenarios |})).

Definition calculateRiskReward (entryPrice target stopLoss : float) : RiskReward :=
  if negb (truthy entryPrice) || negb (truthy target) || negb (truthy stopLoss)
  then RRNumber 0
  else
    let risk := Math_abs (entryPrice - stopLoss) in
    let reward := Math_abs (target - entryPrice) in
    if risk =? 0 then RRNumber 0
    else RRString [ToFixed (reward / risk) 2].

Definition estimateWinProbability (rsi : float) (volumeTrend trend : string) : float :=
  let probability := 50 in
  let probability :=
    if rsi <? 30 then probability + 15
    else if gtb rsi 70 then probability - 15
    else probability in
  let probability :=
    if String.eqb trend "UPTREND" then probability + 10
    else if String.eqb trend "DOWNTREND" then probability - 10
    else probability in
  let probability :=
    if String.eqb volumeTrend "INCREASING" then probability + 8
    else if String.eqb volumeTrend "DECREASING" then probability - 8
    else probability in
  Math_min (Math_max probability 20) 80.

Definition highRiskWarning : jsstring :=
  [Text "⚠️ HIGH RISK: Stop loss is more than 5% away from entry"].

Definition tightStopWarning : jsstring :=
  [Text "⚠️ TIGHT STOP: Stop loss is too close (< 0.5%)"].

Definition lowRewardWarning (rr : value) : jsstring :=
  [Text "⚠️ LOW REWARD: Risk/Reward ratio is "; Interp rr;
   Text ":1 (Target should be higher)"].

(** [assessRisk(capital, entryPrice, stopLoss, targets)].  [targets] is
    [None] when the argument is [undefined] or [null]; an array is truthy
    even when empty.  The two arrays are built by [push], written here as
    appends in the same order. *)
Definition assessRisk (capital entryPrice stopLoss : float) (targets : option (list value))
  : completion RiskWarnings :=
  let riskPercent := Math_abs ((entryPrice - stopLoss) / entryPrice) * 100 in
  let warnings := [] in
  let recommendations := [] in
  let '(warnings, recommendations) :=
    if gtb riskPercent 5 then
      (warnings ++ [highRiskWarning],
       recommendations ++ [[Text "Consider tightening stop loss or reducing position size"]])
    else (warnings, recommendations) in
  let '(warnings, recommendations) :=
    if riskPercent <? 0.5 then
      (warnings ++ [tightStopWarning],
       recommendations ++ [[Text "May get stopped out too easily - consider widening"]])
    else (warnings, recommendations) in
  let target0 := match targets with Some a => index0 a | None => Undefined end in
  if match targets with Some _ => ToBoolean target0 | None => false end then
    bind (callMethod this "calculateRiskReward" [Num entryPrice; target0; Num stopLoss])
      (fun rr =>
    let '(warnings, recommendations) :=
      if ToNumber rr <? 1 then
        (warnings ++ [lowRewardWarning rr],
         recommendations ++ [[Text "Adjust target price higher for better risk/reward"]])
      else (warnings, recommendations) in
    Return {| warnings := warnings; recommendations := recommendations |})
  else
    Return {| warnings := warnings; recommendations := recommendations |}.

End riskManagement.

(** ** Declarative readings: the specification's wording, and what the
    loops compute *)

Module Spec.

Import riskManagement.
Local Open Scope float_scope.

(** Profit scenarios numbered consecutively from [k]: Target 1, Target 2,
    and so on. *)
Fixpoint numbered (position entryPrice : float) (targets : list float) (k : nat)
  : list Scenario.t :=
  match targets with
  | [] => []
  | target :: rest =>
      targetScenario position entryPrice target k
      :: numbered position entryPrice rest (S k)
  end.

(** The scenario list as the specification words it: the stop-loss
    scenario, then one profit scenario per target strictly greater than the
    entry price, in input order, labelled Target 1, Target 2, and so on. *)
Definition claimedScenarios (position entryPrice stopLoss : float) (targets : list value)
  : list Scenario.t :=
  stopLossScenario position entryPrice stopLoss
  :: numbered position entryPrice
       (map ToNumber (filter (fun t => gtb (ToNumber t) entryPrice) targets)) 0.

(** The test the loop applies to a target. *)
Definition qualifies (entryPrice : float) (target : value) : bool :=
  ToBoolean target && gtb (ToNumber target) entryPrice.

(** The targets that pass the test, each with its position in the input
    array, counted from [idx]. *)
Definition keptTargets (entryPrice : float) (targets : list value) (idx : nat)
  : list (nat * value) :=
  filter (fun it => qualifies entryPrice (snd it))
    (combine (seq idx (List.length targets)) targets).

(** One profit scenario per kept target, labelled with that position. *)
Definition profitScenarios (position entryPrice : float) (targets : list value)
  : list Scenario.t :=
  map (fun it => targetScenario position entryPrice (ToNumber (snd it)) (fst it))
    (keptTargets entryPrice targets 0).

(** The targets that contribute a profit scenario, in words: each target
    that is a number, neither zero nor [NaN], and strictly greater than the
    entry price, with its 1-based position in the input array, in input
    order. *)
Definition countedTargets (entryPrice : float) (targets : list value)
  : list (nat * float) :=
  flat_map
    (fun it : nat * value =>
       match snd it with
       | Num target =>
           if negb (is_zero target) && negb (is_nan target) && gtb target entryPrice
           then [(fst it, target)]
           else []
       | Undefined | Null => []
       end)
    (combine (seq 1 (List.length targets)) targets).

(** The stop distance in percent of the entry price. *)
Definition stopDistancePercent (entryPrice stopLoss : float) : float :=
  Math_abs ((entryPrice - stopLoss) / entryPrice) * 100.

(** The win-probability score as the specification words it, over the
    integers: the base 50 and the three adjustments, then the clamp. *)
Definition claimedSum (rsi : float) (volumeTrend trend : string) : Z :=
  (50
   + (if (rsi <? 30)%float then 15 else if gtb rsi 70 then -15 else 0)
   + (if String.eqb trend "UPTREND" then 10
      else if String.eqb trend "DOWNTREND" then -10 else 0)
   + (if String.eqb volumeTrend "INCREASING" then 8
      else if String.eqb volumeTrend "DECREASING" then -8 else 0))%Z.

Definition clamp (lo hi x : Z) : Z := Z.min (Z.max x lo) hi.

Definition claimedProbability (rsi : float) (volumeTrend trend : string) : Z :=
  clamp 20 80 (claimedSum rsi volumeTrend trend).

(** The number whose value is a given non-negative integer. *)
Definition ofZ (z : Z) : float := of_uint63 (Uint63.of_Z z).

End Spec.

Import Spec.

(** ** validators *)

Module validators.

Local Open Scope float_scope.

Definition isValidPrice (price : float) : bool :=
  gtb price 0 && (price <? 1000000).

Definition isValidCapital (capital : float) : bool :=
  (1000 <=? capital) && (capital <=? 10000000).

End validators.

(** ** chartAnalysis *)

Module chartAnalysis.

Local Open Scope float_scope.

(** [this] inside the arrow functions of the object literal. *)
Definition this : value := Undefined.

(** [calculateSMA(prices, period)] for an array and a whole number. *)
Definition calculateSMA (prices : list float) (period : nat) : value :=
  if (List.length prices <? period)%nat then lastElement prices
  else
    let sum := sum (sliceLast period prices) in
    Num (sum / ofZ (Z.of_nat period)).

(** [detectTrend(prices)].  The receiver of [this.calculateSMA] decides
    the outcome of the call before its arguments are looked at. *)
Definition detectTrend (prices : arrayArg) : completion string :=
  match prices with
  | ArgUndefined | ArgNull => Return "NEUTRAL"%string
  | ArgArray a =>
      if (List.length a <? 2)%nat then Return "NEUTRAL"%string
      else
        bind (callMethod this "calculateSMA" [Num 20]) (fun sma20 =>
        bind (callMethod this "calculateSMA" [Num 50]) (fun sma50 =>
        if gtb (ToNumber sma20) (ToNumber sma50) then Return "UPTREND"%string
        else if ToNumber sma20 <? ToNumber sma50 then Return "DOWNTREND"%string
        else Return "NEUTRAL"%string))
  end.

(** [detectSupport(prices)]: on a missing array the early return reads
    [prices.length] all the same. *)
Definition detectSupport (prices : arrayArg) : completion value :=
  match prices with
  | ArgUndefined =>
      Throw (TypeError "Cannot read properties of undefined (reading 'length')")
  | ArgNull =>
      Throw (TypeError "Cannot read properties of null (reading 'length')")
  | ArgArray a =>
      if (List.length a <? 2)%nat then Return (lastElement a)
      else Return (Num (Math_min_of (sliceLast 20 a)))
  end.

Definition detectResistance (prices : arrayArg) : completion value :=
  match prices with
  | ArgUndefined =>
      Throw (TypeError "Cannot read properties of undefined (reading 'length')")
  | ArgNull =>
      Throw (TypeError "Cannot read properties of null (reading 'length')")
  | ArgArray a =>
      if (List.length a <? 2)%nat then Return (lastElement a)
      else Return (Num (Math_max_of (sliceLast 20 a)))
  end.

End chartAnalysis.

(** ** The pages that show signals *)

Module Signal.

(** The fields the pages read of a signal the API sends: each number is a
    number, [null], or missing; the type is a string or missing. *)
Record t := {
  entry_price : value;
  target_1 : value;
  target_2 : value;
  target_3 : value;
  stop_loss : value;
  confidence : value;
  signal_type : option string;
  quantity : value
}.

End Signal.

(** *** The signals page with its own checks *)

Module EnhancedSignal.

(** What the page keeps of a signal; [signal_type] comes from the spread
    [...signal].  The [timestamp] field, a rendering of the clock, is left
    out. *)
Record t := {
  signal_type : option string;
  entry_price : float;
  target_1 : float;
  stop_loss : float;
  confidence : float;
  market_status : string;
  riskReward : jsstring;
  expectedProfit : jsstring;
  validated : bool
}.

End EnhancedSignal.

Module Signals.

Local Open Scope float_scope.

(** [Number(v) || 0]. *)
Definition numberOrZero (v : value) : float :=
  let n := ToNumber v in
  if truthy n then n else 0.

Definition isValidSignal (signal : Signal.t) : bool :=
  let entry := numberOrZero (Signal.entry_price signal) in
  let target := numberOrZero (Signal.target_1 signal) in
  let stop := numberOrZero (Signal.stop_loss signal) in
  let confidence := numberOrZero (Signal.confidence signal) in
  if negb (truthy entry) || negb (truthy target) || negb (truthy stop) then false
  else
    let validRange :=
      ((stop <? entry) && (entry <? target)) || ((target <? entry) && (entry <? stop)) in
    if negb validRange then false
    else if (confidence <=? 0) || gtb confidence 100 then false
    else
      match Signal.signal_type signal with
      | None => false
      | Some type =>
          if String.eqb type "" || negb (String.eqb type "BUY" || String.eqb type "SELL")
          then false
          else true
      end.

(** The callback of [validSignals.map]. *)
Definition enhance (marketOpen : bool) (signal : Signal.t) : EnhancedSignal.t :=
  let entry := numberOrZero (Signal.entry_price signal) in
  let target := numberOrZero (Signal.target_1 signal) in
  let stop := numberOrZero (Signal.stop_loss signal) in
  let confidence := numberOrZero (Signal.confidence signal) in
  let riskAmount := Math_abs (entry - stop) in
  let rewardAmount := Math_abs (target - entry) in
  let riskReward := if gtb riskAmount 0 then rewardAmount / riskAmount else 0 in
  {| EnhancedSignal.signal_type := Signal.signal_type signal;
     EnhancedSignal.entry_price := entry;
     EnhancedSignal.target_1 := target;
     EnhancedSignal.stop_loss := stop;
     EnhancedSignal.confidence := Math_min 100 (Math_max 0 confidence);
     EnhancedSignal.market_status := if marketOpen then "LIVE" else "HISTORICAL";
     EnhancedSignal.riskReward := [ToFixed riskReward 2];
     EnhancedSignal.expectedProfit := [ToFixed (rewardAmount / entry * 100) 2];
     EnhancedSignal.validated := true |}.

(** The list [fetchSignals] hands to [setSignals]. *)
Definition enhancedSignals (marketOpen : bool) (signalList : list Signal.t)
  : list EnhancedSignal.t :=
  let validSignals := filter isValidSignal signalList in
  map (enhance marketOpen) validSignals.

Definition hasType (type : string) (s : EnhancedSignal.t) : bool :=
  match EnhancedSignal.signal_type s with
  | Some t => String.eqb t type
  | None => false
  end.

Definition buySignals (signals : list EnhancedSignal.t) := filter (hasType "BUY") signals.
Definition sellSignals (signals : list EnhancedSignal.t) := filter (hasType "SELL") signals.
Definition intradaySignals (signals : list EnhancedSignal.t) :=
  filter (hasType "INTRADAY") signals.

End Signals.

(** ** The signals page that calls the engine *)

Module SignalsRisk.

Import riskManagement.
Local Open Scope float_scope.

Record Enhanced := {
  market_status : string;
  riskReward : RiskReward;
  expectedProfit : RiskReward;
  expectedLoss : RiskReward;
  pnlData : PnLResult;
  isValid : value;
  marketWarning : option string
}.

(** The callback of [(signalList || []).map]. *)
Definition enhance (defaultCapital : float) (marketOpen : bool) (signal : Signal.t)
  : completion Enhanced :=
  let entry_price := Signal.entry_price signal in
  let target_1 := Signal.target_1 signal in
  let stop_loss := Signal.stop_loss signal in
  let hasValidPrices := andValue (andValue entry_price target_1) stop_loss in
  let riskReward :=
    if ToBoolean hasValidPrices
    then calculateRiskReward (ToNumber entry_price) (ToNumber target_1) (ToNumber stop_loss)
    else RRNumber 0 in
  let expectedProfit :=
    if ToBoolean (andValue entry_price target_1)
    then RRString [ToFixed ((ToNumber target_1 - ToNumber entry_price)
                            / ToNumber entry_price * 100) 2]
    else RRNumber 0 in
  let expectedLoss :=
    if ToBoolean (andValue entry_price stop_loss)
    then RRString [ToFixed ((ToNumber stop_loss - ToNumber entry_price)
                            / ToNumber entry_price * 100) 2]
    else RRNumber 0 in
  bind (if ToBoolean hasValidPrices
        then calculatePnL defaultCapital (ToNumber entry_price)
               (Some [target_1; Signal.target_2 signal; Signal.target_3 signal])
               (ToNumber stop_loss) Undefined
        else Return PnLNull)
    (fun pnlData =>
  Return {| market_status := if marketOpen then "LIVE" else "HISTORICAL";
            riskReward := riskReward;
            expectedProfit := expectedProfit;
            expectedLoss := expectedLoss;
            pnlData := pnlData;
            isValid := hasValidPrices;
            marketWarning :=
              if negb marketOpen then Some "Market closed - Historical analysis"%string
              else None |}).

(** The list [fetchSignals] is to hand to [setSignals]. *)
Definition enhancedSignals (defaultCapital : float) (marketOpen : bool)
    (signalList : list Signal.t) : completion (list Enhanced) :=
  mapArray (enhance defaultCapital marketOpen) signalList.

(** A signal with an entry price, a first target and a stop loss. *)
Definition priced (signal : Signal.t) : bool :=
  ToBoolean (Signal.entry_price signal) && ToBoolean (Signal.target_1 signal)
  && ToBoolean (Signal.stop_loss signal).

End SignalsRisk.

(** ** The risk step of the intraday page *)

Module IntradayRisk.

Import riskManagement.
Local Open Scope float_scope.

Inductive Outcome :=
| Skipped
| Assessed (pnlData : PnLResult) (warnings : RiskWarnings).

(** The block of [handleGenerateSignal] guarded by
    [signalData.entry_price && signalData.stop_loss], up to the value of
    [warnings]. *)
Definition riskStep (capital : float) (signalData : Signal.t) : completion Outcome :=
  let entry_price := Signal.entry_price signalData in
  let stop_loss := Signal.stop_loss signalData in
  if ToBoolean (andValue entry_price stop_loss) then
    bind (calculatePnL capital (ToNumber entry_price)
            (Some [Signal.target_1 signalData; Signal.target_2 signalData;
                   Signal.target_3 signalData])
            (ToNumber stop_loss) (Signal.quantity signalData))
      (fun pnlData =>
    bind (assessRisk capital (ToNumber entry_price) (ToNumber stop_loss)
            (Some [Signal.target_1 signalData]))
      (fun warnings =>
    Return (Assessed pnlData warnings)))
  else Return Skipped.

End IntradayRisk.

(** ** Notions used in the proofs about binary64 numbers *)

(** A value that is [NaN] or has the sign [s]. *)
Definition signed_or_nan (s : bool) (x : spec_float) : Prop :=
  match x with
  | S754_zero s' | S754_infinity s' | S754_finite s' _ _ => s' = s
  | S754_nan => True
  end.

(** A value that is neither [+0] nor [-0]. *)
Definition nonzero (x : spec_float) : Prop :=
  match x with
  | S754_zero _ => False
  | _ => True
  end.

(** The place of a number in the order of binary64 values: class, then
    exponent, then mantissa, mirrored for negative numbers. *)
Definition SFkey (x : spec_float) : Z * Z * Z :=
  match x with
  | S754_infinity true => (-2, 0, 0)
  | S754_finite true m e => (-1, - e, - Zpos m)
  | S754_zero _ => (0, 0, 0)
  | S754_nan => (0, 0, 0)
  | S754_finite false m e => (1, e, Zpos m)
  | S754_infinity false => (2, 0, 0)
  end%Z.

Definition keyLt (a b : Z * Z * Z) : Prop :=
  let '(c1, e1, m1) := a in
  let '(c2, e2, m2) := b in
  (c1 < c2 \/ (c1 = c2 /\ (e1 < e2 \/ (e1 = e2 /\ m1 < m2))))%Z.

Definition keyLe (a b : Z * Z * Z) : Prop :=
  let '(c1, e1, m1) := a in
  let '(c2, e2, m2) := b in
  (c1 < c2 \/ (c1 = c2 /\ (e1 < e2 \/ (e1 = e2 /\ m1 <= m2))))%Z.

Definition fkey (x : float) : Z * Z * Z := SFkey (Prim2SF x).

(** An array without [NaN]. *)
Definition no_nan (a : list float) : Prop := Forall (fun x => is_nan x = false) a.

(** A number with the sign [s] that is neither zero nor [NaN]. *)
Definition signed_nonzero (s : bool) (x : spec_float) : Prop :=
  match x with
  | S754_infinity s' | S754_finite s' _ _ => s' = s
  | _ => False
  end.

(** The mantissa and exponent a rounding settles on, before
    [binary_round_aux] classifies them. *)
Definition rounded (m e : Z) (l : location) : Z * Z :=
  let '(mrs', e') := shr_fexp prec emax m e l in
  let '(mrs'', e'') :=
    shr_fexp prec emax (round_nearest_even (shr_m mrs') (loc_of_shr_record mrs')) e' loc_Exact in
  (shr_m mrs'', e'').

(** Powers of two with the exponent moved up, so that every exponent met
    in a quotient or a product of binary64 numbers is covered. *)
Definition pw (e : Z) : Z := (2 ^ (e + 4400))%Z.

(** The exact value of a finite binary64 number, counted in units of
    [2^-1074], the smallest positive binary64 number. *)
Definition SFunits (x : spec_float) : Z :=
  match x with
  | S754_finite s m e => cond_Zopp s (Zpos m * 2 ^ (e + 1074))
  | _ => 0
  end%Z.

Definition units (x : float) : Z := SFunits (Prim2SF x).

(** The unit in the last place of a finite binary64 number, the weight of
    the last bit of its mantissa, in the same units. *)
Definition SFlastPlace (x : spec_float) : Z :=
  match x with
  | S754_finite _ _ e => 2 ^ (e + 1074)
  | _ => 1
  end%Z.

Definition lastPlace (x : float) : Z := SFlastPlace (Prim2SF x).

(** Replace each integer test in the goal by its value. *)
Ltac decide_tests :=
  repeat match goal with
    | |- context [(?a <=? ?b)%Z] =>
        first [ rewrite (proj2 (Z.leb_le a b)) by lia
              | rewrite (proj2 (Z.leb_gt a b)) by lia ]
    | |- context [(?a <? ?b)%Z] =>
        first [ rewrite (proj2 (Z.ltb_lt a b)) by lia
              | rewrite (proj2 (Z.ltb_ge a b)) by lia ]
    | |- context [(?a =? ?b)%Z] =>
        first [ rewrite (proj2 (Z.eqb_eq a b)) by lia
              | rewrite (proj2 (Z.eqb_neq a b)) by lia ]
    end.

(** * Facts about binary64 numbers *)

Section SpecFloatFacts.

Local Open Scope Z_scope.

Lemma digits2_pos_bounds (p : positive) :
  2 ^ (Zpos (digits2_pos p) - 1) <= Zpos p < 2 ^ Zpos (digits2_pos p).
Proof.
  induction p as [p IH | p IH |]; cbn [digits2_pos].
  - rewrite Pos2Z.inj_succ.
    replace (Z.succ (Zpos (digits2_pos p)) - 1) with (Z.succ (Zpos (digits2_pos p) - 1)) by lia.
    rewrite !Z.pow_succ_r by lia. lia.
  - rewrite Pos2Z.inj_succ.
    replace (Z.succ (Zpos (digits2_pos p)) - 1) with (Z.succ (Zpos (digits2_pos p) - 1)) by lia.
    rewrite !Z.pow_succ_r by lia. lia.
  - cbn. lia.
Qed.

Lemma digits2_pos_unique (p : positive) (a : Z) :
  2 ^ (a - 1) <= Zpos p < 2 ^ a -> Zpos (digits2_pos p) = a.
Proof.
  intros [Hlo Hhi].
  destruct (digits2_pos_bounds p) as [Blo Bhi].
  set (d := Zpos (digits2_pos p)) in *.
  assert (0 < a).
  { destruct (Z.lt_trichotomy a 0) as [Hn | [Hz | Hp]]; [ | | exact Hp ].
    - rewrite Z.pow_neg_r in Hhi by assumption. lia.
    - subst a. cbn in Hhi. lia. }
  assert (0 < d) by (subst d; lia).
  destruct (Z.lt_trichotomy d a) as [Hlt | [Heq | Hgt]]; [ | exact Heq | ].
  - assert (2 ^ d <= 2 ^ (a - 1)) by (apply Z.pow_le_mono_r; lia). lia.
  - assert (2 ^ a <= 2 ^ (d - 1)) by (apply Z.pow_le_mono_r; lia). lia.
Qed.

(** A valid binary64 mantissa has at most 53 bits; below 53 bits the
    exponent is the least one. *)
Lemma bounded_inv (m : positive) (e : Z) :
  bounded prec emax m e = true ->
  Zpos (digits2_pos m) <= 53 /\ -1074 <= e <= 971 /\
  (Zpos (digits2_pos m) = 53 \/ e = -1074).
Proof.
  unfold bounded, canonical_mantissa, fexp, SpecFloat.emin, prec, emax.
  intros H. apply andb_prop in H as [H1 H2].
  apply Z.eqb_eq in H1. apply Z.leb_le in H2. lia.
Qed.

End SpecFloatFacts.

Section FloorFacts.

Local Open Scope Z_scope.

Lemma pow2_pos (a : Z) : 0 <= a -> 0 < 2 ^ a.
Proof. intros. apply Z.pow_pos_nonneg; lia. Qed.

Lemma pow2_lt_inv (a b : Z) : 0 <= b -> 2 ^ a < 2 ^ b -> a < b.
Proof.
  intros Hb H. destruct (Z.lt_ge_cases a b) as [Hlt | Hge]; [exact Hlt | ].
  assert (2 ^ b <= 2 ^ a) by (apply Z.pow_le_mono_r; lia). lia.
Qed.

Lemma Zpos_shiftl (p : positive) (n : Z) :
  0 <= n -> Zpos (Pos.shiftl p (Z.to_N n)) = Zpos p * 2 ^ n.
Proof.
  intros Hn.
  change (Zpos (Pos.shiftl p (Z.to_N n))) with (Z.of_N (N.shiftl (Npos p) (Z.to_N n))).
  rewrite N2Z.inj_shiftl, Z2N.id by assumption.
  cbn [Z.of_N]. apply Z.shiftl_mul_pow2. assumption.
Qed.

(** The normal form of a positive integer of at most 53 bits. *)
Lemma normal_form (p : positive) :
  let d := Zpos (digits2_pos p) in
  d <= 53 ->
  Zpos (Pos.shiftl p (Z.to_N (prec - d))) = Zpos p * 2 ^ (53 - d) /\
  Zpos (digits2_pos (Pos.shiftl p (Z.to_N (prec - d)))) = 53 /\
  bounded prec emax (Pos.shiftl p (Z.to_N (prec - d))) (d - prec) = true.
Proof.
  intros d Hd. unfold prec.
  assert (Hv : Zpos (Pos.shiftl p (Z.to_N (53 - d))) = Zpos p * 2 ^ (53 - d))
    by (apply Zpos_shiftl; lia).
  assert (Hdig : Zpos (digits2_pos (Pos.shiftl p (Z.to_N (53 - d)))) = 53).
  { apply digits2_pos_unique. rewrite Hv.
    destruct (digits2_pos_bounds p) as [Blo Bhi]. fold d in Blo, Bhi.
    assert (0 < d) by (subst d; lia).
    assert (Hc : 0 < 2 ^ (53 - d)) by (apply pow2_pos; lia).
    assert (E1 : 2 ^ (53 - 1) = 2 ^ (d - 1) * 2 ^ (53 - d)).
    { rewrite <- Z.pow_add_r by lia. f_equal. lia. }
    assert (E2 : 2 ^ 53 = 2 ^ d * 2 ^ (53 - d)).
    { rewrite <- Z.pow_add_r by lia. f_equal. lia. }
    rewrite E1, E2. split; nia. }
  split; [exact Hv | split; [exact Hdig | ]].
  unfold bounded, canonical_mantissa, fexp, SpecFloat.emin, emax, prec.
  rewrite Hdig. apply andb_true_intro. split.
  - apply Z.eqb_eq. assert (0 < d) by (subst d; lia). lia.
  - apply Z.leb_le. lia.
Qed.

(** The integer [n] that [SFfloor] builds from mantissa [m] and exponent
    [- k]. *)
Lemma floor_magnitude (s : bool) (m : positive) (k : Z) :
  0 < k ->
  let q := Z.shiftr (Zpos m) k in
  let n := if s && negb (Z.shiftl q k =? Zpos m) then q + 1 else q in
  0 <= q /\ q * 2 ^ k <= Zpos m < (q + 1) * 2 ^ k /\
  (n = q \/ n = q + 1) /\
  (s = false -> n = q) /\
  (s = true -> Zpos m <= n * 2 ^ k /\ 0 < n).
Proof.
  intros Hk q n.
  assert (Hp : 0 < 2 ^ k) by (apply pow2_pos; lia).
  assert (Hq : q = Zpos m / 2 ^ k) by (apply Z.shiftr_div_pow2; lia).
  pose proof (Z.div_mod (Zpos m) (2 ^ k) ltac:(lia)) as Hdm.
  pose proof (Z.mod_pos_bound (Zpos m) (2 ^ k) Hp) as Hmod.
  rewrite <- Hq in Hdm.
  assert (Hq0 : 0 <= q) by (rewrite Hq; apply Z.div_pos; lia).
  assert (Hsl : Z.shiftl q k = q * 2 ^ k) by (apply Z.shiftl_mul_pow2; lia).
  split; [exact Hq0 | ].
  split; [nia | ].
  subst n. rewrite Hsl.
  destruct s; cbn [andb].
  - destruct (Z.eqb_spec (q * 2 ^ k) (Zpos m)) as [He | Hne]; cbn [negb].
    + split; [left; reflexivity | ]. split; [discriminate | ].
      intros _. split; [lia | ]. nia.
    + split; [right; reflexivity | ]. split; [discriminate | ].
      intros _. split; [nia | lia].
  - split; [left; reflexivity | ]. split; [reflexivity | discriminate].
Qed.

End FloorFacts.

Section FloorShape.

Local Open Scope Z_scope.

Lemma SFfloor_shape (s : bool) (m : positive) (e : Z) :
  bounded prec emax m e = true -> e < 0 ->
  match SFfloor (S754_finite s m e) with
  | S754_zero s' => s = false /\ s' = false
  | S754_finite s' m' e' =>
      s' = s /\ bounded prec emax m' e' = true /\
      Zpos (digits2_pos m') = 53 /\ -52 <= e' <= 0 /\
      if s then e <= e' /\ (e = e' -> Zpos m <= Zpos m')
      else e' <= e /\ (e = e' -> Zpos m' <= Zpos m)
  | _ => False
  end.
Proof.
  intros Hb He.
  destruct (bounded_inv m e Hb) as (HD & Hrange & Hcanon).
  destruct (digits2_pos_bounds m) as [Mlo Mhi].
  set (D := Zpos (digits2_pos m)) in *.
  assert (HD0 : 0 < D) by (subst D; lia).
  cbn [SFfloor].
  destruct (Z.leb_spec 0 e) as [Hge | _]; [lia | ].
  set (k := - e). assert (Hk : 0 < k) by lia.
  destruct (floor_magnitude s m k Hk) as (Hq0 & Hq & Hn & Hpos & Hneg).
  cbv zeta in Hn, Hpos, Hneg |- *.
  set (q := Z.shiftr (Zpos m) k) in *.
  set (n := if s && negb (Z.shiftl q k =? Zpos m) then q + 1 else q) in *.
  assert (Hpk : 0 < 2 ^ k) by (apply pow2_pos; lia).
  assert (HM53 : Zpos m < 2 ^ 53).
  { assert (2 ^ D <= 2 ^ 53) by (apply Z.pow_le_mono_r; lia). lia. }
  assert (Hk2 : 2 <= 2 ^ k).
  { change 2 with (2 ^ 1) at 1. apply Z.pow_le_mono_r; lia. }
  assert (Hq52 : q < 2 ^ 52).
  { change (2 ^ 53) with (2 ^ 52 * 2) in HM53. nia. }
  destruct n as [ | p | p] eqn:En.
  - (* the floor is zero *)
    destruct s; [ | split; reflexivity].
    destruct (Hneg eq_refl). lia.
  - set (d := Zpos (digits2_pos p)).
    destruct (digits2_pos_bounds p) as [Plo Phi]. fold d in Plo, Phi.
    assert (Hd0 : 0 < d) by (subst d; lia).
    assert (Hd : d <= 53).
    { assert (Zpos p <= 2 ^ 52) by lia.
      assert (2 ^ (d - 1) < 2 ^ 53) by (change (2 ^ 53) with (2 ^ 52 * 2); lia).
      apply pow2_lt_inv in H0; lia. }
    destruct (normal_form p Hd) as (Hv & Hdig & Hbd). fold d in Hv, Hdig, Hbd.
    split; [reflexivity | ]. split; [exact Hbd | ]. split; [exact Hdig | ].
    unfold prec in Hv |- *. split; [lia | ].
    destruct s.
    + (* negative: the magnitude was rounded up *)
      destruct (Hneg eq_refl) as [Hmn _].
      assert (Hexp : e <= d - 53).
      { destruct Hcanon as [HD53 | Hemin]; [ | lia].
        assert (2 ^ (D - 1) < 2 ^ (d + k)).
        { rewrite Z.pow_add_r by lia. nia. }
        apply pow2_lt_inv in H; lia. }
      split; [exact Hexp | ].
      intros Heq. rewrite Hv. replace (53 - d) with k by lia. exact Hmn.
    + (* positive: the magnitude was rounded down *)
      rewrite (Hpos eq_refl) in En.
      assert (Hexp : d - 53 <= e).
      { assert (2 ^ (d - 1) < 2 ^ (D - k)).
        { destruct (Z.lt_ge_cases (D - k) 0) as [Hlt | Hge].
          - (* then q would be zero *)
            assert (2 ^ D <= 2 ^ k) by (apply Z.pow_le_mono_r; lia). nia.
          - assert (E : 2 ^ D = 2 ^ (D - k) * 2 ^ k).
            { rewrite <- Z.pow_add_r by lia. f_equal. lia. }
            assert (0 < 2 ^ (D - k)) by (apply pow2_pos; lia). nia. }
        destruct (Z.lt_ge_cases (D - k) 0) as [Hlt | Hge].
        - rewrite (Z.pow_neg_r 2 (D - k)) in H by assumption.
          assert (0 < 2 ^ (d - 1)) by (apply pow2_pos; lia). lia.
        - apply pow2_lt_inv in H; lia. }
      split; [exact Hexp | ].
      intros Heq. rewrite Hv. replace (53 - d) with k by lia. lia.
  - (* a negative magnitude cannot arise *)
    destruct Hn as [Hn | Hn]; lia.
Qed.

End FloorShape.

Section FloorOrder.

Local Open Scope Z_scope.

Lemma SFcompare_refl (x : spec_float) :
  x <> S754_nan -> SFcompare x x = Some Eq.
Proof.
  destruct x as [[] | [] | | [] m e]; cbn; intros H; try reflexivity;
    try (now elim H);
    rewrite Z.compare_refl, Pos.compare_cont_refl; reflexivity.
Qed.

Lemma SFcompare_finite (s : bool) (m m' : positive) (e e' : Z) :
  SFcompare (S754_finite s m e) (S754_finite s m' e') =
  Some (if s
        then match e ?= e' with
             | Lt => Gt
             | Gt => Lt
             | Eq => CompOpp (m ?= m')%positive
             end
        else match e ?= e' with
             | Lt => Lt
             | Gt => Gt
             | Eq => (m ?= m')%positive
             end).
Proof. destruct s; reflexivity. Qed.

Lemma SFfloor_valid (x : spec_float) :
  valid_binary x = true -> valid_binary (SFfloor x) = true.
Proof.
  destruct x as [s | s | | s m e]; try (intros; reflexivity).
  intros Hb. cbn [valid_binary] in Hb.
  destruct (Z.lt_ge_cases e 0) as [Hneg | Hpos].
  - pose proof (SFfloor_shape s m e Hb Hneg) as Hs.
    revert Hs. cbn [valid_binary].
    destruct (SFfloor (S754_finite s m e)); intros Hs; try reflexivity.
    apply Hs.
  - cbn [SFfloor]. destruct (Z.leb_spec 0 e); [exact Hb | lia].
Qed.

(** [Math.floor] never rounds up. *)
Lemma SFfloor_not_above (x : spec_float) :
  valid_binary x = true -> SFltb x (SFfloor x) = false.
Proof.
  destruct x as [s | s | | s m e]; intros Hb.
  - destruct s; reflexivity.
  - destruct s; reflexivity.
  - reflexivity.
  - cbn [valid_binary] in Hb.
    destruct (Z.lt_ge_cases e 0) as [Hneg | Hpos].
    + pose proof (SFfloor_shape s m e Hb Hneg) as Hs.
      revert Hs.
      destruct (SFfloor (S754_finite s m e)) as [s' | s' | | s' m' e'];
        intros Hs; try contradiction.
      * destruct Hs as [-> ->]. reflexivity.
      * destruct Hs as (-> & _ & _ & _ & Hs).
        unfold SFltb. rewrite SFcompare_finite.
        destruct s.
        -- destruct Hs as [Hle Hm].
           destruct (Z.compare_spec e e') as [Heq | Hlt | Hgt]; try reflexivity; [ | lia].
           specialize (Hm Heq).
           destruct (Pos.compare_spec m m') as [Hc | Hc | Hc]; try reflexivity.
           lia.
        -- destruct Hs as [Hle Hm].
           destruct (Z.compare_spec e e') as [Heq | Hlt | Hgt]; try reflexivity; [ | lia].
           specialize (Hm Heq).
           destruct (Pos.compare_spec m m') as [Hc | Hc | Hc]; try reflexivity.
           lia.
    + cbn [SFfloor]. destruct (Z.leb_spec 0 e); [ | lia].
      unfold SFltb. rewrite SFcompare_refl by discriminate. reflexivity.
Qed.

(** Below zero, [Math.floor] is at most [-1]. *)
Lemma SFfloor_negative (x : spec_float) (one : positive) :
  Zpos one = 2 ^ 52 ->
  valid_binary x = true ->
  SFltb x (S754_zero false) = true ->
  SFleb (SFfloor x) (S754_finite true one (-52)) = true.
Proof.
  intros Hone.
  destruct x as [s | s | | s m e]; intros Hb Hlt.
  - destruct s; discriminate.
  - destruct s; [reflexivity | discriminate].
  - discriminate.
  - destruct s; [ | discriminate].
    cbn [valid_binary] in Hb.
    destruct (Z.lt_ge_cases e 0) as [Hneg | Hpos].
    + pose proof (SFfloor_shape true m e Hb Hneg) as Hs.
      revert Hs.
      destruct (SFfloor (S754_finite true m e)) as [s' | s' | | s' m' e'];
        intros Hs; try contradiction.
      * destruct Hs as [Hs _]. discriminate.
      * destruct Hs as (-> & _ & Hdig & Hrange & _).
        unfold SFleb. rewrite SFcompare_finite.
        destruct (Z.compare_spec e' (-52)) as [Heq | Hl | Hg]; try reflexivity; [ | lia].
        destruct (Pos.compare_spec m' one) as [Hc | Hc | Hc]; try reflexivity.
        destruct (digits2_pos_bounds m') as [Blo _]. rewrite Hdig in Blo.
        change (53 - 1) with 52 in Blo. lia.
    + cbn [SFfloor]. destruct (Z.leb_spec 0 e); [ | lia].
      unfold SFleb. rewrite SFcompare_finite.
      destruct (Z.compare_spec e (-52)) as [Heq | Hl | Hg]; try reflexivity; lia.
Qed.

End FloorOrder.

Section MathFloor.

Local Open Scope float_scope.

Lemma Prim2SF_Math_floor (x : float) :
  Prim2SF (Math_floor x) = SFfloor (Prim2SF x).
Proof.
  unfold Math_floor. apply Prim2SF_SF2Prim, SFfloor_valid, Prim2SF_valid.
Qed.

Lemma Math_floor_not_above (x : float) : (x <? Math_floor x) = false.
Proof.
  rewrite ltb_spec, Prim2SF_Math_floor.
  apply SFfloor_not_above, Prim2SF_valid.
Qed.

Lemma Math_floor_negative (x : float) :
  (x <? 0) = true -> (Math_floor x <=? -1) = true.
Proof.
  rewrite ltb_spec, leb_spec, Prim2SF_Math_floor.
  change (Prim2SF 0) with (S754_zero false).
  change (Prim2SF (-1)) with (S754_finite true (2 ^ 52) (-52)).
  apply SFfloor_negative; [reflexivity | apply Prim2SF_valid].
Qed.

Example Math_floor_examples :
  Math_floor 2.5 = 2 /\ Math_floor (-2.5) = -3 /\ Math_floor 0.5 = 0 /\
  Math_floor (-0.5) = -1 /\ Math_floor 500 = 500 /\
  Math_floor infinity = infinity /\ is_nan (Math_floor nan) = true.
Proof. repeat split. Qed.

End MathFloor.

Section Classification.

Local Open Scope float_scope.

Lemma SFeqb_refl (x : spec_float) : x <> S754_nan -> SFeqb x x = true.
Proof. intros H. unfold SFeqb. rewrite SFcompare_refl by assumption. reflexivity. Qed.

Lemma is_nan_Prim2SF (x : float) :
  is_nan x = match Prim2SF x with S754_nan => true | _ => false end.
Proof.
  unfold is_nan. rewrite FloatAxioms.eqb_spec.
  destruct (Prim2SF x) eqn:E; try reflexivity;
    rewrite SFeqb_refl by discriminate; reflexivity.
Qed.

Lemma is_zero_Prim2SF (x : float) :
  (x =? 0) = match Prim2SF x with S754_zero _ => true | _ => false end.
Proof.
  rewrite FloatAxioms.eqb_spec. change (Prim2SF 0) with (S754_zero false).
  destruct (Prim2SF x) as [[] | [] | | [] m e]; reflexivity.
Qed.

Lemma truthy_Prim2SF (x : float) :
  truthy x = match Prim2SF x with
             | S754_zero _ | S754_nan => false
             | _ => true
             end.
Proof.
  unfold truthy, is_zero. change zero with 0.
  rewrite is_zero_Prim2SF, is_nan_Prim2SF.
  destruct (Prim2SF x); reflexivity.
Qed.

Lemma is_finite_Prim2SF (x : float) :
  is_finite x = match Prim2SF x with
                | S754_infinity _ | S754_nan => false
                | _ => true
                end.
Proof.
  unfold is_finite, is_infinity. rewrite is_nan_Prim2SF, FloatAxioms.eqb_spec, abs_spec.
  change (Prim2SF infinity) with (S754_infinity false).
  destruct (Prim2SF x) as [[] | [] | | [] m e]; reflexivity.
Qed.

Lemma ltb_zero_Prim2SF (x : float) :
  (x <? 0) = match Prim2SF x with
             | S754_infinity true | S754_finite true _ _ => true
             | _ => false
             end.
Proof.
  rewrite FloatAxioms.ltb_spec. change (Prim2SF 0) with (S754_zero false).
  destruct (Prim2SF x) as [[] | [] | | [] m e]; reflexivity.
Qed.

Lemma zero_ltb_Prim2SF (x : float) :
  (0 <? x) = match Prim2SF x with
             | S754_infinity false | S754_finite false _ _ => true
             | _ => false
             end.
Proof.
  rewrite FloatAxioms.ltb_spec. change (Prim2SF 0) with (S754_zero false).
  destruct (Prim2SF x) as [[] | [] | | [] m e]; reflexivity.
Qed.

(** A positive or a negative number is truthy. *)
Lemma positive_truthy (x : float) : (0 <? x) = true -> truthy x = true.
Proof.
  rewrite zero_ltb_Prim2SF, truthy_Prim2SF.
  destruct (Prim2SF x) as [[] | [] | | [] m e]; congruence.
Qed.

Lemma negative_truthy (x : float) : (x <? 0) = true -> truthy x = true.
Proof.
  rewrite ltb_zero_Prim2SF, truthy_Prim2SF.
  destruct (Prim2SF x) as [[] | [] | | [] m e]; congruence.
Qed.

(** [x - x] is [+0] for every finite [x]. *)
Lemma sub_diag_finite (x : float) :
  is_finite x = true -> (Math_abs (x - x) =? 0) = true.
Proof.
  rewrite is_finite_Prim2SF, is_zero_Prim2SF. unfold Math_abs.
  rewrite abs_spec, sub_spec.
  destruct (Prim2SF x) as [[] | [] | | s m e]; try discriminate; try reflexivity.
  intros _. unfold SF64sub, SFsub. rewrite Z.sub_diag. reflexivity.
Qed.

End Classification.

(** Signs of products and quotients. *)
Section Signs.

Lemma binary_round_aux_sign (s : bool) (m e : Z) (l : location) :
  signed_or_nan s (binary_round_aux prec emax s m e l).
Proof.
  unfold binary_round_aux.
  destruct (shr_fexp prec emax m e l) as [mrs' e'].
  destruct (shr_fexp prec emax _ e' loc_Exact) as [mrs'' e''].
  destruct (shr_m mrs'') as [ | p | p]; [exact eq_refl | | exact I].
  destruct (Z.leb e'' _); exact eq_refl.
Qed.

Lemma SFmul_sign (x y : spec_float) (sx sy : bool) :
  signed_or_nan sx x -> signed_or_nan sy y ->
  signed_or_nan (xorb sx sy) (SFmul prec emax x y).
Proof.
  destruct x as [s1 | s1 | | s1 m1 e1], y as [s2 | s2 | | s2 m2 e2];
    cbn [signed_or_nan SFmul]; intros; subst; try reflexivity; try exact I.
  apply binary_round_aux_sign.
Qed.

Lemma SFdiv_sign (x y : spec_float) (sx sy : bool) :
  signed_or_nan sx x -> signed_or_nan sy y ->
  signed_or_nan (xorb sx sy) (SFdiv prec emax x y).
Proof.
  destruct x as [s1 | s1 | | s1 m1 e1], y as [s2 | s2 | | s2 m2 e2];
    cbn [signed_or_nan SFdiv]; intros; subst; try reflexivity; try exact I.
  destruct (SFdiv_core_binary prec emax (Zpos m1) e1 (Zpos m2) e2) as [[mz ez] lz].
  apply binary_round_aux_sign.
Qed.

Lemma SFabs_sign (x : spec_float) : signed_or_nan false (SFabs x).
Proof. destruct x; cbn; trivial. Qed.

Lemma signed_false_not_below_zero (x : spec_float) :
  signed_or_nan false x -> SFltb x (S754_zero false) = false.
Proof. destruct x as [[] | [] | | [] m e]; cbn; congruence. Qed.

Local Open Scope float_scope.

(** The quotient [capital * 0.01 / |entryPrice - stopLoss|] of a positive
    capital is never below zero. *)
Lemma budget_quotient_not_negative (capital d : float) :
  (0 <? capital) = true ->
  (capital * 0.01 / Math_abs d <? 0) = false.
Proof.
  intros Hc. rewrite FloatAxioms.ltb_spec. change (Prim2SF 0) with (S754_zero false).
  apply signed_false_not_below_zero.
  rewrite div_spec. change false with (xorb false false).
  apply SFdiv_sign.
  - rewrite mul_spec. change false with (xorb false false).
    apply SFmul_sign.
    + rewrite zero_ltb_Prim2SF in Hc.
      destruct (Prim2SF capital) as [[] | [] | | [] m e]; cbn; congruence.
    + vm_compute. reflexivity.
  - unfold Math_abs. rewrite abs_spec. apply SFabs_sign.
Qed.

End Signs.

(** Rounding a non-zero value whose exponent is at least the least one
    never gives zero: binary64 has gradual underflow. *)
Section NoUnderflow.

Local Open Scope Z_scope.

Lemma shr_1_m (r : shr_record) :
  0 <= shr_m r -> shr_m (shr_1 r) = shr_m r / 2.
Proof.
  destruct r as [m r s]. cbn [shr_m shr_1].
  destruct m as [ | [p | p | ] | p]; intros H; cbn [shr_m].
  - reflexivity.
  - rewrite Pos2Z.inj_xI. apply Z.div_unique with 1; lia.
  - rewrite Pos2Z.inj_xO. apply Z.div_unique with 0; lia.
  - reflexivity.
  - lia.
Qed.

Lemma iter_pos_shr_1 (p : positive) :
  forall r, 0 <= shr_m r ->
  shr_m (iter_pos shr_1 p r) = shr_m r / 2 ^ Zpos p.
Proof.
  assert (Hdiv : forall a k, 0 <= a -> 0 < k -> 0 <= a / k)
    by (intros; apply Z.div_pos; lia).
  induction p as [p IH | p IH | ]; intros r Hr; cbn [iter_pos].
  - assert (H2 : 0 < 2 ^ Zpos p) by (apply pow2_pos; lia).
    assert (H1 : 0 <= shr_m (shr_1 r)) by (rewrite shr_1_m by assumption; apply Hdiv; lia).
    assert (H3 : 0 <= shr_m (iter_pos shr_1 p (shr_1 r)))
      by (rewrite IH by assumption; apply Hdiv; lia).
    rewrite (IH _ H3), (IH _ H1), shr_1_m by assumption.
    rewrite !Z.div_div by lia. f_equal.
    replace (Zpos p~1) with (1 + Zpos p + Zpos p) by lia.
    rewrite !Z.pow_add_r by lia. change (2 ^ 1) with 2. lia.
  - assert (H2 : 0 < 2 ^ Zpos p) by (apply pow2_pos; lia).
    assert (H3 : 0 <= shr_m (iter_pos shr_1 p r))
      by (rewrite IH by assumption; apply Hdiv; lia).
    rewrite (IH _ H3), (IH _ Hr).
    rewrite Z.div_div by lia. f_equal.
    replace (Zpos p~0) with (Zpos p + Zpos p) by lia.
    rewrite Z.pow_add_r by lia. reflexivity.
  - rewrite shr_1_m by assumption. reflexivity.
Qed.

Lemma shr_record_of_loc_m (m : Z) (l : location) :
  shr_m (shr_record_of_loc m l) = m.
Proof. destruct l as [ | []]; reflexivity. Qed.

Lemma shr_fexp_positive (m e : Z) (l : location) :
  0 < m -> -1074 <= e ->
  0 < shr_m (fst (shr_fexp prec emax m e l)) /\
  -1074 <= snd (shr_fexp prec emax m e l).
Proof.
  intros Hm He. unfold shr_fexp, shr.
  destruct m as [ | p | p]; try lia. cbn [Zdigits2].
  destruct (digits2_pos_bounds p) as [Plo Phi].
  set (D := Zpos (digits2_pos p)) in *.
  assert (0 < D) by (subst D; lia).
  unfold fexp, SpecFloat.emin, prec, emax.
  destruct (Z.max (D + e - 53) (3 - 1024 - 53) - e) as [ | n | n] eqn:En;
    cbn [fst snd]; rewrite ?shr_record_of_loc_m; try lia.
  rewrite iter_pos_shr_1 by (rewrite shr_record_of_loc_m; lia).
  rewrite shr_record_of_loc_m.
  assert (Hn : Zpos n = D - 53) by lia.
  split; [ | lia].
  assert (2 ^ Zpos n <= 2 ^ (D - 1)) by (apply Z.pow_le_mono_r; lia).
  assert (0 < 2 ^ Zpos n) by (apply pow2_pos; lia).
  apply Z.div_str_pos. lia.
Qed.

Lemma binary_round_aux_nonzero (s : bool) (m e : Z) (l : location) :
  0 < m -> -1074 <= e -> nonzero (binary_round_aux prec emax s m e l).
Proof.
  intros Hm He. unfold binary_round_aux.
  destruct (shr_fexp_positive m e l Hm He) as [H1 H1e].
  destruct (shr_fexp prec emax m e l) as [mrs' e']. cbn [fst snd] in H1, H1e.
  set (m2 := round_nearest_even (shr_m mrs') (loc_of_shr_record mrs')).
  assert (Hm2 : 0 < m2).
  { subst m2. unfold round_nearest_even.
    destruct (loc_of_shr_record mrs') as [ | []]; try lia.
    destruct (Z.even (shr_m mrs')); lia. }
  destruct (shr_fexp_positive m2 e' loc_Exact Hm2 H1e) as [H2 _].
  destruct (shr_fexp prec emax m2 e' loc_Exact) as [mrs'' e'']. cbn [fst] in H2.
  destruct (shr_m mrs'') as [ | p | p]; try lia.
  destruct (Z.leb e'' _); exact I.
Qed.

Lemma binary_normalize_nonzero (m e : Z) (szero : bool) :
  m <> 0 -> -1074 <= e -> nonzero (binary_normalize prec emax m e szero).
Proof.
  intros Hm He.
  assert (Hr : forall s p, nonzero (binary_round prec emax s p e)).
  { intros s p. unfold binary_round, shl_align.
    set (e1 := fexp prec emax (Zpos (digits2_pos p) + e)).
    assert (-1074 <= e1) by (subst e1; unfold fexp, SpecFloat.emin, prec, emax; lia).
    destruct (e1 - e); apply binary_round_aux_nonzero; lia. }
  destruct m as [ | p | p]; [now elim Hm | apply Hr | apply Hr].
Qed.

End NoUnderflow.

(** Two different numbers have a non-zero difference. *)
Section Difference.

Local Open Scope Z_scope.

Lemma Zpos_iter_xO (m d : positive) :
  Zpos (Pos.iter xO m d) = Zpos m * 2 ^ Zpos d.
Proof.
  rewrite <- (Zpos_shiftl m (Zpos d)) by lia. reflexivity.
Qed.

Lemma shl_align_value (mx : positive) (ex ez : Z) :
  ez <= ex -> Zpos (fst (shl_align mx ex ez)) = Zpos mx * 2 ^ (ex - ez).
Proof.
  intros H. unfold shl_align.
  destruct (ez - ex) as [ | d | d] eqn:E; cbn [fst].
  - replace (ex - ez) with 0 by lia. lia.
  - lia.
  - rewrite Zpos_iter_xO. f_equal. f_equal. lia.
Qed.

(** A valid mantissa and exponent are determined by the value. *)
Lemma canonical_unique (mx my : positive) (ex ey : Z) :
  bounded prec emax mx ex = true -> bounded prec emax my ey = true ->
  ex <= ey -> Zpos mx = Zpos my * 2 ^ (ey - ex) -> ex = ey /\ mx = my.
Proof.
  intros Hx Hy Hle Heq.
  destruct (bounded_inv mx ex Hx) as (HDx & Hrx & _).
  destruct (bounded_inv my ey Hy) as (HDy & Hry & Hcy).
  destruct (digits2_pos_bounds mx) as [_ Xhi].
  destruct (digits2_pos_bounds my) as [Ylo _].
  destruct (Z.eq_dec ex ey) as [-> | Hne].
  - rewrite Z.sub_diag in Heq. split; [reflexivity | lia].
  - exfalso.
    destruct Hcy as [HDy53 | Hemin]; [ | lia].
    rewrite HDy53 in Ylo. change (53 - 1) with 52 in Ylo.
    assert (2 ^ Zpos (digits2_pos mx) <= 2 ^ 53) by (apply Z.pow_le_mono_r; lia).
    assert (2 ^ 1 <= 2 ^ (ey - ex)) by (apply Z.pow_le_mono_r; lia).
    change (2 ^ 1) with 2 in *. change (2 ^ 53) with (2 ^ 52 * 2) in *. nia.
Qed.

Lemma SFeqb_finite (s1 s2 : bool) (m1 m2 : positive) (e1 e2 : Z) :
  s1 = s2 -> e1 = e2 -> m1 = m2 ->
  SFeqb (S754_finite s1 m1 e1) (S754_finite s2 m2 e2) = true.
Proof. intros -> -> ->. apply SFeqb_refl. discriminate. Qed.

Lemma SFsub_nonzero (x y : spec_float) :
  valid_binary x = true -> valid_binary y = true ->
  x <> S754_nan -> y <> S754_nan ->
  SFeqb x y = false ->
  nonzero (SFsub prec emax x y).
Proof.
  intros Vx Vy Nx Ny Hne.
  destruct x as [sx | sx | | sx mx ex]; [ | | now elim Nx | ];
    (destruct y as [sy | sy | | sy my ey]; [ | | now elim Ny | ]);
    try (destruct sx, sy; cbn in Hne |- *; (exact I || discriminate)).
  (* two finite numbers: the aligned mantissas differ *)
  cbn [valid_binary] in Vx, Vy. cbn [SFsub].
  apply binary_normalize_nonzero.
  2:{ destruct (bounded_inv mx ex Vx) as (_ & ? & _).
      destruct (bounded_inv my ey Vy) as (_ & ? & _). lia. }
  pose proof (shl_align_value mx ex (Z.min ex ey) ltac:(lia)) as Hx.
  pose proof (shl_align_value my ey (Z.min ex ey) ltac:(lia)) as Hy.
  set (X := Zpos (fst (shl_align mx ex (Z.min ex ey)))) in *.
  set (Y := Zpos (fst (shl_align my ey (Z.min ex ey)))) in *.
  assert (HX : 0 < X) by (subst X; lia).
  assert (HY : 0 < Y) by (subst Y; lia).
  assert (Hsame : sx = sy -> X <> Y).
  { intros Hs HXY. rewrite Hx, Hy in HXY.
    assert (Hsame : ex = ey /\ mx = my).
    { destruct (Z.le_ge_cases ex ey) as [Hle | Hge].
      - rewrite Z.min_l, Z.sub_diag in HXY by assumption.
        apply (canonical_unique mx my ex ey Vx Vy Hle). lia.
      - rewrite Z.min_r, Z.sub_diag in HXY by lia.
        destruct (canonical_unique my mx ey ex Vy Vx) as [-> ->]; [lia | lia | ].
        split; reflexivity. }
    destruct Hsame as [He Hm].
    rewrite (SFeqb_finite _ _ _ _ _ _ Hs He Hm) in Hne. discriminate. }
  unfold cond_Zopp. destruct sx, sy; try lia;
    specialize (Hsame eq_refl); lia.
Qed.

End Difference.

Section FloatDifference.

Local Open Scope float_scope.

Lemma sub_nonzero (x y : float) :
  is_nan x = false -> is_nan y = false -> (x =? y) = false ->
  (Math_abs (x - y) =? 0) = false.
Proof.
  rewrite !is_nan_Prim2SF, FloatAxioms.eqb_spec, is_zero_Prim2SF.
  unfold Math_abs. rewrite abs_spec, sub_spec.
  intros Nx Ny Hne.
  pose proof (SFsub_nonzero (Prim2SF x) (Prim2SF y)
                (Prim2SF_valid x) (Prim2SF_valid y)) as H.
  unfold SF64sub.
  destruct (SFsub prec emax (Prim2SF x) (Prim2SF y)); try reflexivity.
  exfalso. apply H; [ | | exact Hne].
  - intros E. rewrite E in Nx. discriminate.
  - intros E. rewrite E in Ny. discriminate.
Qed.

Lemma truthy_not_nan (x : float) : truthy x = true -> is_nan x = false.
Proof.
  rewrite truthy_Prim2SF, is_nan_Prim2SF. destruct (Prim2SF x); congruence.
Qed.

End FloatDifference.

(** The value of [Math.floor] is an integer: flooring it again changes
    nothing. *)
Section Idempotence.

Local Open Scope Z_scope.

Lemma SFfloor_form (s : bool) (m : positive) (e : Z) :
  bounded prec emax m e = true -> e < 0 ->
  SFfloor (S754_finite s m e) = S754_zero s \/
  exists p, Zpos (digits2_pos p) <= 53 /\
    SFfloor (S754_finite s m e) =
    S754_finite s (Pos.shiftl p (Z.to_N (prec - Zpos (digits2_pos p))))
      (Zpos (digits2_pos p) - prec).
Proof.
  intros Hb He.
  destruct (bounded_inv m e Hb) as (HD & _ & _).
  destruct (digits2_pos_bounds m) as [_ Mhi].
  cbn [SFfloor].
  destruct (Z.leb_spec 0 e) as [Hge | _]; [lia | ].
  set (k := - e). assert (Hk : 0 < k) by lia.
  destruct (floor_magnitude s m k Hk) as (Hq0 & Hq & Hn & _).
  cbv zeta in Hn |- *.
  set (q := Z.shiftr (Zpos m) k) in *.
  set (n := if s && negb (Z.shiftl q k =? Zpos m) then q + 1 else q) in *.
  destruct n as [ | p | p] eqn:En; [left; reflexivity | | left; reflexivity].
  right. exists p. split; [ | reflexivity].
  assert (2 ^ Zpos (digits2_pos m) <= 2 ^ 53) by (apply Z.pow_le_mono_r; lia).
  assert (2 <= 2 ^ k).
  { change 2 with (2 ^ 1) at 1. apply Z.pow_le_mono_r; lia. }
  assert (Zpos p <= 2 ^ 52) by (change (2 ^ 53) with (2 ^ 52 * 2) in *; nia).
  destruct (digits2_pos_bounds p) as [Plo _].
  assert (Hlt : 2 ^ (Zpos (digits2_pos p) - 1) < 2 ^ 53)
    by (change (2 ^ 53) with (2 ^ 52 * 2); lia).
  apply pow2_lt_inv in Hlt; lia.
Qed.

Lemma SFfloor_normal_form (s : bool) (p : positive) :
  let d := Zpos (digits2_pos p) in
  d <= 53 ->
  SFfloor (S754_finite s (Pos.shiftl p (Z.to_N (prec - d))) (d - prec)) =
  S754_finite s (Pos.shiftl p (Z.to_N (prec - d))) (d - prec).
Proof.
  intros d Hd.
  destruct (normal_form p Hd) as (Hv & _ & _). fold d in Hv.
  assert (Hd0 : 0 < d) by (subst d; lia).
  cbn [SFfloor]. unfold prec in *.
  destruct (Z.leb_spec 0 (d - 53)) as [Hge | Hlt]; [reflexivity | ].
  replace (- (d - 53)) with (53 - d) by lia.
  assert (Hp : 0 < 2 ^ (53 - d)) by (apply pow2_pos; lia).
  assert (Hq : Z.shiftr (Zpos (Pos.shiftl p (Z.to_N (53 - d)))) (53 - d) = Zpos p).
  { rewrite Z.shiftr_div_pow2, Hv by lia. apply Z.div_mul. lia. }
  rewrite Hq.
  assert (Hx : (Z.shiftl (Zpos p) (53 - d) =? Zpos (Pos.shiftl p (Z.to_N (53 - d)))) = true).
  { apply Z.eqb_eq. rewrite Z.shiftl_mul_pow2, Hv by lia. reflexivity. }
  rewrite Hx, andb_false_r. reflexivity.
Qed.

Lemma SFfloor_idempotent (x : spec_float) :
  valid_binary x = true -> SFfloor (SFfloor x) = SFfloor x.
Proof.
  destruct x as [s | s | | s m e]; try reflexivity.
  intros Hb. cbn [valid_binary] in Hb.
  destruct (Z.lt_ge_cases e 0) as [Hneg | Hpos].
  - destruct (SFfloor_form s m e Hb Hneg) as [-> | (p & Hd & ->)].
    + reflexivity.
    + apply SFfloor_normal_form. exact Hd.
  - cbn [SFfloor]. destruct (Z.leb_spec 0 e) as [_ | ?]; [ | lia].
    cbn [SFfloor]. destruct (Z.leb_spec 0 e) as [_ | ?]; [reflexivity | lia].
Qed.

Lemma Math_floor_idempotent (x : float) :
  Math_floor (Math_floor x) = Math_floor x.
Proof.
  unfold Math_floor at 1. rewrite Prim2SF_Math_floor.
  rewrite SFfloor_idempotent by apply Prim2SF_valid. reflexivity.
Qed.

End Idempotence.

(** [Math.floor] is the floor of the exact value. *)
Section ExactFloor.

Local Open Scope Z_scope.

Lemma SFinteger_normal_form (s : bool) (p : positive) :
  let d := Zpos (digits2_pos p) in
  d <= 53 ->
  SFinteger (S754_finite s (Pos.shiftl p (Z.to_N (prec - d))) (d - prec)) =
  Some (cond_Zopp s (Zpos p)).
Proof.
  intros d Hd.
  destruct (normal_form p Hd) as (Hv & _ & _). fold d in Hv.
  assert (Hd0 : 0 < d) by (subst d; lia).
  cbn [SFinteger]. unfold prec in *. rewrite Hv.
  destruct (Z.leb_spec 0 (d - 53)) as [Hge | Hlt].
  - replace (53 - d) with 0 by lia. replace (d - 53) with 0 by lia.
    do 2 f_equal. cbn. lia.
  - replace (- (d - 53)) with (53 - d) by lia.
    assert (Hp : 0 < 2 ^ (53 - d)) by (apply pow2_pos; lia).
    rewrite Z.mod_mul, Z.div_mul by lia. reflexivity.
Qed.

(** [SFfloor] denotes the floor of the exact value. *)
Lemma SFfloor_exact (x : spec_float) :
  valid_binary x = true -> SFinteger (SFfloor x) = SFexactFloor x.
Proof.
  destruct x as [s | s | | s m e]; try reflexivity.
  intros Hb. cbn [valid_binary] in Hb.
  destruct (Z.lt_ge_cases e 0) as [Hneg | Hpos].
  2:{ cbn [SFfloor SFinteger SFexactFloor].
      destruct (Z.leb_spec 0 e); [ | lia].
      cbn [SFinteger]. destruct (Z.leb_spec 0 e); [ | lia].
      destruct s; cbn [cond_Zopp]; f_equal; lia. }
  destruct (bounded_inv m e Hb) as (HD & _ & _).
  destruct (digits2_pos_bounds m) as [_ Mhi].
  cbn [SFfloor SFexactFloor].
  destruct (Z.leb_spec 0 e) as [Hge | _]; [lia | ].
  set (k := - e). assert (Hk : 0 < k) by lia.
  destruct (floor_magnitude s m k Hk) as (Hq0 & Hq & Hn & Hpos & Hnegs).
  cbv zeta in Hn, Hpos, Hnegs |- *.
  set (q := Z.shiftr (Zpos m) k) in *.
  assert (Hsl : Z.shiftl q k = q * 2 ^ k) by (apply Z.shiftl_mul_pow2; lia).
  assert (Hpk : 0 < 2 ^ k) by (apply pow2_pos; lia).
  (* the integer the definition builds is the floor of the signed mantissa *)
  assert (Hfloor : cond_Zopp s (if s && negb (Z.shiftl q k =? Zpos m) then q + 1 else q)
                   = cond_Zopp s (Zpos m) / 2 ^ k).
  { rewrite Hsl. destruct s; cbn [andb cond_Zopp].
    - destruct (Z.eqb_spec (q * 2 ^ k) (Zpos m)) as [He | Hne]; cbn [negb].
      + apply Z.div_unique with 0; lia.
      + apply Z.div_unique with ((q + 1) * 2 ^ k - Zpos m); lia.
    - apply Z.div_unique with (Zpos m - q * 2 ^ k); lia. }
  set (n := if s && negb (Z.shiftl q k =? Zpos m) then q + 1 else q) in *.
  rewrite <- Hfloor.
  destruct n as [ | p | p] eqn:En.
  - destruct s; reflexivity.
  - apply SFinteger_normal_form.
    assert (2 ^ Zpos (digits2_pos m) <= 2 ^ 53) by (apply Z.pow_le_mono_r; lia).
    assert (2 <= 2 ^ k).
    { change 2 with (2 ^ 1) at 1. apply Z.pow_le_mono_r; lia. }
    assert (Zpos p <= 2 ^ 52) by (change (2 ^ 53) with (2 ^ 52 * 2) in *; nia).
    destruct (digits2_pos_bounds p) as [Plo _].
    assert (Hlt : 2 ^ (Zpos (digits2_pos p) - 1) < 2 ^ 53)
      by (change (2 ^ 53) with (2 ^ 52 * 2); lia).
    apply pow2_lt_inv in Hlt; lia.
  - destruct Hn as [Hn | Hn]; lia.
Qed.

Lemma Math_floor_exact (x : float) :
  SFinteger (Prim2SF (Math_floor x)) = SFexactFloor (Prim2SF x).
Proof.
  rewrite Prim2SF_Math_floor. apply SFfloor_exact, Prim2SF_valid.
Qed.

End ExactFloor.

(** * Properties of the engine *)

(** ** Session clock *)

Section SessionClock.

Import marketStatus.
Local Open Scope Z_scope.

Lemma isMarketOpenAt_iff (istTime : Date) :
  isMarketOpenAt istTime = true <->
  (1 <= getDay istTime <= 5) /\
  ((getHours istTime = 9 /\ 15 <= getMinutes istTime)
   \/ (9 < getHours istTime < 15)
   \/ (getHours istTime = 15 /\ getMinutes istTime <= 30)).
Proof.
  unfold isMarketOpenAt.
  rewrite !andb_true_iff, !orb_true_iff, !andb_true_iff.
  rewrite !Z.eqb_eq, !Z.leb_le, !Z.ltb_lt. tauto.
Qed.

Lemma isMarketOpenAt_saturday (istTime : Date) :
  getDay istTime = 6 -> isMarketOpenAt istTime = false.
Proof.
  intros H. apply not_true_is_false. rewrite isMarketOpenAt_iff. lia.
Qed.

(** Tuesday 2026-11-03, 10:00 in Kolkata. *)
Example isMarketOpen_tuesday_morning :
  toKolkata 1793680200000 = {| getHours := 10; getMinutes := 0; getDay := 2 |} /\
  isMarketOpen 1793680200000 = true.
Proof. split; reflexivity. Qed.

Lemma detectMarketStatus_holiday (utcOffsetMinutes now : Z) :
  Dashboard.includes Dashboard.holidays (toISODate now) = true ->
  Dashboard.marketStatus (Dashboard.detectMarketStatus utcOffsetMinutes now) = "HOLIDAY"%string.
Proof.
  intros H. unfold Dashboard.detectMarketStatus. rewrite H. reflexivity.
Qed.

(** C6: a date on the holiday list is to force a closed result.  Monday
    2026-01-26 is on the list the dashboard page checks, and at 10:00 in
    Kolkata that page stores HOLIDAY; [isMarketOpen] has no holiday list and
    answers [true]. *)
Theorem isMarketOpen_on_listed_holiday :
  toKolkata 1769401800000 = {| getHours := 10; getMinutes := 0; getDay := 1 |} /\
  toISODate 1769401800000 = (2026, 1, 26) /\
  Dashboard.includes Dashboard.holidays (toISODate 1769401800000) = true /\
  Dashboard.marketStatus (Dashboard.detectMarketStatus 330 1769401800000) = "HOLIDAY"%string /\
  isMarketOpen 1769401800000 = true.
Proof. repeat split. Qed.

(** On a weekday the status depends on the minute of the day alone; every
    minute of the hour from 15:00 is CLOSING. *)
Lemma getMarketStatusAt_weekday (istTime : Date) :
  1 <= getDay istTime <= 5 ->
  0 <= getMinutes istTime < 60 ->
  status (getMarketStatusAt istTime) =
  let t := getHours istTime * 60 + getMinutes istTime in
  if t <? 9 * 60 + 15 then "PRE_MARKET"%string
  else if t <? 12 * 60 then "OPENING"%string
  else if t <? 15 * 60 then "MID_DAY"%string
  else if t <? 16 * 60 then "CLOSING"%string
  else "CLOSED"%string.
Proof.
  intros Hd Hm. unfold getMarketStatusAt. cbv zeta.
  set (h := getHours istTime) in *. set (m := getMinutes istTime) in *.
  set (d := getDay istTime) in *.
  assert (Hcases : h < 9 \/ (h = 9 /\ m < 15) \/ (h = 9 /\ 15 <= m)
                  \/ 10 <= h < 12 \/ 12 <= h < 15 \/ h = 15 \/ 16 <= h) by lia.
  destruct Hcases as [H | [H | [H | [H | [H | [H | H]]]]]]; decide_tests;
    rewrite ?andb_false_l, ?andb_true_l, ?orb_true_r; reflexivity.
Qed.

(** From 15:31 to 15:59 on a weekday the status is CLOSING although
    [isMarketOpen] is already [false]. *)
Lemma getMarketStatusAt_late_closing (istTime : Date) :
  1 <= getDay istTime <= 5 ->
  getHours istTime = 15 -> 30 < getMinutes istTime < 60 ->
  status (getMarketStatusAt istTime) = "CLOSING"%string /\
  isMarketOpenAt istTime = false.
Proof.
  intros Hd Hh Hm. split.
  - rewrite getMarketStatusAt_weekday by lia. cbv zeta. rewrite Hh.
    decide_tests. reflexivity.
  - apply not_true_is_false. rewrite isMarketOpenAt_iff. lia.
Qed.

(** C7: CLOSING is to end at 15:30, and later weekday times are CLOSED.  At
    15:45 on Tuesday 2026-11-03 the status is CLOSING, under a label that
    reads 3:00-3:30 PM, while [isMarketOpen] answers [false]. *)
Theorem getMarketStatus_after_half_past_three :
  toKolkata 1793700900000 = {| getHours := 15; getMinutes := 45; getDay := 2 |} /\
  getMarketStatus 1793700900000 =
  {| status := "CLOSING"; label := "Closing Session (3:00-3:30 PM)"; color := "bg-red-100" |} /\
  isMarketOpen 1793700900000 = false.
Proof. repeat split. Qed.

End SessionClock.

(** ** Position sizing *)

Section PositionSizer.

Import riskManagement.
Local Open Scope float_scope.

(** [===] on a truthy number is equality. *)
Lemma eqb_truthy_eq (x y : float) :
  truthy x = true -> (x =? y) = true -> x = y.
Proof.
  rewrite truthy_Prim2SF, FloatAxioms.eqb_spec. intros Hx He.
  apply Prim2SF_inj. revert Hx He.
  destruct (Prim2SF x) as [sx | sx | | sx mx ex]; try discriminate; intros _;
    (destruct (Prim2SF y) as [sy | sy | | sy my ey]; intros He).
  - destruct sx; discriminate.
  - destruct sx, sy; (reflexivity || discriminate).
  - destruct sx; discriminate.
  - destruct sx; discriminate.
  - destruct sx; discriminate.
  - destruct sy; discriminate.
  - discriminate.
  - unfold SFeqb in He.
    destruct sx, sy; try discriminate; rewrite SFcompare_finite in He;
      destruct (Z.compare_spec ex ey) as [-> | ? | ?]; try discriminate;
      destruct (Pos.compare_spec mx my) as [-> | ? | ?]; try discriminate;
      reflexivity.
Qed.

Lemma sub_infinite (x : float) :
  truthy x = true -> is_finite x = false -> (Math_abs (x - x) =? 0) = false.
Proof.
  rewrite truthy_Prim2SF, is_finite_Prim2SF, is_zero_Prim2SF. unfold Math_abs.
  rewrite abs_spec, sub_spec.
  destruct (Prim2SF x) as [[] | [] | | s m e]; try discriminate; reflexivity.
Qed.

Lemma calculatePositionSize_falsy (capital entryPrice stopLoss : float) :
  truthy capital && truthy entryPrice && truthy stopLoss = false ->
  calculatePositionSize capital entryPrice stopLoss = 0.
Proof.
  unfold calculatePositionSize. intros H.
  destruct (truthy capital), (truthy entryPrice), (truthy stopLoss);
    try discriminate; reflexivity.
Qed.

Lemma calculatePositionSize_truthy (capital entryPrice stopLoss : float) :
  truthy capital && truthy entryPrice && truthy stopLoss = true ->
  calculatePositionSize capital entryPrice stopLoss =
  if Math_abs (entryPrice - stopLoss) =? 0 then 0
  else Math_floor (capital * 0.01 / Math_abs (entryPrice - stopLoss)).
Proof.
  unfold calculatePositionSize. intros H.
  destruct (truthy capital), (truthy entryPrice), (truthy stopLoss);
    try discriminate; reflexivity.
Qed.

(** C3, the claim as worded fails: two equal prices that are both
    [Infinity] pass the guards, their distance is [NaN], and the result is
    [NaN], not [0]. *)
Lemma calculatePositionSize_equal_infinite_prices :
  truthy 1 = true /\ truthy infinity = true /\
  (infinity =? infinity) = true /\
  is_nan (calculatePositionSize 1 infinity infinity) = true /\
  (calculatePositionSize 1 infinity infinity =? 0) = false.
Proof. repeat split. Qed.

(** C3, amended: the size is [0] when an input is falsy or the two prices
    are equal and finite; for every other input it is the floor of
    [(capital * 0.01) / |entryPrice - stopLoss|]. *)
Theorem calculatePositionSize_cases (capital entryPrice stopLoss : float) :
  (truthy capital && truthy entryPrice && truthy stopLoss = false ->
   calculatePositionSize capital entryPrice stopLoss = 0)
  /\ ((entryPrice =? stopLoss) && is_finite entryPrice = true ->
      calculatePositionSize capital entryPrice stopLoss = 0)
  /\ (truthy capital && truthy entryPrice && truthy stopLoss = true ->
      (entryPrice =? stopLoss) && is_finite entryPrice = false ->
      calculatePositionSize capital entryPrice stopLoss =
      Math_floor (capital * 0.01 / Math_abs (entryPrice - stopLoss))).
Proof.
  split; [apply calculatePositionSize_falsy | split].
  - intros H. apply andb_prop in H as [Heq Hfin].
    destruct (truthy capital && truthy entryPrice && truthy stopLoss) eqn:Ht.
    + rewrite calculatePositionSize_truthy by assumption.
      assert (He : truthy entryPrice = true).
      { destruct (truthy capital), (truthy entryPrice); (reflexivity || discriminate). }
      rewrite <- (eqb_truthy_eq _ _ He Heq).
      rewrite sub_diag_finite by assumption. reflexivity.
    + apply calculatePositionSize_falsy. assumption.
  - intros Ht Hne. rewrite calculatePositionSize_truthy by assumption.
    assert (He : truthy entryPrice = true /\ truthy stopLoss = true).
    { destruct (truthy capital), (truthy entryPrice), (truthy stopLoss);
        (split; reflexivity) || discriminate. }
    destruct He as [He Hs].
    destruct (entryPrice =? stopLoss) eqn:Heq.
    + cbn [andb] in Hne.
      rewrite <- (eqb_truthy_eq _ _ He Heq).
      rewrite sub_infinite by assumption. reflexivity.
    + rewrite sub_nonzero; auto using truthy_not_nan.
Qed.

(** For capital 100000, entry 100 and stop 98 the size is 500. *)
Lemma calculatePositionSize_cases_witness :
  truthy 100000 && truthy 100 && truthy 98 = true /\
  (100 =? 98) && is_finite 100 = false /\
  calculatePositionSize 100000 100 98 = 500.
Proof.
  split; [reflexivity | split; [reflexivity | ]].
  exact (proj2 (proj2 (calculatePositionSize_cases 100000 100 98)) eq_refl eq_refl).
Defined.

(** C8, the claim as worded fails, in four ways.  With capital 811104,
    entry 390.32 and stop 361.76 the size is 284, and 284 times the
    distance 28.560000000000002 is 8111.040000000001, above the budget
    8111.04 by exactly one unit in the last place of the budget.  A [NaN]
    entry price is not zero and differs from the stop 1: the size is 0, the
    distance [NaN], and the product [NaN] is not at most the budget.  With
    the entry price [Infinity] the distance is infinite, the size 0 and the
    product again [NaN].  With capital 1e300 and the prices 2e-300 and
    1e-300 the distance is finite, and the size and the product are
    [Infinity], above the budget 1e298. *)
Lemma position_times_distance_exceeds_budget :
  ((0 <? 811104) = true /\ (390.32 =? 0) = false /\ (361.76 =? 0) = false /\
   (390.32 =? 361.76) = false /\
   811104 * 0.01 = 8111.04 /\
   Math_abs (390.32 - 361.76) = 28.560000000000002 /\
   8111.04 / 28.560000000000002 = 284 /\
   calculatePositionSize 811104 390.32 361.76 = 284 /\
   284 * 28.560000000000002 = 8111.040000000001 /\
   (calculatePositionSize 811104 390.32 361.76 * Math_abs (390.32 - 361.76)
    <=? 811104 * 0.01) = false /\
   units (calculatePositionSize 811104 390.32 361.76 * Math_abs (390.32 - 361.76)) =
   (units (811104 * 0.01) + lastPlace (811104 * 0.01))%Z) /\
  ((0 <? 1) = true /\ (nan =? 0) = false /\ (1 =? 0) = false /\ (nan =? 1) = false /\
   calculatePositionSize 1 nan 1 = 0 /\
   is_nan (Math_abs (nan - 1)) = true /\
   is_nan (calculatePositionSize 1 nan 1 * Math_abs (nan - 1)) = true /\
   (calculatePositionSize 1 nan 1 * Math_abs (nan - 1) <=? 1 * 0.01) = false) /\
  ((infinity =? 0) = false /\ (infinity =? 1) = false /\
   Math_abs (infinity - 1) = infinity /\
   calculatePositionSize 1 infinity 1 = 0 /\
   is_nan (calculatePositionSize 1 infinity 1 * Math_abs (infinity - 1)) = true /\
   (calculatePositionSize 1 infinity 1 * Math_abs (infinity - 1) <=? 1 * 0.01) = false) /\
  ((0 <? 1e300) = true /\ (2e-300 =? 0) = false /\ (1e-300 =? 0) = false /\
   (2e-300 =? 1e-300) = false /\
   is_finite (Math_abs (2e-300 - 1e-300)) = true /\
   calculatePositionSize 1e300 2e-300 1e-300 = infinity /\
   calculatePositionSize 1e300 2e-300 1e-300 * Math_abs (2e-300 - 1e-300) = infinity /\
   (calculatePositionSize 1e300 2e-300 1e-300 * Math_abs (2e-300 - 1e-300)
    <=? 1e300 * 0.01) = false).
Proof. repeat split. Qed.

(** C10, the claim as worded fails.  For the capital [-5e-324], the
    negative number nearest zero, the budget [capital * 0.01] rounds to [-0]
    and the size is [-0], which is not below zero.  A [NaN] entry price is
    not zero and differs from the stop, and the guard returns [0].  For the
    capital [-Infinity] the size is [NaN] when the entry price is
    [Infinity], and [-Infinity], which is no integer, when the prices are 2
    and 1. *)
Lemma negative_capital_zero_position :
  ((-5e-324 <? 0) = true /\ truthy 2 = true /\ truthy 1 = true /\
   (2 =? 1) = false /\
   -5e-324 * 0.01 = -0 /\
   calculatePositionSize (-5e-324) 2 1 = -0 /\
   (calculatePositionSize (-5e-324) 2 1 <? 0) = false) /\
  ((-1000 <? 0) = true /\ (nan =? 0) = false /\ (98 =? 0) = false /\
   (nan =? 98) = false /\
   calculatePositionSize (-1000) nan 98 = 0) /\
  ((neg_infinity <? 0) = true /\ truthy infinity = true /\ truthy 1 = true /\
   (infinity =? 1) = false /\
   is_nan (calculatePositionSize neg_infinity infinity 1) = true) /\
  ((neg_infinity <? 0) = true /\ truthy 2 = true /\ truthy 1 = true /\
   (2 =? 1) = false /\
   calculatePositionSize neg_infinity 2 1 = neg_infinity).
Proof. repeat split. Qed.

(** C10, amended: for a negative capital and two different prices that are
    neither zero nor [NaN], the guards do not fire and the size is the floor
    of the quotient [(capital * 0.01) / |entryPrice - stopLoss|].  When the
    quotient is below zero the size is not above [-1] and is its own floor
    (a negative integer, or [-Infinity]); otherwise the quotient is [-0] or
    [NaN], and so is the size. *)
Theorem negative_capital_negative_position (capital entryPrice stopLoss : float) :
  (capital <? 0) = true ->
  truthy entryPrice = true -> truthy stopLoss = true ->
  (entryPrice =? stopLoss) = false ->
  let quotient := capital * 0.01 / Math_abs (entryPrice - stopLoss) in
  let position := calculatePositionSize capital entryPrice stopLoss in
  position = Math_floor quotient /\
  ((quotient <? 0) = true ->
   (position <=? -1) = true /\ Math_floor position = position) /\
  ((quotient <? 0) = false ->
   (quotient = -0 /\ position = -0) \/
   (is_nan quotient = true /\ is_nan position = true)).
Proof.
  intros Hc He Hs Hne quotient position.
  assert (Hp : position = Math_floor quotient).
  { subst position quotient.
    rewrite calculatePositionSize_truthy
      by (rewrite (negative_truthy _ Hc), He, Hs; reflexivity).
    rewrite sub_nonzero by auto using truthy_not_nan. reflexivity. }
  split; [exact Hp | ]. rewrite Hp. split.
  - intros Hq. split; [apply Math_floor_negative; exact Hq | apply Math_floor_idempotent].
  - intros Hq.
    assert (Hsign : signed_or_nan true (Prim2SF quotient)).
    { subst quotient. rewrite div_spec. change true with (xorb true false).
      apply SFdiv_sign.
      - rewrite mul_spec. change true with (xorb true false).
        apply SFmul_sign; [ | vm_compute; reflexivity].
        rewrite ltb_zero_Prim2SF in Hc.
        destruct (Prim2SF capital) as [[] | [] | | [] m e]; cbn; congruence.
      - unfold Math_abs. rewrite abs_spec. apply SFabs_sign. }
    rewrite ltb_zero_Prim2SF in Hq.
    destruct (Prim2SF quotient) as [sq | sq | | sq mq eq] eqn:E;
      cbn [signed_or_nan] in Hsign; subst; try discriminate Hq.
    + left.
      assert (Hz : quotient = -0).
      { apply Prim2SF_inj. rewrite E. reflexivity. }
      rewrite Hz. split; reflexivity.
    + right. rewrite !is_nan_Prim2SF, Prim2SF_Math_floor, E. split; reflexivity.
Qed.

Lemma negative_capital_negative_position_witness :
  (-1000 <? 0) = true /\ truthy 100 = true /\ truthy 98 = true /\
  (100 =? 98) = false /\
  (-1000 * 0.01 / Math_abs (100 - 98) <? 0) = true /\
  calculatePositionSize (-1000) 100 98 = -5 /\
  ((calculatePositionSize (-1000) 100 98 <=? -1) = true /\
   Math_floor (calculatePositionSize (-1000) 100 98) = calculatePositionSize (-1000) 100 98).
Proof.
  do 6 (split; [reflexivity | ]).
  exact (proj1 (proj2 (negative_capital_negative_position (-1000) 100 98
                         eq_refl eq_refl eq_refl eq_refl)) eq_refl).
Defined.

End PositionSizer.

(** ** P&L scenarios *)

Section PnLScenarios.

Import riskManagement.
Local Open Scope float_scope.

Lemma forEachTarget_keptTargets (position entryPrice : float) (targets : list value) :
  forall idx,
  forEachTarget position entryPrice targets idx =
  map (fun it => targetScenario position entryPrice (ToNumber (snd it)) (fst it))
    (keptTargets entryPrice targets idx).
Proof.
  unfold keptTargets.
  induction targets as [ | target rest IH]; intros idx; [reflexivity | ].
  cbn [forEachTarget List.length seq combine filter snd]. fold (qualifies entryPrice target).
  rewrite IH. destruct (qualifies entryPrice target); reflexivity.
Qed.

(** Every scenario built from a target has type profit. *)
Lemma profitScenarios_type (position entryPrice : float) (targets : list value) :
  Forall (fun s => Scenario.type s = "profit"%string)
    (profitScenarios position entryPrice targets).
Proof.
  unfold profitScenarios. apply Forall_forall. intros s Hs.
  apply in_map_iff in Hs as (it & <- & _). reflexivity.
Qed.

(** Above a positive entry price every target is a non-zero number. *)
Lemma qualifies_positive_entry (entryPrice : float) (target : value) :
  (0 <? entryPrice) = true ->
  qualifies entryPrice target = gtb (ToNumber target) entryPrice.
Proof.
  unfold qualifies, gtb. rewrite zero_ltb_Prim2SF. intros He.
  destruct target as [ | | x]; cbn [ToBoolean ToNumber andb].
  - rewrite FloatAxioms.ltb_spec. change (Prim2SF nan) with S754_nan.
    destruct (Prim2SF entryPrice) as [[] | [] | | [] m e]; reflexivity.
  - rewrite ltb_zero_Prim2SF.
    destruct (Prim2SF entryPrice) as [[] | [] | | [] m e]; (reflexivity || discriminate).
  - rewrite truthy_Prim2SF, FloatAxioms.ltb_spec.
    destruct (Prim2SF entryPrice) as [[] | [] | | [] m e]; try discriminate;
      destruct (Prim2SF x) as [[] | [] | | [] m' e']; reflexivity.
Qed.

Lemma calculatePnL_with_quantity
    (capital entryPrice : float) (targets : option (list value))
    (stopLoss quantity : float) :
  truthy capital = true -> truthy entryPrice = true ->
  truthy stopLoss = true -> truthy quantity = true ->
  calculatePnL capital entryPrice targets stopLoss (Num quantity) =
  let maxRisk := capital * 0.01 in
  let riskAmount := Math_abs (quantity * (entryPrice - stopLoss)) in
  let riskPercent := riskAmount / capital * 100 in
  if gtb riskAmount (maxRisk * 1.1)
  then Return (PnLInvalid "RISK_TOO_HIGH" (riskTooHighMessage riskAmount riskPercent maxRisk))
  else Return (PnLValid
         {| RiskAssessment.capital := capital;
            RiskAssessment.position := quantity;
            RiskAssessment.entryPrice := entryPrice;
            RiskAssessment.stopLoss := stopLoss;
            RiskAssessment.maxRisk := maxRisk;
            RiskAssessment.riskAmount := riskAmount;
            RiskAssessment.riskPercent := riskPercent;
            RiskAssessment.scenarios :=
              stopLossScenario quantity entryPrice stopLoss
              :: match targets with
                 | Some targets => forEachTarget quantity entryPrice targets 0
                 | None => []
                 end |}).
Proof.
  intros Hc He Hs Hq. unfold calculatePnL.
  rewrite Hc, He, Hs. cbn [negb orb ToBoolean]. rewrite Hq. reflexivity.
Qed.

(** C1: without a quantity the position is to come from
    [calculatePositionSize] and the result to be valid with position 500.
    The arrow function reads [this.calculatePositionSize] on an undefined
    [this], so the call throws a TypeError. *)
Theorem calculatePnL_without_quantity_throws :
  calculatePnL 100000 100 (Some [Num 106]) 98 Undefined =
  Throw (TypeError "Cannot read properties of undefined (reading 'calculatePositionSize')").
Proof. reflexivity. Qed.

(** The same happens for every falsy quantity once the three guards pass. *)
Lemma calculatePnL_falsy_quantity_throws
    (capital entryPrice : float) (targets : option (list value))
    (stopLoss : float) (quantity : value) :
  truthy capital = true -> truthy entryPrice = true -> truthy stopLoss = true ->
  ToBoolean quantity = false ->
  calculatePnL capital entryPrice targets stopLoss quantity =
  Throw (TypeError "Cannot read properties of undefined (reading 'calculatePositionSize')").
Proof.
  intros Hc He Hs Hq. unfold calculatePnL. rewrite Hc, He, Hs. cbn [negb orb].
  destruct quantity as [ | | q]; cbn [ToBoolean] in Hq |- *;
    [reflexivity | reflexivity | rewrite Hq; reflexivity].
Qed.

(** Handing the computed size over as the quantity gives the assessment the
    specification describes. *)
Example calculatePnL_with_computed_size :
  calculatePnL 100000 100 (Some [Num 106]) 98
    (Num (calculatePositionSize 100000 100 98)) =
  Return (PnLValid
    {| RiskAssessment.capital := 100000;
       RiskAssessment.position := 500;
       RiskAssessment.entryPrice := 100;
       RiskAssessment.stopLoss := 98;
       RiskAssessment.maxRisk := 1000;
       RiskAssessment.riskAmount := 1000;
       RiskAssessment.riskPercent := 1;
       RiskAssessment.scenarios :=
         [ {| Scenario.name := "Worst Case (Stop Loss)";
              Scenario.price := 98;
              Scenario.quantity := 500;
              Scenario.totalValue := 49000;
              Scenario.pnl := -1000;
              Scenario.pnlPercent := -2;
              Scenario.type := "loss" |};
           {| Scenario.name := "Target 1";
              Scenario.price := 106;
              Scenario.quantity := 500;
              Scenario.totalValue := 53000;
              Scenario.pnl := 3000;
              Scenario.pnlPercent := 6;
              Scenario.type := "profit" |} ] |}).
Proof. reflexivity. Qed.

(** C2, the claim as worded fails: [NaN] is a supplied quantity that is
    not zero.  The gate's test is false for it, and instead of a result
    with [valid: true] the call throws, since a [NaN] quantity is falsy and
    the position is read from [this]. *)
Lemma calculatePnL_nan_quantity_throws :
  truthy 100000 = true /\ truthy 100 = true /\ truthy 98 = true /\
  (nan =? 0) = false /\
  gtb (Math_abs (nan * (100 - 98))) (100000 * 0.01 * 1.1) = false /\
  calculatePnL 100000 100 (Some [Num 106]) 98 (Num nan) =
  Throw (TypeError "Cannot read properties of undefined (reading 'calculatePositionSize')").
Proof. repeat split. Qed.

(** C2, amended: with capital, prices and quantity that are neither zero
    nor [NaN], the result is the RISK_TOO_HIGH error object, which carries
    a message and no scenarios, exactly when
    [|quantity * (entryPrice - stopLoss)|] exceeds [capital * 0.01 * 1.1];
    otherwise it is an assessment with [valid: true]. *)
Theorem calculatePnL_risk_gate
    (capital entryPrice : float) (targets : option (list value))
    (stopLoss quantity : float) :
  truthy capital = true -> truthy entryPrice = true ->
  truthy stopLoss = true -> truthy quantity = true ->
  let riskAmount := Math_abs (quantity * (entryPrice - stopLoss)) in
  let riskPercent := riskAmount / capital * 100 in
  let maxRisk := capital * 0.01 in
  if gtb riskAmount (maxRisk * 1.1)
  then calculatePnL capital entryPrice targets stopLoss (Num quantity) =
       Return (PnLInvalid "RISK_TOO_HIGH"
                 (riskTooHighMessage riskAmount riskPercent maxRisk))
  else exists result,
       calculatePnL capital entryPrice targets stopLoss (Num quantity) = Return result /\
       valid result = Some true.
Proof.
  intros Hc He Hs Hq. cbv zeta.
  rewrite (calculatePnL_with_quantity _ _ targets _ _ Hc He Hs Hq). cbv zeta.
  destruct (gtb _ _); [reflexivity | ].
  eexists. split; reflexivity.
Qed.

(** A quantity of 5000 risks 10000 against a tolerated 1100. *)
Lemma calculatePnL_risk_gate_witness :
  truthy 100000 = true /\ truthy 100 = true /\ truthy 98 = true /\
  truthy 5000 = true /\
  Math_abs (5000 * (100 - 98)) = 10000 /\ 100000 * 0.01 * 1.1 = 1100 /\
  calculatePnL 100000 100 (Some [Num 106]) 98 (Num 5000) =
  Return (PnLInvalid "RISK_TOO_HIGH" (riskTooHighMessage 10000 10 1000)).
Proof.
  do 6 (split; [reflexivity | ]).
  exact (calculatePnL_risk_gate 100000 100 (Some [Num 106]) 98 5000
           eq_refl eq_refl eq_refl eq_refl).
Defined.

(** C4, the claim as worded fails.  With targets 95 and 110 around the
    entry price 100 the only profit scenario is labelled Target 2, after
    the position of 110 in the input, not Target 1.  With the entry price
    -100 the target 0 is strictly greater and yet contributes no scenario.
    With the entry price 0 and a quantity of 5 within the tolerated risk
    the result is [null], without any scenario list. *)
Lemma scenario_label_is_input_position :
  (exists assessment,
     calculatePnL 100000 100 (Some [Num 95; Num 110]) 98 (Num 500) =
       Return (PnLValid assessment) /\
     map Scenario.name (RiskAssessment.scenarios assessment) =
       ["Worst Case (Stop Loss)"; "Target 2"]%string /\
     map Scenario.name (claimedScenarios 500 100 98 [Num 95; Num 110]) =
       ["Worst Case (Stop Loss)"; "Target 1"]%string /\
     RiskAssessment.scenarios assessment <> claimedScenarios 500 100 98 [Num 95; Num 110]) /\
  (gtb 0 (-100) = true /\
   gtb (Math_abs (5 * (-100 - -102))) (100000 * 0.01 * 1.1) = false /\
   exists assessment,
     calculatePnL 100000 (-100) (Some [Num 0]) (-102) (Num 5) =
       Return (PnLValid assessment) /\
     map Scenario.name (RiskAssessment.scenarios assessment) =
       ["Worst Case (Stop Loss)"]%string /\
     map Scenario.name (claimedScenarios 5 (-100) (-102) [Num 0]) =
       ["Worst Case (Stop Loss)"; "Target 1"]%string) /\
  ((5 =? 0) = false /\
   gtb (Math_abs (5 * (0 - 98))) (100000 * 0.01 * 1.1) = false /\
   calculatePnL 100000 0 (Some [Num 5]) 98 (Num 5) = Return PnLNull).
Proof.
  split; [ | split].
  - eexists. split; [reflexivity | ]. split; [reflexivity | ]. split; [reflexivity | ].
    intros H. apply (f_equal (map Scenario.name)) in H. discriminate H.
  - split; [reflexivity | ]. split; [reflexivity | ].
    eexists. split; [reflexivity | ]. split; reflexivity.
  - repeat split.
Qed.

(** The loop pushes one scenario per counted target, named after the
    position of the target. *)
Lemma forEachTarget_countedTargets (position entryPrice : float) (targets : list value) :
  forall idx,
  forEachTarget position entryPrice targets idx =
  map (fun it : nat * float =>
         {| Scenario.name := "Target " ++ decimal (fst it);
            Scenario.price := snd it;
            Scenario.quantity := position;
            Scenario.totalValue := position * snd it;
            Scenario.pnl := position * (snd it - entryPrice);
            Scenario.pnlPercent := (snd it - entryPrice) / entryPrice * 100;
            Scenario.type := "profit" |})
    (flat_map
       (fun it : nat * value =>
          match snd it with
          | Num target =>
              if negb (is_zero target) && negb (is_nan target) && gtb target entryPrice
              then [(fst it, target)]
              else []
          | Undefined | Null => []
          end)
       (combine (seq (S idx) (List.length targets)) targets)).
Proof.
  induction targets as [ | target rest IH]; intros idx; [reflexivity | ].
  cbn [forEachTarget List.length seq combine flat_map fst snd]. cbv zeta.
  rewrite map_app, <- IH.
  destruct target as [ | | x]; cbn [ToBoolean ToNumber andb app map]; try reflexivity.
  unfold truthy. rewrite negb_orb.
  destruct (negb (is_zero x) && negb (is_nan x) && gtb x entryPrice); [ | reflexivity].
  cbn [map app fst snd]. unfold targetScenario. rewrite Nat.add_1_r. reflexivity.
Qed.

(** C4, amended: for capital, prices and a supplied quantity that are
    neither zero nor [NaN], and a risk that is not above the tolerated
    bound, the scenario list is the stop-loss scenario followed by one
    profit scenario per target that is a number, neither zero nor [NaN],
    strictly greater than the entry price, in input order, each named
    Target i for the 1-based position i of its target in the input array;
    the other targets contribute nothing. *)
Theorem calculatePnL_scenarios
    (capital entryPrice : float) (targets : list value) (stopLoss quantity : float) :
  truthy capital = true -> truthy entryPrice = true ->
  truthy stopLoss = true -> truthy quantity = true ->
  gtb (Math_abs (quantity * (entryPrice - stopLoss))) (capital * 0.01 * 1.1) = false ->
  exists assessment,
    calculatePnL capital entryPrice (Some targets) stopLoss (Num quantity) =
      Return (PnLValid assessment) /\
    RiskAssessment.scenarios assessment =
      {| Scenario.name := "Worst Case (Stop Loss)";
         Scenario.price := stopLoss;
         Scenario.quantity := quantity;
         Scenario.totalValue := quantity * stopLoss;
         Scenario.pnl := quantity * (stopLoss - entryPrice);
         Scenario.pnlPercent := (stopLoss - entryPrice) / entryPrice * 100;
         Scenario.type := "loss" |}
      :: map (fun it : nat * float =>
                {| Scenario.name := "Target " ++ decimal (fst it);
                   Scenario.price := snd it;
                   Scenario.quantity := quantity;
                   Scenario.totalValue := quantity * snd it;
                   Scenario.pnl := quantity * (snd it - entryPrice);
                   Scenario.pnlPercent := (snd it - entryPrice) / entryPrice * 100;
                   Scenario.type := "profit" |})
           (countedTargets entryPrice targets).
Proof.
  intros Hc He Hs Hq Hrisk.
  rewrite (calculatePnL_with_quantity _ _ (Some targets) _ _ Hc He Hs Hq). cbv zeta.
  rewrite Hrisk. eexists. split; [reflexivity | ].
  cbn [RiskAssessment.scenarios]. rewrite forEachTarget_countedTargets. reflexivity.
Qed.

Lemma calculatePnL_scenarios_witness :
  truthy 100000 = true /\ truthy 100 = true /\ truthy 98 = true /\
  truthy 500 = true /\
  gtb (Math_abs (500 * (100 - 98))) (100000 * 0.01 * 1.1) = false /\
  countedTargets 100 [Num 95; Num 110; Undefined; Num 120] = [(2%nat, 110); (4%nat, 120)] /\
  exists assessment,
    calculatePnL 100000 100 (Some [Num 95; Num 110; Undefined; Num 120]) 98 (Num 500) =
      Return (PnLValid assessment) /\
    RiskAssessment.scenarios assessment =
      [ {| Scenario.name := "Worst Case (Stop Loss)";
           Scenario.price := 98;
           Scenario.quantity := 500;
           Scenario.totalValue := 49000;
           Scenario.pnl := -1000;
           Scenario.pnlPercent := -2;
           Scenario.type := "loss" |};
        {| Scenario.name := "Target 2";
           Scenario.price := 110;
           Scenario.quantity := 500;
           Scenario.totalValue := 55000;
           Scenario.pnl := 5000;
           Scenario.pnlPercent := 10;
           Scenario.type := "profit" |};
        {| Scenario.name := "Target 4";
           Scenario.price := 120;
           Scenario.quantity := 500;
           Scenario.totalValue := 60000;
           Scenario.pnl := 10000;
           Scenario.pnlPercent := 20;
           Scenario.type := "profit" |} ].
Proof.
  do 6 (split; [reflexivity | ]).
  exact (calculatePnL_scenarios 100000 100 [Num 95; Num 110; Undefined; Num 120] 98 500
           eq_refl eq_refl eq_refl eq_refl eq_refl).
Defined.

End PnLScenarios.

(** ** Risk advice *)

Section RiskAdvisor.

Import riskManagement.
Local Open Scope float_scope.

(** C5: the advice is to come back without an exception, with the
    low-reward warning for a first target of 100.5.  With a truthy first
    target the arrow function reads [this.calculateRiskReward] on an
    undefined [this], so the call throws a TypeError. *)
Theorem assessRisk_with_first_target_throws :
  assessRisk 100000 100 90 (Some [Num 100.5]) =
  Throw (TypeError "Cannot read properties of undefined (reading 'calculateRiskReward')").
Proof. reflexivity. Qed.

(** The same happens for every truthy first target. *)
Lemma assessRisk_truthy_first_target_throws
    (capital entryPrice stopLoss : float) (target : value) (rest : list value) :
  ToBoolean target = true ->
  assessRisk capital entryPrice stopLoss (Some (target :: rest)) =
  Throw (TypeError "Cannot read properties of undefined (reading 'calculateRiskReward')").
Proof.
  intros Ht. unfold assessRisk. cbn [index0]. rewrite Ht.
  destruct (gtb _ 5), (_ <? 0.5); reflexivity.
Qed.

(** Called directly, the sibling function answers: a reward of 0.5 against a
    risk of 10 is the ratio 0.05, rendered with two decimals. *)
Example calculateRiskReward_low_reward :
  calculateRiskReward 100 100.5 90 = RRString [ToFixed 0.05 2] /\
  (0.05 <? 1) = true.
Proof. split; reflexivity. Qed.

(** Without a truthy first target the two distance warnings are given
    exactly as the specification says. *)
Lemma assessRisk_without_first_target
    (capital entryPrice stopLoss : float) (targets : option (list value)) :
  match targets with
  | Some targets => ToBoolean (index0 targets) = false
  | None => True
  end ->
  exists advice,
    assessRisk capital entryPrice stopLoss targets = Return advice /\
    (In highRiskWarning (warnings advice) <->
     gtb (stopDistancePercent entryPrice stopLoss) 5 = true) /\
    (In tightStopWarning (warnings advice) <->
     (stopDistancePercent entryPrice stopLoss <? 0.5) = true).
Proof.
  intros Ht. unfold assessRisk, stopDistancePercent.
  assert (Hno : match targets with
                | Some _ => ToBoolean match targets with
                                      | Some a => index0 a
                                      | None => Undefined
                                      end
                | None => false
                end = false)
    by (destruct targets; [exact Ht | reflexivity]).
  destruct (gtb _ 5), (_ <? 0.5); cbv zeta beta iota; rewrite Hno;
    eexists; (split; [reflexivity | ]); cbn [warnings app In];
    unfold highRiskWarning, tightStopWarning;
    split; split; intros H; try reflexivity; try discriminate;
    try (left; reflexivity); try (right; left; reflexivity);
    repeat (destruct H as [H | H]; try discriminate H); try contradiction.
Qed.

Example assessRisk_wide_stop :
  stopDistancePercent 100 90 = 10 /\
  assessRisk 100000 100 90 None =
  Return {| warnings := [highRiskWarning];
            recommendations :=
              [[Text "Consider tightening stop loss or reducing position size"]] |}.
Proof. split; reflexivity. Qed.

Example assessRisk_tight_stop :
  (stopDistancePercent 100 99.7 <? 0.5) = true /\
  assessRisk 100000 100 99.7 None =
  Return {| warnings := [tightStopWarning];
            recommendations :=
              [[Text "May get stopped out too easily - consider widening"]] |}.
Proof. split; reflexivity. Qed.

End RiskAdvisor.

(** ** Win probability *)

Section WinProbability.

Import riskManagement.
Local Open Scope Z_scope.

(** C9: the estimate is the base 50 plus the three adjustments, clamped to
    [20, 80]; it always lies in that range, and for an RSI of 25 with
    rising volume in an uptrend the sum 83 is clamped to 80. *)
Theorem estimateWinProbability_clamped (rsi : float) (volumeTrend trend : string) :
  estimateWinProbability rsi volumeTrend trend =
    ofZ (claimedProbability rsi volumeTrend trend)
  /\ (20 <= claimedProbability rsi volumeTrend trend <= 80)%Z
  /\ (20 <=? estimateWinProbability rsi volumeTrend trend)%float = true
  /\ (estimateWinProbability rsi volumeTrend trend <=? 80)%float = true
  /\ claimedSum 25 "INCREASING" "UPTREND" = 83
  /\ estimateWinProbability 25 "INCREASING" "UPTREND" = 80%float.
Proof.
  split; [ | split; [unfold claimedProbability, clamp; lia | ]].
  - unfold estimateWinProbability, claimedProbability, claimedSum, clamp, gtb.
    destruct (rsi <? 30)%float, (70 <? rsi)%float,
      (String.eqb trend "UPTREND"), (String.eqb trend "DOWNTREND"),
      (String.eqb volumeTrend "INCREASING"), (String.eqb volumeTrend "DECREASING");
      reflexivity.
  - unfold estimateWinProbability, gtb.
    destruct (rsi <? 30)%float, (70 <? rsi)%float,
      (String.eqb trend "UPTREND"), (String.eqb trend "DOWNTREND"),
      (String.eqb volumeTrend "INCREASING"), (String.eqb volumeTrend "DECREASING");
      repeat split.
Qed.

End WinProbability.

(** * The order of binary64 numbers *)

Section Order.

Local Open Scope Z_scope.

Lemma SFltb_key (x y : spec_float) :
  x <> S754_nan -> y <> S754_nan ->
  (SFltb x y = true <-> keyLt (SFkey x) (SFkey y)).
Proof.
  intros Hx Hy.
  destruct x as [sx | sx | | sx mx ex]; [ | | now elim Hx | ];
    (destruct y as [sy | sy | | sy my ey]; [ | | now elim Hy | ]);
    try (destruct sx); try (destruct sy);
    unfold SFltb; cbn [SFcompare SFkey keyLt];
    try (split; [discriminate | lia]);
    try (split; [lia | reflexivity]);
    fold (Pos.compare mx my);
    destruct (Z.compare_spec ex ey); destruct (Pos.compare_spec mx my);
    cbn [CompOpp]; split; intros Hgoal; try discriminate; try reflexivity; lia.
Qed.

Lemma SFleb_key (x y : spec_float) :
  x <> S754_nan -> y <> S754_nan ->
  (SFleb x y = true <-> keyLe (SFkey x) (SFkey y)).
Proof.
  intros Hx Hy.
  destruct x as [sx | sx | | sx mx ex]; [ | | now elim Hx | ];
    (destruct y as [sy | sy | | sy my ey]; [ | | now elim Hy | ]);
    try (destruct sx); try (destruct sy);
    unfold SFleb; cbn [SFcompare SFkey keyLe];
    try (split; [discriminate | lia]);
    try (split; [lia | reflexivity]);
    fold (Pos.compare mx my);
    destruct (Z.compare_spec ex ey); destruct (Pos.compare_spec mx my);
    cbn [CompOpp]; split; intros Hgoal; try discriminate; try reflexivity; lia.
Qed.

End Order.

Section FloatOrder.

Local Open Scope float_scope.

Lemma not_nan_Prim2SF (x : float) : is_nan x = false -> Prim2SF x <> S754_nan.
Proof. rewrite is_nan_Prim2SF. intros H E. rewrite E in H. discriminate. Qed.

Lemma ltb_key (x y : float) :
  is_nan x = false -> is_nan y = false ->
  ((x <? y) = true <-> keyLt (fkey x) (fkey y)).
Proof.
  intros Hx Hy. rewrite FloatAxioms.ltb_spec.
  apply SFltb_key; apply not_nan_Prim2SF; assumption.
Qed.

Lemma leb_key (x y : float) :
  is_nan x = false -> is_nan y = false ->
  ((x <=? y) = true <-> keyLe (fkey x) (fkey y)).
Proof.
  intros Hx Hy. rewrite FloatAxioms.leb_spec.
  apply SFleb_key; apply not_nan_Prim2SF; assumption.
Qed.

(** A comparison that holds has no [NaN] operand. *)
Lemma ltb_not_nan (x y : float) :
  (x <? y) = true -> is_nan x = false /\ is_nan y = false.
Proof.
  rewrite FloatAxioms.ltb_spec, !is_nan_Prim2SF.
  destruct (Prim2SF x), (Prim2SF y); try discriminate; split; reflexivity.
Qed.

Lemma leb_not_nan (x y : float) :
  (x <=? y) = true -> is_nan x = false /\ is_nan y = false.
Proof.
  rewrite FloatAxioms.leb_spec, !is_nan_Prim2SF.
  destruct (Prim2SF x), (Prim2SF y); try discriminate; split; reflexivity.
Qed.

Lemma ltb_false_key (x y : float) :
  is_nan x = false -> is_nan y = false ->
  ((x <? y) = false <-> keyLe (fkey y) (fkey x)).
Proof.
  intros Hx Hy. rewrite <- not_true_iff_false, (ltb_key x y Hx Hy).
  unfold keyLt, keyLe. destruct (fkey x) as [[c1 e1] m1], (fkey y) as [[c2 e2] m2]. lia.
Qed.

Lemma leb_refl (x : float) : is_nan x = false -> (x <=? x) = true.
Proof.
  intros Hx. apply (leb_key x x Hx Hx).
  unfold keyLe. destruct (fkey x) as [[c e] m]. lia.
Qed.

Lemma leb_trans (x y z : float) :
  (x <=? y) = true -> (y <=? z) = true -> (x <=? z) = true.
Proof.
  intros Hxy Hyz.
  destruct (leb_not_nan _ _ Hxy) as [Hx Hy]. destruct (leb_not_nan _ _ Hyz) as [_ Hz].
  rewrite leb_key in * by assumption. revert Hxy Hyz. unfold keyLe.
  destruct (fkey x) as [[c1 e1] m1], (fkey y) as [[c2 e2] m2], (fkey z) as [[c3 e3] m3].
  lia.
Qed.

Lemma ltb_leb (x y : float) : (x <? y) = true -> (x <=? y) = true.
Proof.
  intros H. destruct (ltb_not_nan _ _ H) as [Hx Hy].
  rewrite ltb_key in H by assumption. rewrite leb_key by assumption.
  revert H. unfold keyLt, keyLe.
  destruct (fkey x) as [[c1 e1] m1], (fkey y) as [[c2 e2] m2]. lia.
Qed.

Lemma ltb_trans (x y z : float) :
  (x <? y) = true -> (y <? z) = true -> (x <? z) = true.
Proof.
  intros Hxy Hyz.
  destruct (ltb_not_nan _ _ Hxy) as [Hx Hy]. destruct (ltb_not_nan _ _ Hyz) as [_ Hz].
  rewrite ltb_key in * by assumption. revert Hxy Hyz. unfold keyLt.
  destruct (fkey x) as [[c1 e1] m1], (fkey y) as [[c2 e2] m2], (fkey z) as [[c3 e3] m3].
  lia.
Qed.

Lemma ltb_irrefl (x : float) : (x <? x) = false.
Proof.
  destruct (x <? x) eqn:E; [ | reflexivity].
  destruct (ltb_not_nan _ _ E) as [Hx _].
  rewrite ltb_key in E by assumption. revert E. unfold keyLt.
  destruct (fkey x) as [[c e] m]. lia.
Qed.

Lemma ltb_eqb_false (x y : float) : (x <? y) = true -> (x =? y) = false.
Proof.
  rewrite FloatAxioms.ltb_spec, FloatAxioms.eqb_spec. unfold SFltb, SFeqb.
  destruct (SFcompare (Prim2SF x) (Prim2SF y)) as [[] | ]; congruence.
Qed.

(** The smaller of two numbers that are not [NaN]. *)
Lemma Math_min_spec (x y : float) :
  is_nan x = false -> is_nan y = false ->
  (Math_min x y = x \/ Math_min x y = y) /\
  (Math_min x y <=? x) = true /\ (Math_min x y <=? y) = true.
Proof.
  intros Hx Hy. unfold Math_min. rewrite Hx, Hy. cbn [orb].
  destruct (x <? y) eqn:Exy.
  - split; [left; reflexivity | split; [apply leb_refl; assumption | apply ltb_leb; assumption]].
  - destruct (y <? x) eqn:Eyx.
    + split; [right; reflexivity | split; [apply ltb_leb; assumption | apply leb_refl; assumption]].
    + rewrite ltb_false_key in Exy, Eyx by assumption.
      destruct (get_sign x).
      * split; [left; reflexivity | split; [apply leb_refl; assumption | ]].
        apply leb_key; assumption.
      * split; [right; reflexivity | split; [ | apply leb_refl; assumption]].
        apply leb_key; assumption.
Qed.

Lemma Math_max_spec (x y : float) :
  is_nan x = false -> is_nan y = false ->
  (Math_max x y = x \/ Math_max x y = y) /\
  (x <=? Math_max x y) = true /\ (y <=? Math_max x y) = true.
Proof.
  intros Hx Hy. unfold Math_max. rewrite Hx, Hy. cbn [orb].
  destruct (x <? y) eqn:Exy.
  - split; [right; reflexivity | split; [apply ltb_leb; assumption | apply leb_refl; assumption]].
  - destruct (y <? x) eqn:Eyx.
    + split; [left; reflexivity | split; [apply leb_refl; assumption | apply ltb_leb; assumption]].
    + rewrite ltb_false_key in Exy, Eyx by assumption.
      destruct (get_sign x).
      * split; [right; reflexivity | split; [ | apply leb_refl; assumption]].
        apply leb_key; assumption.
      * split; [left; reflexivity | split; [apply leb_refl; assumption | ]].
        apply leb_key; assumption.
Qed.

Lemma fold_Math_min (a : list float) :
  no_nan a -> forall acc, is_nan acc = false ->
  let r := fold_left Math_min a acc in
  is_nan r = false /\ (r = acc \/ In r a) /\
  (r <=? acc) = true /\ Forall (fun x => (r <=? x) = true) a.
Proof.
  induction 1 as [ | x a Hx Ha IH]; intros acc Hacc; cbn [fold_left].
  - repeat split; auto using leb_refl.
  - destruct (Math_min_spec acc x Hacc Hx) as (Hor & Hle1 & Hle2).
    assert (Hm : is_nan (Math_min acc x) = false) by (destruct Hor as [-> | ->]; assumption).
    destruct (IH _ Hm) as (Hr & Hin & Hle & Hall). cbv zeta in *.
    split; [exact Hr | ]. split; [ | split].
    + destruct Hin as [-> | Hin]; [ | right; right; exact Hin].
      destruct Hor as [-> | ->]; [left; reflexivity | right; left; reflexivity].
    + eapply leb_trans; eassumption.
    + constructor; [eapply leb_trans; eassumption | exact Hall].
Qed.

Lemma fold_Math_max (a : list float) :
  no_nan a -> forall acc, is_nan acc = false ->
  let r := fold_left Math_max a acc in
  is_nan r = false /\ (r = acc \/ In r a) /\
  (acc <=? r) = true /\ Forall (fun x => (x <=? r) = true) a.
Proof.
  induction 1 as [ | x a Hx Ha IH]; intros acc Hacc; cbn [fold_left].
  - repeat split; auto using leb_refl.
  - destruct (Math_max_spec acc x Hacc Hx) as (Hor & Hle1 & Hle2).
    assert (Hm : is_nan (Math_max acc x) = false) by (destruct Hor as [-> | ->]; assumption).
    destruct (IH _ Hm) as (Hr & Hin & Hle & Hall). cbv zeta in *.
    split; [exact Hr | ]. split; [ | split].
    + destruct Hin as [-> | Hin]; [ | right; right; exact Hin].
      destruct Hor as [-> | ->]; [left; reflexivity | right; left; reflexivity].
    + eapply leb_trans; eassumption.
    + constructor; [eapply leb_trans; eassumption | exact Hall].
Qed.

(** Nothing is above [Infinity] or below [-Infinity]. *)
Lemma Math_min_infinity (x : float) : is_nan x = false -> Math_min infinity x = x.
Proof.
  intros Hx. unfold Math_min. rewrite Hx. cbn [is_nan orb].
  change (is_nan infinity) with false. cbn [orb].
  assert (H : (infinity <? x) = false).
  { rewrite FloatAxioms.ltb_spec. change (Prim2SF infinity) with (S754_infinity false).
    destruct (Prim2SF x) as [[] | [] | | [] m e]; reflexivity. }
  rewrite H. destruct (x <? infinity); reflexivity.
Qed.

Lemma Math_max_neg_infinity (x : float) : is_nan x = false -> Math_max neg_infinity x = x.
Proof.
  intros Hx. unfold Math_max. rewrite Hx.
  change (is_nan neg_infinity) with false. cbn [orb].
  assert (H : (x <? neg_infinity) = false).
  { rewrite FloatAxioms.ltb_spec. change (Prim2SF neg_infinity) with (S754_infinity true).
    destruct (Prim2SF x) as [[] | [] | | [] m e]; reflexivity. }
  rewrite H. destruct (neg_infinity <? x); reflexivity.
Qed.

(** The least and the greatest element of a non-empty array without
    [NaN]. *)
Lemma Math_min_of_spec (a : list float) :
  a <> [] -> no_nan a ->
  In (Math_min_of a) a /\ Forall (fun x => (Math_min_of a <=? x) = true) a.
Proof.
  destruct a as [ | x a]; [congruence | ]. intros _ Hall.
  inversion Hall as [ | ? ? Hx Ha]; subst.
  unfold Math_min_of. cbn [fold_left]. rewrite Math_min_infinity by assumption.
  destruct (fold_Math_min a Ha x Hx) as (_ & Hin & Hle & Hfa). cbv zeta in *.
  split.
  - destruct Hin as [-> | Hin]; [left; reflexivity | right; exact Hin].
  - constructor; assumption.
Qed.

Lemma Math_max_of_spec (a : list float) :
  a <> [] -> no_nan a ->
  In (Math_max_of a) a /\ Forall (fun x => (x <=? Math_max_of a) = true) a.
Proof.
  destruct a as [ | x a]; [congruence | ]. intros _ Hall.
  inversion Hall as [ | ? ? Hx Ha]; subst.
  unfold Math_max_of. cbn [fold_left]. rewrite Math_max_neg_infinity by assumption.
  destruct (fold_Math_max a Ha x Hx) as (_ & Hin & Hle & Hfa). cbv zeta in *.
  split.
  - destruct Hin as [-> | Hin]; [left; reflexivity | right; exact Hin].
  - constructor; assumption.
Qed.

End FloatOrder.

Section OrderedDifference.

Local Open Scope Z_scope.

Lemma binary_round_aux_signed_nonzero (s : bool) (m e : Z) (l : location) :
  0 < m -> -1074 <= e -> signed_nonzero s (binary_round_aux prec emax s m e l).
Proof.
  intros Hm He. unfold binary_round_aux.
  destruct (shr_fexp_positive m e l Hm He) as [H1 H1e].
  destruct (shr_fexp prec emax m e l) as [mrs' e']. cbn [fst snd] in H1, H1e.
  set (m2 := round_nearest_even (shr_m mrs') (loc_of_shr_record mrs')).
  assert (Hm2 : 0 < m2).
  { subst m2. unfold round_nearest_even.
    destruct (loc_of_shr_record mrs') as [ | []]; try lia.
    destruct (Z.even (shr_m mrs')); lia. }
  destruct (shr_fexp_positive m2 e' loc_Exact Hm2 H1e) as [H2 _].
  destruct (shr_fexp prec emax m2 e' loc_Exact) as [mrs'' e'']. cbn [fst] in H2.
  destruct (shr_m mrs'') as [ | p | p]; try lia.
  destruct (Z.leb e'' _); reflexivity.
Qed.

Lemma binary_normalize_signed_nonzero (m e : Z) (szero : bool) :
  m <> 0 -> -1074 <= e ->
  signed_nonzero (m <? 0) (binary_normalize prec emax m e szero).
Proof.
  intros Hm He.
  assert (Hr : forall s p, signed_nonzero s (binary_round prec emax s p e)).
  { intros s p. unfold binary_round, shl_align.
    set (e1 := fexp prec emax (Zpos (digits2_pos p) + e)).
    assert (-1074 <= e1) by (subst e1; unfold fexp, SpecFloat.emin, prec, emax; lia).
    destruct (e1 - e); apply binary_round_aux_signed_nonzero; lia. }
  destruct m as [ | p | p]; [now elim Hm | apply Hr | apply Hr].
Qed.

(** Of two valid positive numbers the one that compares lower has the
    smaller aligned mantissa. *)
Lemma aligned_lt (mx my : positive) (ex ey : Z) :
  bounded prec emax mx ex = true -> bounded prec emax my ey = true ->
  ex < ey \/ (ex = ey /\ Zpos mx < Zpos my) ->
  Zpos (fst (shl_align mx ex (Z.min ex ey))) < Zpos (fst (shl_align my ey (Z.min ex ey))).
Proof.
  intros Vx Vy Hlt.
  rewrite (shl_align_value mx ex (Z.min ex ey)) by lia.
  rewrite (shl_align_value my ey (Z.min ex ey)) by lia.
  destruct Hlt as [Hlt | [-> Hlt]].
  - rewrite Z.min_l, Z.sub_diag by lia. rewrite Z.pow_0_r, Z.mul_1_r.
    destruct (bounded_inv mx ex Vx) as (Hdx & Hex & _).
    destruct (bounded_inv my ey Vy) as (Hdy & Hey & [Hdy53 | Hmin]); [ | lia].
    destruct (digits2_pos_bounds mx) as [_ Hx].
    destruct (digits2_pos_bounds my) as [Hy _]. rewrite Hdy53 in Hy.
    assert (2 ^ Zpos (digits2_pos mx) <= 2 ^ 53) by (apply Z.pow_le_mono_r; lia).
    assert (2 ^ 1 <= 2 ^ (ey - ex)) by (apply Z.pow_le_mono_r; lia).
    change (2 ^ 1) with 2 in *. change (53 - 1) with 52 in *.
    change (2 ^ 53) with (2 * 2 ^ 52) in *. nia.
  - rewrite Z.min_id, Z.sub_diag, Z.pow_0_r. lia.
Qed.

(** The difference of two numbers of which the first compares greater is
    positive and not zero; in the other order it is negative. *)
Lemma SFsub_ordered (x y : spec_float) :
  valid_binary x = true -> valid_binary y = true ->
  (SFltb y x = true -> signed_nonzero false (SFsub prec emax x y)) /\
  (SFltb x y = true -> signed_nonzero true (SFsub prec emax x y)).
Proof.
  intros Vx Vy.
  destruct x as [sx | sx | | sx mx ex], y as [sy | sy | | sy my ey];
    try (split; discriminate);
    try (destruct sx, sy; split; cbn; intros H; (reflexivity || discriminate H));
    try (destruct sx; split; cbn; intros H; (reflexivity || discriminate H));
    try (destruct sy; split; cbn; intros H; (reflexivity || discriminate H)).
  cbn [valid_binary] in Vx, Vy.
  assert (Hez : -1074 <= Z.min ex ey).
  { destruct (bounded_inv mx ex Vx) as (_ & ? & _).
    destruct (bounded_inv my ey Vy) as (_ & ? & _). lia. }
  pose proof (aligned_lt mx my ex ey Vx Vy) as Hxy.
  pose proof (aligned_lt my mx ey ex Vy Vx) as Hyx. rewrite (Z.min_comm ey ex) in Hyx.
  cbn [SFsub]. cbv zeta.
  set (X := Zpos (fst (shl_align mx ex (Z.min ex ey)))) in *.
  set (Y := Zpos (fst (shl_align my ey (Z.min ex ey)))) in *.
  assert (HX : 0 < X) by (subst X; lia).
  assert (HY : 0 < Y) by (subst Y; lia).
  split; intros Hlt.
  - apply SFltb_key in Hlt; [ | discriminate | discriminate].
    assert (Hpos : 0 < cond_Zopp sx X - cond_Zopp sy Y).
    { destruct sx, sy; cbn [SFkey keyLt cond_Zopp] in Hlt |- *; lia. }
    replace false with (cond_Zopp sx X - cond_Zopp sy Y <? 0)
      by (apply Z.ltb_ge; lia).
    apply binary_normalize_signed_nonzero; lia.
  - apply SFltb_key in Hlt; [ | discriminate | discriminate].
    assert (Hneg : cond_Zopp sx X - cond_Zopp sy Y < 0).
    { destruct sx, sy; cbn [SFkey keyLt cond_Zopp] in Hlt |- *; lia. }
    replace true with (cond_Zopp sx X - cond_Zopp sy Y <? 0)
      by (apply Z.ltb_lt; lia).
    apply binary_normalize_signed_nonzero; lia.
Qed.

End OrderedDifference.

Section FloatOrderedDifference.

Local Open Scope float_scope.

Lemma signed_nonzero_positive (x : float) :
  signed_nonzero false (Prim2SF x) -> (0 <? x) = true.
Proof.
  rewrite zero_ltb_Prim2SF. destruct (Prim2SF x) as [s | s | | s m e]; cbn; try tauto;
    intros ->; reflexivity.
Qed.

Lemma signed_nonzero_abs (s : bool) (x : spec_float) :
  signed_nonzero s x -> signed_nonzero false (SFabs x).
Proof. destruct x; cbn; tauto. Qed.

(** [x - y] is above zero when [x > y]. *)
Lemma sub_positive (x y : float) : (y <? x) = true -> (0 <? x - y) = true.
Proof.
  intros H. apply signed_nonzero_positive. rewrite sub_spec.
  rewrite FloatAxioms.ltb_spec in H.
  exact (proj1 (SFsub_ordered _ _ (Prim2SF_valid x) (Prim2SF_valid y)) H).
Qed.

(** The distance of two numbers of which one compares lower is above
    zero. *)
Lemma distance_positive (x y : float) :
  (x <? y) = true \/ (y <? x) = true -> (0 <? Math_abs (x - y)) = true.
Proof.
  intros H. apply signed_nonzero_positive. unfold Math_abs. rewrite abs_spec, sub_spec.
  rewrite !FloatAxioms.ltb_spec in H.
  destruct (SFsub_ordered _ _ (Prim2SF_valid x) (Prim2SF_valid y)) as [H1 H2].
  destruct H as [H | H]; [apply H2 in H | apply H1 in H];
    eapply signed_nonzero_abs; exact H.
Qed.

End FloatOrderedDifference.

(** * The countdown to the next session *)

Section Countdown.

Import marketStatus.
Local Open Scope Z_scope.

(** The wall clock of a local time given as a day number and a time of
    day. *)
Lemma wallClock_at (off D r : Z) :
  0 <= r < 86400000 ->
  wallClock off (86400000 * D + r - off * 60000) =
  {| getHours := r / 3600000; getMinutes := (r / 60000) mod 60; getDay := (D + 4) mod 7 |}.
Proof.
  intros Hr. unfold wallClock. cbv zeta.
  replace (86400000 * D + r - off * 60000 + off * 60000) with (r + D * 86400000) by ring.
  f_equal.
  - replace (r + D * 86400000) with (r + (D * 24) * 3600000) by ring.
    rewrite Z.div_add by lia.
    rewrite Z.add_mod, Z.mod_mul, Z.add_0_r, Z.mod_mod by lia.
    apply Z.mod_small. split; [apply Z.div_pos; lia | apply Z.div_lt_upper_bound; lia].
  - replace (r + D * 86400000) with (r + (D * 1440) * 60000) by ring.
    rewrite Z.div_add by lia.
    replace (D * 1440) with ((D * 24) * 60) by ring.
    rewrite Z.add_mod, Z.mod_mul, Z.add_0_r, Z.mod_mod by lia. reflexivity.
  - rewrite Z.div_add by lia. rewrite (Z.div_small r) by lia. reflexivity.
Qed.

(** Every time value is a local day number and a time of day. *)
Lemma local_split (off t : Z) :
  exists D r, 0 <= r < 86400000 /\ t = 86400000 * D + r - off * 60000 /\
              r mod 1000 = (t + off * 60000) mod 1000.
Proof.
  exists ((t + off * 60000) / 86400000), ((t + off * 60000) mod 86400000).
  split; [apply Z.mod_pos_bound; lia | ]. split.
  - pose proof (Z.div_mod (t + off * 60000) 86400000). lia.
  - replace 86400000 with (1000 * 86400) by reflexivity.
    rewrite Z.rem_mul_r by lia.
    rewrite Z.add_mod, (Z.mul_comm 1000), Z.mod_mul, Z.add_0_r by lia.
    rewrite !Z.mod_mod by lia. reflexivity.
Qed.

Lemma setHours_at (off h m s D r : Z) :
  0 <= r < 86400000 ->
  setHours off h m s (86400000 * D + r - off * 60000) =
  86400000 * D + (h * 3600000 + m * 60000 + s * 1000 + r mod 1000) - off * 60000.
Proof.
  intros Hr. unfold setHours. cbv zeta.
  replace (86400000 * D + r - off * 60000 + off * 60000) with (r + D * 86400000) by ring.
  rewrite Z.div_add, (Z.div_small r) by lia.
  replace 86400000 with (1000 * 86400) at 2 by reflexivity.
  replace (D * (1000 * 86400)) with ((D * 86400) * 1000) by ring.
  rewrite Z.add_mod, Z.mod_mul, Z.add_0_r, Z.mod_mod by lia.
  ring.
Qed.

(** The string handed to [new Date] has no milliseconds, and the [Date]
    read back shows the wall clock of the zone whatever the browser's
    zone. *)
Lemma parseWallClock_fields (zone off now : Z) :
  wallClock off (parseWallClock zone off now) = wallClock zone now /\
  getMilliseconds off (parseWallClock zone off now) = 0.
Proof.
  unfold parseWallClock, getMilliseconds, wallClock. cbv zeta.
  set (l := now + zone * 60000).
  replace (l / 1000 * 1000 - off * 60000 + off * 60000) with (l / 1000 * 1000) by ring.
  split; [ | apply Z.mod_mul; lia].
  assert (H : forall k, 0 < k -> l / 1000 * 1000 / (1000 * k) = l / (1000 * k)).
  { intros k Hk. rewrite <- !Z.div_div by lia. rewrite Z.div_mul by lia. reflexivity. }
  change 3600000 with (1000 * 3600). change 60000 with (1000 * 60).
  change 86400000 with (1000 * 86400).
  rewrite !H by lia. reflexivity.
Qed.


(** Where [nextOpen] ends up, by the local day number [D] and time of
    day [r] of [istTime]: unchanged inside the session, else 09:15 of the
    day [n] days on. *)
Lemma nextOpenAfter_at (off D r : Z) :
  0 <= r < 86400000 -> r mod 1000 = 0 ->
  let h := r / 3600000 in
  let m := (r / 60000) mod 60 in
  let day := (D + 4) mod 7 in
  let t := 86400000 * D + r - off * 60000 in
  (nextOpenAfter off t = t /\ 1 <= day <= 5 /\
   ((h = 9 /\ 15 <= m) \/ 9 < h < 15 \/ (h = 15 /\ m <= 30)))
  \/ exists n,
       nextOpenAfter off t = 86400000 * (D + n) + 33300000 - off * 60000 /\
       ((day = 5 /\ 15 <= h /\ 30 < m /\ n = 3)
        \/ (day = 6 /\ n = 2)
        \/ (day = 0 /\ n = 1)
        \/ (1 <= day <= 5 /\ (h < 9 \/ (h = 9 /\ m < 15)) /\ n = 0)
        \/ (1 <= day <= 5 /\ ~ (day = 5 /\ 30 < m) /\
            (15 < h \/ (h = 15 /\ 30 < m)) /\ n = 1)).
Proof.
  intros Hr Hms h m day t.
  assert (Hday : 0 <= day < 7) by (apply Z.mod_pos_bound; lia).
  assert (Hm : 0 <= m < 60) by (apply Z.mod_pos_bound; lia).
  assert (Hnext : forall n,
    setHours off 9 15 0 (addDays n t) = 86400000 * (D + n) + 33300000 - off * 60000).
  { intros n. unfold addDays, t.
    replace (86400000 * D + r - off * 60000 + n * 86400000)
      with (86400000 * (D + n) + r - off * 60000) by ring.
    rewrite setHours_at, Hms by assumption. ring. }
  assert (Hnext0 : setHours off 9 15 0 t = 86400000 * (D + 0) + 33300000 - off * 60000).
  { rewrite <- Hnext. unfold addDays. f_equal. ring. }
  assert (Hw : wallClock off t =
               {| getHours := h; getMinutes := m; getDay := day |})
    by (apply wallClock_at; assumption).
  unfold nextOpenAfter. rewrite Hw. cbn [getHours getMinutes getDay]. cbv zeta.
  assert (Hcases :
    (day = 5 /\ 15 <= h /\ 30 < m) \/ day = 6 \/ day = 0
    \/ (1 <= day <= 5 /\ (h < 9 \/ (h = 9 /\ m < 15)))
    \/ (1 <= day <= 5 /\ ~ (day = 5 /\ 30 < m) /\ (15 < h \/ (h = 15 /\ 30 < m)))
    \/ (1 <= day <= 5 /\ ((h = 9 /\ 15 <= m) \/ 9 < h < 15 \/ (h = 15 /\ m <= 30)))) by lia.
  destruct Hcases as [H | [H | [H | [H | [H | H]]]]].
  - right. exists 3. decide_tests. cbn [andb]. rewrite Hnext. split; [reflexivity | lia].
  - right. exists 2. decide_tests. cbn [andb]. rewrite Hnext. split; [reflexivity | lia].
  - right. exists 1. decide_tests. cbn [andb]. rewrite Hnext. split; [reflexivity | lia].
  - right. exists 0.
    assert (E1 : (day =? 5) && (15 <=? h) && (30 <? m) = false).
    { destruct H as [_ [H | [H1 H2]]]; decide_tests;
        rewrite ?andb_false_r, ?andb_false_l; reflexivity. }
    assert (E2 : (h <? 9) || ((h =? 9) && (m <? 15)) = true).
    { destruct H as [_ [H | [H1 H2]]]; decide_tests;
        rewrite ?orb_true_l, ?orb_true_r; reflexivity. }
    rewrite E1, E2. decide_tests. rewrite Hnext0. split; [reflexivity | lia].
  - right. exists 1.
    assert (E1 : (day =? 5) && (15 <=? h) && (30 <? m) = false).
    { apply andb_false_iff. rewrite andb_false_iff, Z.eqb_neq, Z.leb_gt, Z.ltb_ge. lia. }
    assert (E2 : (h <? 9) || ((h =? 9) && (m <? 15)) = false).
    { apply orb_false_iff. rewrite andb_false_iff, Z.eqb_neq, !Z.ltb_ge. lia. }
    assert (E3 : (15 <? h) || ((h =? 15) && (30 <? m)) = true).
    { apply orb_true_iff. rewrite andb_true_iff, Z.eqb_eq, !Z.ltb_lt. lia. }
    rewrite E1, E2, E3. decide_tests. rewrite Hnext. split; [reflexivity | lia].
  - left.
    assert (E1 : (day =? 5) && (15 <=? h) && (30 <? m) = false).
    { apply andb_false_iff. rewrite andb_false_iff, Z.eqb_neq, Z.leb_gt, Z.ltb_ge. lia. }
    assert (E2 : (h <? 9) || ((h =? 9) && (m <? 15)) = false).
    { apply orb_false_iff. rewrite andb_false_iff, Z.eqb_neq, !Z.ltb_ge. lia. }
    assert (E3 : (15 <? h) || ((h =? 15) && (30 <? m)) = false).
    { apply orb_false_iff. rewrite andb_false_iff, Z.eqb_neq, !Z.ltb_ge. lia. }
    rewrite E1, E2, E3. decide_tests. split; [reflexivity | lia].
Qed.


(** The [Date] built from the Kolkata string, by day number and time of
    day; the two do not depend on the browser's zone. *)
Lemma parseWallClock_split (now : Z) :
  exists D r,
    0 <= r < 86400000 /\ r mod 1000 = 0 /\
    (forall off, parseWallClock 330 off now = 86400000 * D + r - off * 60000) /\
    toKolkata now =
    {| getHours := r / 3600000; getMinutes := (r / 60000) mod 60; getDay := (D + 4) mod 7 |}.
Proof.
  destruct (local_split 0 (parseWallClock 330 0 now)) as (D & r & Hr & Hsplit & Hms).
  exists D, r.
  assert (Hoff : forall off, parseWallClock 330 off now = 86400000 * D + r - off * 60000).
  { intros off. unfold parseWallClock in *. lia. }
  split; [exact Hr | ]. split; [ | split; [exact Hoff | ]].
  - rewrite Hms. exact (proj2 (parseWallClock_fields 330 0 now)).
  - unfold toKolkata. rewrite <- (proj1 (parseWallClock_fields 330 0 now)).
    rewrite Hoff. apply wallClock_at. exact Hr.
Qed.

(** X1: while [isMarketOpen] answers [true] the countdown is zero. *)
Theorem getTimeUntilMarketOpen_during_session (browserOffsetMinutes now : Z) :
  isMarketOpen now = true ->
  getTimeUntilMarketOpen browserOffsetMinutes now = {| hoursUntil := 0; minutesUntil := 0 |}.
Proof.
  intros Hopen. unfold isMarketOpen in Hopen. rewrite isMarketOpenAt_iff in Hopen.
  destruct (parseWallClock_split now) as (D & r & Hr & Hms & Hparse & Hk).
  rewrite Hk in Hopen. cbn [getHours getMinutes getDay] in Hopen.
  unfold getTimeUntilMarketOpen. cbv zeta. rewrite Hparse.
  destruct (nextOpenAfter_at browserOffsetMinutes D r Hr Hms) as [(Hn & _) | (n & _ & Hn)].
  - rewrite Hn, Z.sub_diag. reflexivity.
  - exfalso. lia.
Qed.

Lemma getTimeUntilMarketOpen_during_session_witness :
  isMarketOpen 1793680200123 = true /\
  getTimeUntilMarketOpen (-480) 1793680200123 = {| hoursUntil := 0; minutesUntil := 0 |}.
Proof.
  split; [reflexivity | ].
  apply getTimeUntilMarketOpen_during_session. reflexivity.
Defined.

(** X2: in a browser whose time zone keeps one offset from UTC, while
    [isMarketOpen] answers [false], [nextOpen] is set to 09:15:00 sharp,
    later than [istTime] and less than three days away; the result is that
    wait in whole hours and minutes, at most 65 h 59 min. *)
Theorem getTimeUntilMarketOpen_outside_session (browserOffsetMinutes now : Z) :
  isMarketOpen now = false ->
  let istTime := parseWallClock 330 browserOffsetMinutes now in
  let nextOpen := nextOpenAfter browserOffsetMinutes istTime in
  let left := getTimeUntilMarketOpen browserOffsetMinutes now in
  getHours (wallClock browserOffsetMinutes nextOpen) = 9 /\
  getMinutes (wallClock browserOffsetMinutes nextOpen) = 15 /\
  getSeconds browserOffsetMinutes nextOpen = 0 /\
  getMilliseconds browserOffsetMinutes nextOpen = 0 /\
  0 < nextOpen - istTime < 3 * 86400000 /\
  0 <= hoursUntil left <= 65 /\ 0 <= minutesUntil left <= 59 /\
  hoursUntil left * 3600000 + minutesUntil left * 60000 <= nextOpen - istTime
    < hoursUntil left * 3600000 + minutesUntil left * 60000 + 60000.
Proof.
  intros Hclosed. unfold isMarketOpen in Hclosed.
  rewrite <- not_true_iff_false, isMarketOpenAt_iff in Hclosed.
  destruct (parseWallClock_split now) as (D & r & Hr & Hms & Hparse & Hk).
  rewrite Hk in Hclosed. cbn [getHours getMinutes getDay] in Hclosed.
  unfold getTimeUntilMarketOpen. cbv zeta. cbn [hoursUntil minutesUntil].
  rewrite Hparse.
  set (off := browserOffsetMinutes).
  destruct (nextOpenAfter_at off D r Hr Hms) as [(_ & Hopen) | (n & -> & Hn)];
    [exfalso; lia | ].
  assert (Hw := wallClock_at off (D + n) 33300000 ltac:(lia)).
  rewrite Hw. cbn [getHours getMinutes].
  unfold getSeconds, getMilliseconds.
  replace (86400000 * (D + n) + 33300000 - off * 60000 + off * 60000)
    with (33300000 + (D + n) * 86400 * 1000) by ring.
  replace (86400000 * (D + n) + 33300000 - off * 60000 - (86400000 * D + r - off * 60000))
    with (86400000 * n + 33300000 - r) by ring.
  set (h := r / 3600000) in *. set (m := (r / 60000) mod 60) in *.
  set (day := (D + 4) mod 7) in *.
  assert (Hday : 0 <= day < 7) by (apply Z.mod_pos_bound; lia).
  assert (Hhm : exists s, r = 3600000 * h + 60000 * m + s /\ 0 <= s < 60000 /\
                          0 <= m < 60 /\ 0 <= h < 24).
  { exists (r mod 60000). subst h m. clear - Hr.
    pose proof (Z.div_mod r 3600000). pose proof (Z.div_mod r 60000).
    pose proof (Z.div_mod (r / 60000) 60).
    pose proof (Z.mod_pos_bound r 3600000). pose proof (Z.mod_pos_bound r 60000).
    pose proof (Z.mod_pos_bound (r / 60000) 60). lia. }
  destruct Hhm as (s & Hs & Hs1 & Hm & Hh).
  set (diff := 86400000 * n + 33300000 - r).
  assert (Hdiff : 0 < diff < 3 * 86400000) by (unfold diff; lia).
  assert (Hdiff65 : diff < 66 * 3600000) by (unfold diff; lia).
  rewrite Z.rem_mod_nonneg by lia.
  change (1000 * 60 * 60) with 3600000. change (1000 * 60) with 60000.
  pose proof (Z.div_mod diff 3600000 ltac:(lia)) as Hq.
  pose proof (Z.mod_pos_bound diff 3600000 ltac:(lia)) as Hq1.
  pose proof (Z.div_mod (diff mod 3600000) 60000 ltac:(lia)) as Hp.
  pose proof (Z.mod_pos_bound (diff mod 3600000) 60000 ltac:(lia)) as Hp1.
  split; [reflexivity | ]. split; [reflexivity | ].
  split.
  { rewrite Z.div_add by lia. change (33300000 / 1000) with (555 * 60).
    replace (555 * 60 + (D + n) * 86400) with ((555 + (D + n) * 1440) * 60) by ring.
    apply Z.mod_mul. lia. }
  split; [rewrite Z.mod_add by lia; reflexivity | ].
  split; [exact Hdiff | ].
  set (q := diff / 3600000) in *. set (p := diff mod 3600000 / 60000) in *.
  lia.
Qed.

Lemma getTimeUntilMarketOpen_outside_session_witness :
  isMarketOpen 1793960110123 = false /\
  getTimeUntilMarketOpen 330 1793960110123 = {| hoursUntil := 65; minutesUntil := 29 |} /\
  0 <= hoursUntil (getTimeUntilMarketOpen 330 1793960110123) <= 65.
Proof.
  split; [reflexivity | ]. split; [reflexivity | ].
  destruct (getTimeUntilMarketOpen_outside_session 330 1793960110123 eq_refl)
    as (_ & _ & _ & _ & _ & H & _).
  exact H.
Defined.

(** X3: the announced opening falls inside a session, except after 16:00 on
    a Friday when the minute is at most 30: then it is Saturday 09:15. *)
Theorem nextOpen_in_session (browserOffsetMinutes now : Z) :
  isMarketOpen now = false ->
  let istTime := parseWallClock 330 browserOffsetMinutes now in
  let nextOpen := nextOpenAfter browserOffsetMinutes istTime in
  let ist := toKolkata now in
  if (getDay ist =? 5) && (16 <=? getHours ist) && (getMinutes ist <=? 30)
  then getDay (wallClock browserOffsetMinutes nextOpen) = 6 /\
       isMarketOpenAt (wallClock browserOffsetMinutes nextOpen) = false
  else isMarketOpenAt (wallClock browserOffsetMinutes nextOpen) = true.
Proof.
  intros Hclosed. unfold isMarketOpen in Hclosed.
  rewrite <- not_true_iff_false, isMarketOpenAt_iff in Hclosed.
  destruct (parseWallClock_split now) as (D & r & Hr & Hms & Hparse & Hk).
  rewrite Hk in *. cbn [getHours getMinutes getDay] in *. cbv zeta.
  rewrite Hparse. set (off := browserOffsetMinutes).
  destruct (nextOpenAfter_at off D r Hr Hms) as [(_ & Hopen) | (n & -> & Hn)];
    [exfalso; lia | ].
  rewrite (wallClock_at off (D + n) 33300000) by lia.
  change (33300000 / 3600000) with 9. change ((33300000 / 60000) mod 60) with 15.
  set (h := r / 3600000) in *. set (m := (r / 60000) mod 60) in *.
  assert (Hday : (D + n + 4) mod 7 = ((D + 4) mod 7 + n) mod 7).
  { rewrite Z.add_mod_idemp_l by lia. f_equal. ring. }
  assert (Hd : 0 <= (D + 4) mod 7 < 7) by (apply Z.mod_pos_bound; lia).
  set (day := (D + 4) mod 7) in *.
  assert (Hn03 : 0 <= n <= 3) by lia.
  assert (Hnext : (day + n) mod 7 = if day + n <? 7 then day + n else day + n - 7).
  { destruct (Z.ltb_spec (day + n) 7).
    - apply Z.mod_small. lia.
    - symmetry. apply (Z.mod_unique _ _ 1); lia. }
  destruct ((day =? 5) && (16 <=? h) && (m <=? 30)) eqn:Eslip.
  - rewrite !andb_true_iff, Z.eqb_eq, !Z.leb_le in Eslip.
    assert (En : n = 1) by lia.
    assert (E6 : (D + n + 4) mod 7 = 6).
    { rewrite Hday, Hnext. destruct (Z.ltb_spec (day + n) 7); lia. }
    split; [exact E6 | ].
    apply isMarketOpenAt_saturday. exact E6.
  - rewrite !andb_false_iff, Z.eqb_neq, !Z.leb_gt in Eslip.
    apply isMarketOpenAt_iff. cbn [getHours getMinutes getDay].
    rewrite Hday, Hnext. destruct (Z.ltb_spec (day + n) 7); lia.
Qed.

Lemma nextOpen_in_session_witness :
  isMarketOpen 1793961600123 = false /\
  toKolkata 1793961600123 = {| getHours := 16; getMinutes := 10; getDay := 5 |} /\
  getDay (wallClock 330 (nextOpenAfter 330 (parseWallClock 330 330 1793961600123))) = 6.
Proof.
  split; [reflexivity | ]. split; [reflexivity | ].
  exact (proj1 (nextOpen_in_session 330 1793961600123 eq_refl)).
Defined.

(** X4: the countdown does not depend on the browser's time zone. *)
Theorem getTimeUntilMarketOpen_any_zone (offset1 offset2 now : Z) :
  getTimeUntilMarketOpen offset1 now = getTimeUntilMarketOpen offset2 now.
Proof.
  destruct (parseWallClock_split now) as (D & r & Hr & Hms & Hparse & _).
  unfold getTimeUntilMarketOpen. cbv zeta. rewrite !Hparse.
  destruct (nextOpenAfter_at offset1 D r Hr Hms) as [(-> & H1) | (n1 & -> & H1)];
    destruct (nextOpenAfter_at offset2 D r Hr Hms) as [(-> & H2) | (n2 & -> & H2)].
  - rewrite !Z.sub_diag. reflexivity.
  - exfalso. lia.
  - exfalso. lia.
  - assert (n1 = n2) by lia. subst n2.
    replace (86400000 * (D + n1) + 33300000 - offset2 * 60000 -
             (86400000 * D + r - offset2 * 60000))
      with (86400000 * (D + n1) + 33300000 - offset1 * 60000 -
            (86400000 * D + r - offset1 * 60000)) by ring.
    reflexivity.
Qed.

End Countdown.

Section SessionChecks.

Import marketStatus.
Local Open Scope Z_scope.

Lemma toKolkata_ranges (now : Z) :
  0 <= getHours (toKolkata now) < 24 /\
  0 <= getMinutes (toKolkata now) < 60 /\
  0 <= getDay (toKolkata now) < 7.
Proof.
  unfold toKolkata, wallClock. cbn [getHours getMinutes getDay].
  repeat split; apply Z.mod_pos_bound; lia.
Qed.

(** X5: the session status and [isMarketOpen] on the same clock reading. *)
Theorem isMarketOpen_status (now : Z) :
  let s := status (getMarketStatus now) in
  (isMarketOpen now = true ->
   s = "OPENING"%string \/ s = "MID_DAY"%string \/ s = "CLOSING"%string)
  /\ (s = "OPENING"%string \/ s = "MID_DAY"%string -> isMarketOpen now = true)
  /\ (s = "PRE_MARKET"%string \/ s = "CLOSED"%string -> isMarketOpen now = false).
Proof.
  cbv zeta. unfold getMarketStatus, isMarketOpen.
  destruct (toKolkata_ranges now) as (Hh & Hm & Hd).
  set (ist := toKolkata now) in *.
  assert (Hcases : 1 <= getDay ist <= 5 \/ getDay ist = 0 \/ getDay ist = 6) by lia.
  destruct Hcases as [Hw | Hw].
  - rewrite (getMarketStatusAt_weekday ist Hw Hm). cbv zeta.
    rewrite <- (not_true_iff_false (isMarketOpenAt ist)), isMarketOpenAt_iff.
    destruct (Z.ltb_spec (getHours ist * 60 + getMinutes ist) (9 * 60 + 15));
      [ | destruct (Z.ltb_spec (getHours ist * 60 + getMinutes ist) (12 * 60));
          [ | destruct (Z.ltb_spec (getHours ist * 60 + getMinutes ist) (15 * 60));
              [ | destruct (Z.ltb_spec (getHours ist * 60 + getMinutes ist) (16 * 60))]]];
      (split; [ | split]); intros H';
      try (destruct H' as [H' | H']; discriminate H');
      try (left; reflexivity); try (right; left; reflexivity);
      try (right; right; reflexivity); lia.
  - assert (E : getMarketStatusAt ist =
                {| status := "CLOSED"; label := "Market Closed (Weekend)";
                   color := "bg-gray-100" |}).
    { unfold getMarketStatusAt. cbv zeta.
      destruct Hw as [-> | ->]; reflexivity. }
    assert (Hc : isMarketOpenAt ist = false).
    { apply not_true_is_false. rewrite isMarketOpenAt_iff. lia. }
    rewrite E, Hc. cbn [status].
    split; [discriminate | ]. split; [ | reflexivity].
    intros [H' | H']; discriminate H'.
Qed.

(** The two ways of writing the session test agree. *)
Lemma session_test (d h m : Z) :
  ((0 <? d) && (d <? 6))
  && (((9 <? h) || ((h =? 9) && (15 <=? m))) && ((h <? 15) || ((h =? 15) && (m <=? 30))))
  = isMarketOpenAt {| getHours := h; getMinutes := m; getDay := d |}.
Proof.
  apply eq_true_iff_eq. rewrite isMarketOpenAt_iff. cbn [getHours getMinutes getDay].
  rewrite !andb_true_iff, !orb_true_iff, !andb_true_iff.
  rewrite !Z.eqb_eq, !Z.leb_le, !Z.ltb_lt. lia.
Qed.

(** X6: in a browser on India time the dashboard's check stores HOLIDAY
    and PREVIOUS when the UTC date of the reading is on its list, and
    otherwise OPEN and LIVE exactly while [isMarketOpen] answers [true],
    CLOSED and PREVIOUS while it answers [false]. *)
Theorem detectMarketStatus_in_Kolkata (now : Z) :
  Dashboard.detectMarketStatus 330 now =
  if Dashboard.includes Dashboard.holidays (toISODate now)
  then {| Dashboard.marketStatus := "HOLIDAY"; Dashboard.dataType := "PREVIOUS" |}
  else if isMarketOpen now
  then {| Dashboard.marketStatus := "OPEN"; Dashboard.dataType := "LIVE" |}
  else {| Dashboard.marketStatus := "CLOSED"; Dashboard.dataType := "PREVIOUS" |}.
Proof.
  unfold Dashboard.detectMarketStatus. cbv zeta.
  destruct (Dashboard.includes Dashboard.holidays (toISODate now)); [reflexivity | ].
  rewrite session_test. unfold isMarketOpen, toKolkata.
  destruct (wallClock 330 now) as [h m d]. reflexivity.
Qed.

(** X7: the header and the dashboard read the same clock the same way:
    when the UTC date of the reading is off the holiday list the dashboard
    stores OPEN exactly when the header does, and the header's WEEKEND is
    the dashboard's CLOSED. *)
Theorem header_and_dashboard (utcOffsetMinutes now : Z) :
  Dashboard.marketStatus (Dashboard.detectMarketStatus utcOffsetMinutes now) =
  if Dashboard.includes Dashboard.holidays (toISODate now) then "HOLIDAY"%string
  else if String.eqb (Header.updateMarketStatus utcOffsetMinutes now) "OPEN" then "OPEN"%string
  else "CLOSED"%string.
Proof.
  unfold Dashboard.detectMarketStatus, Header.updateMarketStatus. cbv zeta.
  destruct (Dashboard.includes Dashboard.holidays (toISODate now)); [reflexivity | ].
  destruct (_ && _ && _); [reflexivity | ].
  destruct (negb _); reflexivity.
Qed.

(** X8: while [isMarketOpen] answers [true], the session label the
    intraday page derives from the hour alone is the status of
    [getMarketStatus], in a browser on India time. *)
Theorem intraday_session_label (now : Z) :
  isMarketOpen now = true ->
  let state := Intraday.updateMarketStatus 330 now now now in
  Intraday.marketOpen state = true /\
  Intraday.sessionTime state = status (Intraday.marketStatusInfo state).
Proof.
  intros Hopen. cbv zeta. unfold Intraday.updateMarketStatus.
  cbn [Intraday.marketOpen Intraday.sessionTime Intraday.marketStatusInfo].
  split; [exact Hopen | ].
  unfold isMarketOpen in Hopen. rewrite isMarketOpenAt_iff in Hopen.
  destruct (toKolkata_ranges now) as (Hh & Hm & Hd).
  unfold getMarketStatus. rewrite getMarketStatusAt_weekday by lia. cbv zeta.
  fold (toKolkata now).
  set (h := getHours (toKolkata now)) in *. set (m := getMinutes (toKolkata now)) in *.
  assert (Hcases : (h = 9 /\ 15 <= m) \/ 10 <= h < 12 \/ 12 <= h < 15 \/ h = 15) by lia.
  destruct Hcases as [H | [H | [H | H]]]; decide_tests; reflexivity.
Qed.

Lemma intraday_session_label_witness :
  isMarketOpen 1793680200000 = true /\
  Intraday.sessionTime (Intraday.updateMarketStatus 330 1793680200000 1793680200000 1793680200000)
  = "OPENING"%string.
Proof.
  split; [reflexivity | ].
  destruct (intraday_session_label 1793680200000 eq_refl) as [_ H].
  rewrite H. reflexivity.
Defined.

(** X25: the dashboard looks the UTC date up in the holiday list.  While
    [isMarketOpen] answers [true] that date is the calendar date in
    Kolkata, so in a browser on India time the dashboard stores HOLIDAY
    for the session hours of a listed Kolkata date and OPEN for those of
    any other. *)
Theorem holiday_test_during_session (now : Z) :
  isMarketOpen now = true ->
  let kolkataDate := civilFromDays ((now + 330 * 60000) / 86400000) in
  toISODate now = kolkataDate /\
  Dashboard.marketStatus (Dashboard.detectMarketStatus 330 now) =
  if Dashboard.includes Dashboard.holidays kolkataDate then "HOLIDAY"%string
  else "OPEN"%string.
Proof.
  intros Hopen. cbv zeta.
  assert (Hdate : toISODate now = civilFromDays ((now + 330 * 60000) / 86400000)).
  { unfold toISODate. f_equal.
    unfold isMarketOpen in Hopen. rewrite isMarketOpenAt_iff in Hopen.
    destruct (local_split 330 now) as (D & r & Hr & Hnow & _).
    unfold toKolkata in Hopen. rewrite Hnow, wallClock_at in Hopen by exact Hr.
    cbn [getHours getMinutes getDay] in Hopen.
    assert (Hlate : 9 <= r / 3600000) by lia.
    assert (Hr9 : 9 * 3600000 <= r).
    { pose proof (Z.div_mod r 3600000 ltac:(lia)).
      pose proof (Z.mod_pos_bound r 3600000 ltac:(lia)). lia. }
    rewrite Hnow.
    replace (86400000 * D + r - 330 * 60000 + 330 * 60000) with (r + D * 86400000) by ring.
    replace (86400000 * D + r - 330 * 60000) with (r - 19800000 + D * 86400000) by ring.
    rewrite !Z.div_add by lia.
    rewrite (Z.div_small r), (Z.div_small (r - 19800000)) by lia. reflexivity. }
  split; [exact Hdate | ]. rewrite <- Hdate.
  destruct (Dashboard.includes Dashboard.holidays (toISODate now)) eqn:Eh.
  - apply detectMarketStatus_holiday. exact Eh.
  - unfold Dashboard.detectMarketStatus. cbv zeta. rewrite Eh, session_test.
    unfold isMarketOpen, toKolkata in Hopen.
    destruct (wallClock 330 now) as [h m d]. cbn [getHours getMinutes getDay].
    rewrite Hopen. reflexivity.
Qed.

Lemma holiday_test_during_session_witness :
  isMarketOpen 1769401800000 = true /\
  toISODate 1769401800000 = (2026, 1, 26) /\
  Dashboard.marketStatus (Dashboard.detectMarketStatus 330 1769401800000) = "HOLIDAY"%string.
Proof.
  split; [reflexivity | ].
  destruct (holiday_test_during_session 1769401800000 eq_refl) as [H1 H2].
  split; [exact H1 | exact H2].
Defined.

End SessionChecks.

(** * More on risk management *)

Section RiskExtras.

Import riskManagement validators.
Local Open Scope float_scope.

Lemma SFfloor_sign (s : bool) (x : spec_float) :
  signed_or_nan s x -> signed_or_nan s (SFfloor x).
Proof.
  destruct x as [s' | s' | | s' m e]; cbn [SFfloor signed_or_nan]; trivial.
  intros ->. destruct (0 <=? e)%Z; [reflexivity | ].
  cbv zeta.
  destruct (if s && negb _ then _ else _)%Z; reflexivity.
Qed.

Lemma not_below_zero (x : float) :
  signed_or_nan false (Prim2SF x) -> (x <? 0) = false.
Proof.
  intros H. rewrite FloatAxioms.ltb_spec. change (Prim2SF 0) with (S754_zero false).
  apply signed_false_not_below_zero. exact H.
Qed.





(** Without a truthy first target [assessRisk] returns no warning or one of
    the two stop-distance warnings, with its recommendation. *)
Lemma assessRisk_falsy_first_target
    (capital entryPrice stopLoss : float) (targets : option (list value)) :
  match targets with
  | Some a => ToBoolean (index0 a) = false
  | None => True
  end ->
  exists advice,
    assessRisk capital entryPrice stopLoss targets = Return advice /\
    ((warnings advice = [] /\ recommendations advice = [])
     \/ (warnings advice = [highRiskWarning] /\
         recommendations advice =
           [[Text "Consider tightening stop loss or reducing position size"]])
     \/ (warnings advice = [tightStopWarning] /\
         recommendations advice =
           [[Text "May get stopped out too easily - consider widening"]])).
Proof.
  intros Hfalsy. unfold assessRisk. cbv zeta.
  set (riskPercent := Math_abs ((entryPrice - stopLoss) / entryPrice) * 100).
  assert (Hboth : gtb riskPercent 5 = true -> (riskPercent <? 0.5) = false).
  { unfold gtb. intros H5. apply not_true_is_false. intros H05.
    pose proof (ltb_trans _ _ _ H5 H05) as H. vm_compute in H. discriminate. }
  assert (Hgo : match targets with
                | Some _ => ToBoolean match targets with Some a => index0 a | None => Undefined end
                | None => false
                end = false).
  { destruct targets; [exact Hfalsy | reflexivity]. }
  rewrite Hgo.
  destruct (gtb riskPercent 5).
  - rewrite Hboth by reflexivity. cbn.
    eexists. split; [reflexivity | ]. right. left. split; reflexivity.
  - destruct (riskPercent <? 0.5); cbn; (eexists; split; [reflexivity | ]).
    + right. right. split; reflexivity.
    + left. split; reflexivity.
Qed.

(** X10: [assessRisk] never returns more than one warning, and never the
    LOW REWARD one: it either throws, on a truthy first target, or returns
    no warning, the HIGH RISK one or the TIGHT STOP one, each with its
    recommendation. *)
Theorem assessRisk_at_most_one_warning
    (capital entryPrice stopLoss : float) (targets : option (list value)) :
  match assessRisk capital entryPrice stopLoss targets with
  | Throw _ =>
      exists a, targets = Some a /\ ToBoolean (index0 a) = true
  | Return advice =>
      (warnings advice = [] /\ recommendations advice = [])
      \/ (warnings advice = [highRiskWarning] /\
          recommendations advice =
            [[Text "Consider tightening stop loss or reducing position size"]])
      \/ (warnings advice = [tightStopWarning] /\
          recommendations advice =
            [[Text "May get stopped out too easily - consider widening"]])
  end.
Proof.
  assert (Hfalsy : forall targets,
    match targets with
    | Some a => ToBoolean (index0 a) = false
    | None => True
    end ->
    match assessRisk capital entryPrice stopLoss targets with
    | Throw _ => exists a, targets = Some a /\ ToBoolean (index0 a) = true
    | Return advice =>
        (warnings advice = [] /\ recommendations advice = [])
        \/ (warnings advice = [highRiskWarning] /\
            recommendations advice =
              [[Text "Consider tightening stop loss or reducing position size"]])
        \/ (warnings advice = [tightStopWarning] /\
            recommendations advice =
              [[Text "May get stopped out too easily - consider widening"]])
    end).
  { intros t Ht.
    destruct (assessRisk_falsy_first_target capital entryPrice stopLoss t Ht)
      as (advice & -> & Hadvice).
    exact Hadvice. }
  destruct targets as [a | ]; [ | apply Hfalsy; exact I].
  destruct (ToBoolean (index0 a)) eqn:E; [ | apply Hfalsy; exact E].
  destruct a as [ | target rest]; [discriminate E | ].
  rewrite assessRisk_truthy_first_target_throws by exact E.
  exists (target :: rest). split; [reflexivity | exact E].
Qed.

Lemma valid_price (price : float) :
  isValidPrice price = true ->
  (0 <? price) = true /\ truthy price = true /\ is_finite price = true.
Proof.
  unfold isValidPrice, gtb. intros H. apply andb_prop in H. destruct H as [Hpos Hlt].
  split; [exact Hpos | ]. split; [apply positive_truthy; exact Hpos | ].
  rewrite is_finite_Prim2SF. rewrite zero_ltb_Prim2SF in Hpos.
  rewrite FloatAxioms.ltb_spec in Hlt.
  destruct (Prim2SF price) as [[] | [] | | [] m e]; try discriminate; try reflexivity.
Qed.

Lemma valid_capital (capital : float) :
  isValidCapital capital = true -> (0 <? capital) = true.
Proof.
  unfold isValidCapital. intros H. apply andb_prop in H. destruct H as [Hge _].
  rewrite zero_ltb_Prim2SF. rewrite FloatAxioms.leb_spec in Hge.
  destruct (Prim2SF capital) as [[] | [] | | [] m e]; try discriminate; try reflexivity.
Qed.

(** X11: for a capital and two prices the validators accept, the position
    size is a whole number that is not below zero: [0] when entry and stop
    are equal, else the floor of the risk budget over the stop distance. *)
Theorem calculatePositionSize_valid_inputs (capital entryPrice stopLoss : float) :
  isValidCapital capital = true ->
  isValidPrice entryPrice = true -> isValidPrice stopLoss = true ->
  let position := calculatePositionSize capital entryPrice stopLoss in
  position =
    (if entryPrice =? stopLoss then 0
     else Math_floor (capital * 0.01 / Math_abs (entryPrice - stopLoss))) /\
  (position <? 0) = false /\
  Math_floor position = position.
Proof.
  intros Hc He Hs. cbv zeta.
  apply valid_capital in Hc.
  destruct (valid_price _ He) as (_ & Hte & Hfe).
  destruct (valid_price _ Hs) as (_ & Hts & _).
  rewrite calculatePositionSize_truthy
    by (rewrite (positive_truthy _ Hc), Hte, Hts; reflexivity).
  destruct (entryPrice =? stopLoss) eqn:Eeq.
  - rewrite <- (eqb_truthy_eq _ _ Hte Eeq), sub_diag_finite by assumption.
    repeat split.
  - rewrite sub_nonzero by auto using truthy_not_nan.
    split; [reflexivity | ]. split; [ | apply Math_floor_idempotent].
    apply not_below_zero. rewrite Prim2SF_Math_floor. apply SFfloor_sign.
    rewrite div_spec. change false with (xorb false false).
    apply SFdiv_sign.
    + rewrite mul_spec. change false with (xorb false false).
      apply SFmul_sign; [ | vm_compute; reflexivity].
      rewrite zero_ltb_Prim2SF in Hc.
      destruct (Prim2SF capital) as [[] | [] | | [] m e]; cbn; congruence.
    + unfold Math_abs. rewrite abs_spec. apply SFabs_sign.
Qed.

Lemma calculatePositionSize_valid_inputs_witness :
  isValidCapital 100000 = true /\ isValidPrice 100 = true /\ isValidPrice 98 = true /\
  calculatePositionSize 100000 100 98 = 500 /\
  (calculatePositionSize 100000 100 98 <? 0) = false.
Proof.
  do 3 (split; [reflexivity | ]).
  destruct (calculatePositionSize_valid_inputs 100000 100 98 eq_refl eq_refl eq_refl)
    as (H1 & H2 & _).
  split; [exact H1 | exact H2].
Defined.


Lemma to_little_uint_not_nil (n : nat) :
  forall acc, acc <> Decimal.Nil -> Nat.to_little_uint n acc <> Decimal.Nil.
Proof.
  induction n as [ | n IH]; intros acc Hacc; cbn [Nat.to_little_uint]; [exact Hacc | ].
  apply IH. destruct acc; cbn; discriminate.
Qed.

(** The decimal rendering tells the numbers apart. *)
Lemma decimal_inj (a b : nat) : decimal a = decimal b -> a = b.
Proof.
  unfold decimal. intros H.
  assert (Hnil : forall n, Nat.to_uint n <> Decimal.Nil).
  { intros n E. unfold Nat.to_uint in E. apply DecimalFacts.rev_nil_inv in E.
    revert E. apply to_little_uint_not_nil. discriminate. }
  apply DecimalNat.Unsigned.to_uint_inj.
  pose proof (DecimalString.NilZero.usu _ (Hnil a)) as Ha.
  pose proof (DecimalString.NilZero.usu _ (Hnil b)) as Hb.
  rewrite H in Ha. congruence.
Qed.

Lemma append_inj_l (p a b : string) : (p ++ a = p ++ b)%string -> a = b.
Proof.
  induction p as [ | c p IH]; cbn [append]; intros H; [exact H | ].
  injection H as H. exact (IH H).
Qed.

Lemma forEachTarget_names (position entryPrice : float) (targets : list value) :
  forall idx,
  Forall (fun n => exists k, (idx <= k)%nat /\ n = ("Target " ++ decimal (k + 1))%string)
    (map Scenario.name (forEachTarget position entryPrice targets idx)) /\
  NoDup (map Scenario.name (forEachTarget position entryPrice targets idx)) /\
  (List.length (forEachTarget position entryPrice targets idx) <= List.length targets)%nat.
Proof.
  induction targets as [ | target rest IH]; intros idx; cbn [forEachTarget].
  - cbn. repeat split; constructor.
  - destruct (IH (S idx)) as (Hall & Hnd & Hlen). cbv zeta.
    assert (Hall' : Forall (fun n => exists k, (idx <= k)%nat /\
                                 n = ("Target " ++ decimal (k + 1))%string)
                      (map Scenario.name (forEachTarget position entryPrice rest (S idx)))).
    { revert Hall. apply Forall_impl. intros n (k & Hk & ->). exists k. split; [lia | reflexivity]. }
    destruct (ToBoolean target && gtb (ToNumber target) entryPrice).
    + cbn [app map Scenario.name targetScenario List.length]. split; [ | split].
      * constructor; [exists idx; split; [lia | reflexivity] | exact Hall'].
      * constructor; [ | exact Hnd].
        intros Hin. rewrite Forall_forall in Hall.
        destruct (Hall _ Hin) as (k & Hk & E).
        apply append_inj_l, decimal_inj in E. lia.
      * lia.
    + cbn [app List.length]. split; [exact Hall' | split; [exact Hnd | lia]].
Qed.


Lemma forEachTarget_quantity (position entryPrice : float) (targets : list value) :
  forall idx,
  Forall (fun sc => Scenario.quantity sc = position)
    (forEachTarget position entryPrice targets idx).
Proof.
  induction targets as [ | target rest IH]; intros idx; cbn [forEachTarget]; [constructor | ].
  cbv zeta. destruct (ToBoolean target && gtb (ToNumber target) entryPrice); cbn [app].
  - constructor; [reflexivity | apply IH].
  - apply IH.
Qed.

(** X12: in every assessment [calculatePnL] returns the scenarios have
    pairwise different names, the first being the stop-loss one; there is
    at most one scenario per target besides it, and all carry the
    position of the assessment as their quantity. *)
Theorem calculatePnL_scenario_names
    (capital entryPrice : float) (targets : option (list value))
    (stopLoss : float) (quantity : value) (assessment : RiskAssessment.t) :
  calculatePnL capital entryPrice targets stopLoss quantity = Return (PnLValid assessment) ->
  let scenarios := RiskAssessment.scenarios assessment in
  NoDup (map Scenario.name scenarios) /\
  hd_error (map Scenario.name scenarios) = Some "Worst Case (Stop Loss)"%string /\
  (List.length scenarios <=
   1 + match targets with Some a => List.length a | None => 0 end)%nat /\
  Forall (fun sc => Scenario.quantity sc = RiskAssessment.position assessment) scenarios.
Proof.
  unfold calculatePnL. cbv zeta.
  destruct (negb (truthy capital) || negb (truthy entryPrice) || negb (truthy stopLoss));
    [discriminate | ].
  destruct (ToBoolean _); [ | discriminate]. cbn [bind].
  destruct (gtb _ _); [discriminate | ].
  intros H. injection H as <-. cbn [RiskAssessment.scenarios RiskAssessment.position].
  set (position := ToNumber _).
  assert (Hrest : exists rest bound,
    match targets with
    | Some targets => forEachTarget position entryPrice targets 0
    | None => []
    end = rest /\
    match targets with Some a => List.length a | None => 0%nat end = bound /\
    Forall (fun n => exists k, (0 <= k)%nat /\ n = ("Target " ++ decimal (k + 1))%string)
      (map Scenario.name rest) /\
    NoDup (map Scenario.name rest) /\ (List.length rest <= bound)%nat /\
    Forall (fun sc => Scenario.quantity sc = position) rest).
  { destruct targets as [a | ].
    - destruct (forEachTarget_names position entryPrice a 0) as (H1 & H2 & H3).
      eexists. eexists. split; [reflexivity | ]. split; [reflexivity | ].
      auto using forEachTarget_quantity.
    - exists [], 0%nat. cbn. repeat split; constructor. }
  destruct Hrest as (rest & bound & -> & -> & Hnames & Hnd & Hlen & Hq).
  cbn [map Scenario.name stopLossScenario hd_error List.length].
  split; [ | split; [reflexivity | split; [lia | ]]].
  - constructor; [ | exact Hnd].
    intros Hin. rewrite Forall_forall in Hnames.
    destruct (Hnames _ Hin) as (k & _ & E). discriminate E.
  - constructor; [reflexivity | exact Hq].
Qed.

Lemma calculatePnL_scenario_names_witness :
  exists assessment,
    calculatePnL 100000 100 (Some [Num 95; Num 110; Undefined; Num 120]) 98 (Num 500) =
      Return (PnLValid assessment) /\
    map Scenario.name (RiskAssessment.scenarios assessment) =
      ["Worst Case (Stop Loss)"; "Target 2"; "Target 4"]%string /\
    NoDup (map Scenario.name (RiskAssessment.scenarios assessment)).
Proof.
  eexists. split; [reflexivity | ]. split; [reflexivity | ].
  exact (proj1 (calculatePnL_scenario_names 100000 100
                  (Some [Num 95; Num 110; Undefined; Num 120]) 98 (Num 500) _ eq_refl)).
Defined.

Lemma leb_ltb_trans (x y z : float) :
  (x <=? y) = true -> (y <? z) = true -> (x <? z) = true.
Proof.
  intros Hxy Hyz.
  destruct (leb_not_nan _ _ Hxy) as [Hx Hy]. destruct (ltb_not_nan _ _ Hyz) as [_ Hz].
  rewrite leb_key in Hxy by assumption. rewrite ltb_key in * by assumption.
  revert Hxy Hyz. unfold keyLe, keyLt.
  destruct (fkey x) as [[c1 e1] m1], (fkey y) as [[c2 e2] m2], (fkey z) as [[c3 e3] m3].
  lia.
Qed.

Lemma ltb_leb_trans (x y z : float) :
  (x <? y) = true -> (y <=? z) = true -> (x <? z) = true.
Proof.
  intros Hxy Hyz.
  destruct (ltb_not_nan _ _ Hxy) as [Hx Hy]. destruct (leb_not_nan _ _ Hyz) as [_ Hz].
  rewrite leb_key in Hyz by assumption. rewrite ltb_key in * by assumption.
  revert Hxy Hyz. unfold keyLe, keyLt.
  destruct (fkey x) as [[c1 e1] m1], (fkey y) as [[c2 e2] m2], (fkey z) as [[c3 e3] m3].
  lia.
Qed.

(** X13: a higher RSI never raises the estimate. *)
Theorem estimateWinProbability_rsi (rsi1 rsi2 : float) (volumeTrend trend : string) :
  (rsi1 <=? rsi2) = true ->
  (estimateWinProbability rsi2 volumeTrend trend
   <=? estimateWinProbability rsi1 volumeTrend trend) = true.
Proof.
  intros Hle. unfold estimateWinProbability, gtb.
  assert (H30 : (rsi2 <? 30) = true -> (rsi1 <? 30) = true)
    by (apply leb_ltb_trans; exact Hle).
  assert (H70 : (70 <? rsi1) = true -> (70 <? rsi2) = true)
    by (intros H; exact (ltb_leb_trans _ _ _ H Hle)).
  destruct (rsi2 <? 30); [rewrite H30 by reflexivity | ].
  - destruct (String.eqb trend "UPTREND"), (String.eqb trend "DOWNTREND"),
      (String.eqb volumeTrend "INCREASING"), (String.eqb volumeTrend "DECREASING");
      reflexivity.
  - destruct (70 <? rsi1); [rewrite H70 by reflexivity | ].
    + destruct (rsi1 <? 30),
        (String.eqb trend "UPTREND"), (String.eqb trend "DOWNTREND"),
        (String.eqb volumeTrend "INCREASING"), (String.eqb volumeTrend "DECREASING");
        reflexivity.
    + destruct (rsi1 <? 30), (70 <? rsi2),
        (String.eqb trend "UPTREND"), (String.eqb trend "DOWNTREND"),
        (String.eqb volumeTrend "INCREASING"), (String.eqb volumeTrend "DECREASING");
        reflexivity.
Qed.

Lemma estimateWinProbability_rsi_witness :
  (25 <=? 75) = true /\
  estimateWinProbability 75 "STABLE" "NEUTRAL" = 35 /\
  estimateWinProbability 25 "STABLE" "NEUTRAL" = 65 /\
  (estimateWinProbability 75 "STABLE" "NEUTRAL"
   <=? estimateWinProbability 25 "STABLE" "NEUTRAL") = true.
Proof.
  do 3 (split; [reflexivity | ]).
  exact (estimateWinProbability_rsi 25 75 "STABLE" "NEUTRAL" eq_refl).
Defined.

(** X14: whatever the RSI and the other label, no trend label scores above
    UPTREND or below DOWNTREND, and no volume label above INCREASING or
    below DECREASING. *)
Theorem estimateWinProbability_labels (rsi : float) (volumeTrend trend : string) :
  (estimateWinProbability rsi volumeTrend "DOWNTREND"
   <=? estimateWinProbability rsi volumeTrend trend) = true /\
  (estimateWinProbability rsi volumeTrend trend
   <=? estimateWinProbability rsi volumeTrend "UPTREND") = true /\
  (estimateWinProbability rsi "DECREASING" trend
   <=? estimateWinProbability rsi volumeTrend trend) = true /\
  (estimateWinProbability rsi volumeTrend trend
   <=? estimateWinProbability rsi "INCREASING" trend) = true.
Proof.
  unfold estimateWinProbability, gtb.
  cbn [String.eqb Ascii.eqb Bool.eqb].
  destruct (rsi <? 30), (70 <? rsi),
    (String.eqb trend "UPTREND"), (String.eqb trend "DOWNTREND"),
    (String.eqb volumeTrend "INCREASING"), (String.eqb volumeTrend "DECREASING");
    repeat split.
Qed.

End RiskExtras.

Section ScenarioSigns.

Import riskManagement.
Local Open Scope float_scope.

Lemma signed_nonzero_signed (s : bool) (x : spec_float) :
  signed_nonzero s x -> signed_or_nan s x.
Proof. destruct x; cbn; tauto. Qed.

Lemma positive_signed (x : float) : (0 <? x) = true -> signed_or_nan false (Prim2SF x).
Proof.
  rewrite zero_ltb_Prim2SF.
  destruct (Prim2SF x) as [[] | [] | | [] m e]; cbn; congruence.
Qed.

Lemma not_above_zero (x : float) :
  signed_or_nan true (Prim2SF x) -> (0 <? x) = false.
Proof.
  rewrite zero_ltb_Prim2SF.
  destruct (Prim2SF x) as [[] | [] | | [] m e]; cbn; congruence.
Qed.

Lemma forEachTarget_signs (position entryPrice : float) (targets : list value) :
  (0 <? position) = true -> (0 <? entryPrice) = true ->
  forall idx,
  Forall (fun sc => (entryPrice <? Scenario.price sc) = true /\
                    (Scenario.pnl sc <? 0) = false /\
                    (Scenario.pnlPercent sc <? 0) = false)
    (forEachTarget position entryPrice targets idx).
Proof.
  intros Hq He.
  induction targets as [ | target rest IH]; intros idx; cbn [forEachTarget]; [constructor | ].
  cbv zeta. destruct (ToBoolean target && gtb (ToNumber target) entryPrice) eqn:E;
    cbn [app]; [ | apply IH].
  constructor; [ | apply IH].
  apply andb_prop in E. destruct E as [_ Hgt]. unfold gtb in Hgt.
  cbn [Scenario.price Scenario.pnl Scenario.pnlPercent targetScenario].
  assert (Hd : signed_or_nan false (Prim2SF (ToNumber target - entryPrice))).
  { apply positive_signed, sub_positive. exact Hgt. }
  split; [exact Hgt | split]; apply not_below_zero.
  - rewrite mul_spec. change false with (xorb false false).
    apply SFmul_sign; [apply positive_signed; exact Hq | exact Hd].
  - rewrite mul_spec. change false with (xorb false false).
    apply SFmul_sign; [ | vm_compute; reflexivity].
    rewrite div_spec. change false with (xorb false false).
    apply SFdiv_sign; [exact Hd | apply positive_signed; exact He].
Qed.

(** X15: for a position and an entry price above zero, every profit scenario
    of an assessment has its price above the entry and a P&L and a P&L
    percentage that are not below zero; with the stop below the entry, the
    stop-loss scenario has a P&L and a percentage that are not above
    zero. *)
Theorem scenario_signs
    (capital entryPrice : float) (targets : list value)
    (stopLoss quantity : float) (assessment : RiskAssessment.t) :
  (0 <? quantity) = true -> (0 <? entryPrice) = true ->
  calculatePnL capital entryPrice (Some targets) stopLoss (Num quantity) =
    Return (PnLValid assessment) ->
  exists worst profits,
    RiskAssessment.scenarios assessment = worst :: profits /\
    Scenario.type worst = "loss"%string /\
    ((stopLoss <? entryPrice) = true ->
     (0 <? Scenario.pnl worst) = false /\ (0 <? Scenario.pnlPercent worst) = false) /\
    Forall (fun sc => Scenario.type sc = "profit"%string /\
                      (entryPrice <? Scenario.price sc) = true /\
                      (Scenario.pnl sc <? 0) = false /\
                      (Scenario.pnlPercent sc <? 0) = false) profits.
Proof.
  intros Hq He. unfold calculatePnL. cbv zeta.
  destruct (negb (truthy capital) || negb (truthy entryPrice) || negb (truthy stopLoss));
    [discriminate | ].
  cbn [ToBoolean]. rewrite (positive_truthy _ Hq). cbn [bind ToNumber].
  destruct (gtb _ _); [discriminate | ].
  intros H. injection H as <-. cbn [RiskAssessment.scenarios].
  eexists. eexists. split; [reflexivity | ]. split; [reflexivity | ]. split.
  - intros Hs. cbn [Scenario.pnl Scenario.pnlPercent stopLossScenario].
    assert (Hd : signed_or_nan true (Prim2SF (stopLoss - entryPrice))).
    { rewrite sub_spec. apply signed_nonzero_signed.
      rewrite FloatAxioms.ltb_spec in Hs.
      exact (proj2 (SFsub_ordered _ _ (Prim2SF_valid stopLoss) (Prim2SF_valid entryPrice)) Hs). }
    split; apply not_above_zero.
    + rewrite mul_spec. change true with (xorb false true).
      apply SFmul_sign; [apply positive_signed; exact Hq | exact Hd].
    + rewrite mul_spec. change true with (xorb true false).
      apply SFmul_sign; [ | vm_compute; reflexivity].
      rewrite div_spec. change true with (xorb true false).
      apply SFdiv_sign; [exact Hd | apply positive_signed; exact He].
  - pose proof (forEachTarget_signs quantity entryPrice targets Hq He 0%nat) as Hs.
    rewrite forEachTarget_keptTargets in *.
    rewrite Forall_forall in *. intros sc Hin. split; [ | apply Hs; exact Hin].
    pose proof (profitScenarios_type quantity entryPrice targets) as Ht.
    rewrite Forall_forall in Ht. apply Ht. exact Hin.
Qed.

Lemma scenario_signs_witness :
  (0 <? 500) = true /\ (0 <? 100) = true /\
  exists assessment,
    calculatePnL 100000 100 (Some [Num 95; Num 110]) 98 (Num 500) =
      Return (PnLValid assessment) /\
    map Scenario.pnl (RiskAssessment.scenarios assessment) = [-1000; 5000].
Proof.
  split; [reflexivity | ]. split; [reflexivity | ].
  eexists. split; [reflexivity | ].
  destruct (scenario_signs 100000 100 [Num 95; Num 110] 98 500 _ eq_refl eq_refl eq_refl)
    as (worst & profits & H & _).
  rewrite H. injection H as <- <-. reflexivity.
Defined.

End ScenarioSigns.

(** * Chart analysis *)

Section Charts.

Import chartAnalysis.
Local Open Scope float_scope.

Lemma sliceLast_incl (n : nat) (a : list float) : incl (sliceLast n a) a.
Proof.
  unfold sliceLast. destruct (n =? 0)%nat; [apply incl_refl | ].
  intros x Hx. rewrite <- (firstn_skipn (List.length a - n) a).
  apply in_or_app. right. exact Hx.
Qed.

Lemma sliceLast_length (n : nat) (a : list float) :
  (0 < n)%nat -> List.length (sliceLast n a) = Nat.min n (List.length a).
Proof.
  intros Hn. unfold sliceLast. destruct (Nat.eqb_spec n 0); [lia | ].
  rewrite length_skipn. lia.
Qed.

Lemma sliceLast_app (n : nat) (old recent : list float) :
  List.length recent = n -> (0 < n)%nat -> sliceLast n (old ++ recent) = recent.
Proof.
  intros Hlen Hn. unfold sliceLast. destruct (Nat.eqb_spec n 0); [lia | ].
  rewrite length_app, Hlen.
  replace (List.length old + n - n)%nat with (List.length old + 0)%nat by lia.
  rewrite skipn_app, Nat.add_0_r, skipn_all. 
  replace (List.length old - List.length old)%nat with 0%nat by lia. reflexivity.
Qed.

(** X16: with at least two prices and no [NaN] among the last twenty, the
    support and the resistance are two of those twenty prices, and
    support <= price <= resistance for each of them. *)
Theorem support_and_resistance (a : list float) :
  (2 <= List.length a)%nat ->
  no_nan (sliceLast 20 a) ->
  exists support resistance,
    detectSupport (ArgArray a) = Return (Num support) /\
    detectResistance (ArgArray a) = Return (Num resistance) /\
    In support (sliceLast 20 a) /\ In resistance (sliceLast 20 a) /\
    (support <=? resistance) = true /\
    Forall (fun price => (support <=? price) = true /\ (price <=? resistance) = true)
      (sliceLast 20 a).
Proof.
  intros Hlen Hnan. unfold detectSupport, detectResistance.
  destruct (Nat.ltb_spec (List.length a) 2) as [Hlt | _]; [lia | ].
  assert (Hne : sliceLast 20 a <> []).
  { intros E. apply (f_equal (@List.length float)) in E.
    rewrite sliceLast_length in E by lia.
    change (List.length (@nil float)) with 0%nat in E. lia. }
  destruct (Math_min_of_spec _ Hne Hnan) as (Hin1 & Hall1).
  destruct (Math_max_of_spec _ Hne Hnan) as (Hin2 & Hall2).
  exists (Math_min_of (sliceLast 20 a)), (Math_max_of (sliceLast 20 a)).
  repeat (split; [reflexivity || assumption | ]).
  rewrite Forall_forall in Hall1, Hall2. split.
  - apply Hall1. exact Hin2.
  - apply Forall_forall. intros x Hx. split; [apply Hall1 | apply Hall2]; exact Hx.
Qed.

Lemma support_and_resistance_witness :
  exists support resistance,
    detectSupport (ArgArray [101.5; 99.25; 100; 103]) = Return (Num support) /\
    detectResistance (ArgArray [101.5; 99.25; 100; 103]) = Return (Num resistance) /\
    (support <=? resistance) = true.
Proof.
  destruct (support_and_resistance [101.5; 99.25; 100; 103]) as (lo & hi & H1 & H2 & _ & _ & H3 & _).
  - cbn. lia.
  - repeat constructor.
  - exists lo, hi. auto.
Defined.


(** X17: [detectTrend] never answers UPTREND or DOWNTREND: it answers
    NEUTRAL for a missing array or fewer than two prices and throws for two
    or more prices. *)
Theorem detectTrend_never_trend (prices : arrayArg) :
  (forall answer, detectTrend prices = Return answer -> answer = "NEUTRAL"%string) /\
  (forall a, prices = ArgArray a -> (2 <= List.length a)%nat ->
   detectTrend prices =
   Throw (TypeError "Cannot read properties of undefined (reading 'calculateSMA')")) /\
  (match prices with
   | ArgUndefined | ArgNull => True
   | ArgArray a => (List.length a < 2)%nat
   end -> detectTrend prices = Return "NEUTRAL"%string).
Proof.
  split; [ | split].
  - intros answer. destruct prices as [ | | a]; cbn [detectTrend];
      try (intros H; injection H as <-; reflexivity).
    destruct (List.length a <? 2)%nat; [intros H; injection H as <-; reflexivity | ].
    cbn. discriminate.
  - intros a -> Hlen. cbn [detectTrend].
    destruct (Nat.ltb_spec (List.length a) 2); [lia | reflexivity].
  - destruct prices as [ | | a]; cbn [detectTrend]; try reflexivity.
    intros Hlen. destruct (Nat.ltb_spec (List.length a) 2); [reflexivity | lia].
Qed.

(** X18: on fewer than two prices support and resistance are the same
    value, the only price or [undefined], and a missing array makes both
    throw instead of returning. *)
Theorem support_and_resistance_short (prices : arrayArg) :
  match prices with
  | ArgArray [] =>
      detectSupport prices = Return Undefined /\ detectResistance prices = Return Undefined
  | ArgArray [price] =>
      detectSupport prices = Return (Num price) /\
      detectResistance prices = Return (Num price)
  | ArgArray _ =>
      exists support resistance,
        detectSupport prices = Return (Num support) /\
        detectResistance prices = Return (Num resistance)
  | _ =>
      exists message,
        detectSupport prices = Throw (TypeError message) /\
        detectResistance prices = Throw (TypeError message)
  end.
Proof.
  destruct prices as [ | | [ | x [ | y a]]]; cbn; eauto.
Qed.

Lemma fold_Math_min_nan (a : list float) :
  forall acc, is_nan acc = true -> is_nan (fold_left Math_min a acc) = true.
Proof.
  induction a as [ | x a IH]; intros acc Hacc; cbn [fold_left]; [exact Hacc | ].
  apply IH. unfold Math_min. rewrite Hacc. reflexivity.
Qed.

Lemma fold_Math_max_nan (a : list float) :
  forall acc, is_nan acc = true -> is_nan (fold_left Math_max a acc) = true.
Proof.
  induction a as [ | x a IH]; intros acc Hacc; cbn [fold_left]; [exact Hacc | ].
  apply IH. unfold Math_max. rewrite Hacc. reflexivity.
Qed.

Lemma Math_min_of_nan (a : list float) (x : float) :
  In x a -> is_nan x = true -> is_nan (Math_min_of a) = true.
Proof.
  unfold Math_min_of. generalize infinity.
  induction a as [ | y a IH]; intros acc Hin Hx; [destruct Hin | ].
  cbn [fold_left]. destruct Hin as [-> | Hin].
  - apply fold_Math_min_nan. unfold Math_min. rewrite Hx, orb_true_r. reflexivity.
  - apply IH; assumption.
Qed.

Lemma Math_max_of_nan (a : list float) (x : float) :
  In x a -> is_nan x = true -> is_nan (Math_max_of a) = true.
Proof.
  unfold Math_max_of. generalize neg_infinity.
  induction a as [ | y a IH]; intros acc Hin Hx; [destruct Hin | ].
  cbn [fold_left]. destruct Hin as [-> | Hin].
  - apply fold_Math_max_nan. unfold Math_max. rewrite Hx, orb_true_r. reflexivity.
  - apply IH; assumption.
Qed.

(** X19: one [NaN] among the last twenty prices makes support and
    resistance [NaN]. *)
Theorem support_and_resistance_nan (a : list float) (price : float) :
  (2 <= List.length a)%nat ->
  In price (sliceLast 20 a) -> is_nan price = true ->
  exists support resistance,
    detectSupport (ArgArray a) = Return (Num support) /\
    detectResistance (ArgArray a) = Return (Num resistance) /\
    is_nan support = true /\ is_nan resistance = true.
Proof.
  intros Hlen Hin Hnan. unfold detectSupport, detectResistance.
  destruct (Nat.ltb_spec (List.length a) 2) as [Hlt | _]; [lia | ].
  eexists. eexists. split; [reflexivity | ]. split; [reflexivity | ].
  split; [eapply Math_min_of_nan | eapply Math_max_of_nan]; eassumption.
Qed.

Lemma support_and_resistance_nan_witness :
  exists support resistance,
    detectSupport (ArgArray [101.5; nan; 100]) = Return (Num support) /\
    detectResistance (ArgArray [101.5; nan; 100]) = Return (Num resistance) /\
    is_nan support = true /\ is_nan resistance = true.
Proof.
  apply (support_and_resistance_nan [101.5; nan; 100] nan).
  - cbn. lia.
  - right. left. reflexivity.
  - reflexivity.
Defined.

(** X20: prices older than the window do not count: the last twenty decide
    support and resistance, and for a positive [period] the last [period]
    decide the average. *)
Theorem older_prices_ignored (old recent : list float) (period : nat) :
  (0 < period)%nat -> List.length recent = period ->
  calculateSMA (old ++ recent) period = calculateSMA recent period /\
  (period = 20%nat ->
   detectSupport (ArgArray (old ++ recent)) = detectSupport (ArgArray recent) /\
   detectResistance (ArgArray (old ++ recent)) = detectResistance (ArgArray recent)).
Proof.
  intros Hp Hlen. split.
  - unfold calculateSMA. rewrite length_app, Hlen.
    destruct (Nat.ltb_spec (List.length old + period) period) as [Hlt | _]; [lia | ].
    destruct (Nat.ltb_spec period period) as [Hlt | _]; [lia | ].
    rewrite sliceLast_app by assumption.
    pose proof (sliceLast_app period [] recent Hlen Hp) as Hall.
    cbn [app] in Hall. rewrite Hall. reflexivity.
  - intros ->. unfold detectSupport, detectResistance. rewrite length_app, Hlen.
    destruct (Nat.ltb_spec (List.length old + 20) 2) as [Hlt | _]; [lia | ].
    change (20 <? 2)%nat with false. cbv iota.
    rewrite sliceLast_app by assumption.
    pose proof (sliceLast_app 20 [] recent Hlen Hp) as Hall.
    cbn [app] in Hall. rewrite Hall. split; reflexivity.
Qed.

Lemma older_prices_ignored_witness :
  calculateSMA ([50; 60] ++ [1; 2; 3; 4]) 4 = Num 2.5 /\
  calculateSMA [1; 2; 3; 4] 4 = Num 2.5.
Proof.
  split; [ | reflexivity].
  rewrite (proj1 (older_prices_ignored [50; 60] [1; 2; 3; 4] 4 ltac:(lia) eq_refl)).
  reflexivity.
Defined.

End Charts.

(** * The pages that show signals *)

Section SignalsPage.

Import Signals.
Local Open Scope float_scope.

Lemma leb_false_ltb (x y : float) :
  is_nan x = false -> is_nan y = false -> (x <=? y) = false -> (y <? x) = true.
Proof.
  intros Hx Hy H. apply ltb_key; [assumption | assumption | ].
  rewrite <- not_true_iff_false, (leb_key x y Hx Hy) in H.
  revert H. unfold keyLe, keyLt.
  destruct (fkey x) as [[c1 e1] m1], (fkey y) as [[c2 e2] m2]. lia.
Qed.

Lemma numberOrZero_not_nan (v : value) : is_nan (numberOrZero v) = false.
Proof.
  unfold numberOrZero. cbv zeta. destruct (truthy (ToNumber v)) eqn:E; [ | reflexivity].
  apply truthy_not_nan. exact E.
Qed.

(** Clamping to [0, 100] leaves a number in (0, 100] as it is. *)
Lemma clamp_confidence (c : float) :
  is_nan c = false -> (c <=? 0) = false -> gtb c 100 = false ->
  Math_min 100 (Math_max 0 c) = c.
Proof.
  intros Hn H0 H100. unfold gtb in H100.
  assert (Hpos : (0 <? c) = true) by (apply leb_false_ltb; auto).
  unfold Math_max. rewrite Hn, Hpos. cbn [is_nan orb].
  change (is_nan 0) with false. cbn [orb].
  unfold Math_min. rewrite Hn, H100. change (is_nan 100) with false. cbn [orb].
  destruct (c <? 100); reflexivity.
Qed.

Lemma validated_signal_types (signal : Signal.t) :
  isValidSignal signal = true ->
  Signal.signal_type signal = Some "BUY"%string \/
  Signal.signal_type signal = Some "SELL"%string.
Proof.
  unfold isValidSignal. cbv zeta.
  destruct (negb _ || negb _ || negb _); [discriminate | ].
  destruct (negb _); [discriminate | ].
  destruct (_ || _); [discriminate | ].
  destruct (Signal.signal_type signal) as [type | ]; [ | discriminate].
  destruct (String.eqb type "" || negb (String.eqb type "BUY" || String.eqb type "SELL"))
    eqn:Ety; [discriminate | ].
  intros _. apply orb_false_elim in Ety. destruct Ety as [_ Ety].
  apply negb_false_iff, orb_prop in Ety.
  destruct Ety as [E | E]; apply String.eqb_eq in E; subst type; auto.
Qed.

(** X21: for a signal that passes [isValidSignal], the stop distance is above
    zero, so the page's risk/reward figure is the quotient and never the
    fallback 0, and it is the string [calculateRiskReward] gives for the
    same prices; the confidence is kept as it is. *)
Theorem validated_signal (marketOpen : bool) (signal : Signal.t) :
  isValidSignal signal = true ->
  let enhanced := enhance marketOpen signal in
  let entry := EnhancedSignal.entry_price enhanced in
  let target := EnhancedSignal.target_1 enhanced in
  let stop := EnhancedSignal.stop_loss enhanced in
  (0 <? Math_abs (entry - stop)) = true /\
  EnhancedSignal.riskReward enhanced =
    [ToFixed (Math_abs (target - entry) / Math_abs (entry - stop)) 2] /\
  riskManagement.calculateRiskReward entry target stop =
    riskManagement.RRString (EnhancedSignal.riskReward enhanced) /\
  EnhancedSignal.confidence enhanced = numberOrZero (Signal.confidence signal) /\
  (0 <? EnhancedSignal.confidence enhanced) = true /\
  (EnhancedSignal.confidence enhanced <=? 100) = true /\
  (EnhancedSignal.signal_type enhanced = Some "BUY"%string \/
   EnhancedSignal.signal_type enhanced = Some "SELL"%string).
Proof.
  unfold isValidSignal, enhance. cbv zeta.
  cbn [EnhancedSignal.entry_price EnhancedSignal.target_1 EnhancedSignal.stop_loss
       EnhancedSignal.riskReward EnhancedSignal.confidence EnhancedSignal.signal_type].
  set (entry := numberOrZero (Signal.entry_price signal)).
  set (target := numberOrZero (Signal.target_1 signal)).
  set (stop := numberOrZero (Signal.stop_loss signal)).
  pose proof (numberOrZero_not_nan (Signal.confidence signal)) as Hcn.
  set (confidence := numberOrZero (Signal.confidence signal)) in *.
  destruct (negb (truthy entry) || negb (truthy target) || negb (truthy stop)) eqn:Et;
    [discriminate | ].
  destruct (((stop <? entry) && (entry <? target)) || ((target <? entry) && (entry <? stop)))
    eqn:Er; [ | discriminate].
  cbn [negb].
  destruct ((confidence <=? 0) || gtb confidence 100) eqn:Ec; [discriminate | ].
  apply orb_false_elim in Ec. destruct Ec as [Hc0 Hc100].
  destruct (Signal.signal_type signal) as [type | ]; [ | discriminate].
  destruct (String.eqb type "" || negb (String.eqb type "BUY" || String.eqb type "SELL"))
    eqn:Ety; [discriminate | ].
  intros _.
  assert (Hdist : (0 <? Math_abs (entry - stop)) = true).
  { apply distance_positive. apply orb_prop in Er.
    destruct Er as [Er | Er]; apply andb_prop in Er; tauto. }
  assert (Hnz : (Math_abs (entry - stop) =? 0) = false).
  { rewrite is_zero_Prim2SF. rewrite zero_ltb_Prim2SF in Hdist.
    destruct (Prim2SF (Math_abs (entry - stop))); congruence. }
  assert (Hconf : Math_min 100 (Math_max 0 confidence) = confidence)
    by (apply clamp_confidence; assumption).
  assert (Hgt : gtb (Math_abs (entry - stop)) 0 = true) by exact Hdist.
  split; [exact Hdist | ]. rewrite !Hgt.
  split; [reflexivity | ]. split.
  { unfold riskManagement.calculateRiskReward. rewrite Et. cbv zeta. rewrite Hnz.
    reflexivity. }
  rewrite Hconf. split; [reflexivity | ].
  split; [apply leb_false_ltb; auto | ].
  split.
  { unfold gtb in Hc100. apply ltb_false_key in Hc100; auto.
    apply leb_key; auto. }
  apply orb_false_elim in Ety. destruct Ety as [_ Ety].
  apply negb_false_iff, orb_prop in Ety.
  destruct Ety as [E | E]; apply String.eqb_eq in E; subst type; auto.
Qed.

Lemma validated_signal_witness :
  isValidSignal
    {| Signal.entry_price := Num 100; Signal.target_1 := Num 106;
       Signal.target_2 := Null; Signal.target_3 := Null;
       Signal.stop_loss := Num 98; Signal.confidence := Num 72;
       Signal.signal_type := Some "BUY"%string; Signal.quantity := Undefined |} = true /\
  EnhancedSignal.riskReward
    (enhance true
       {| Signal.entry_price := Num 100; Signal.target_1 := Num 106;
          Signal.target_2 := Null; Signal.target_3 := Null;
          Signal.stop_loss := Num 98; Signal.confidence := Num 72;
          Signal.signal_type := Some "BUY"%string; Signal.quantity := Undefined |}) =
    [ToFixed 3 2] /\
  riskManagement.calculateRiskReward 100 106 98 = riskManagement.RRString [ToFixed 3 2].
Proof.
  split; [reflexivity | ].
  destruct (validated_signal true
              {| Signal.entry_price := Num 100; Signal.target_1 := Num 106;
                 Signal.target_2 := Null; Signal.target_3 := Null;
                 Signal.stop_loss := Num 98; Signal.confidence := Num 72;
                 Signal.signal_type := Some "BUY"%string; Signal.quantity := Undefined |}
              eq_refl)
    as (_ & H1 & H2 & _).
  split; [exact H1 | exact H2].
Defined.

Lemma enhance_type (marketOpen : bool) (signal : Signal.t) :
  EnhancedSignal.signal_type (enhance marketOpen signal) = Signal.signal_type signal.
Proof. reflexivity. Qed.

(** X22: every signal the page keeps is a BUY or a SELL, so the list behind
    the intraday tab is always empty, and the BUY and SELL lists together
    hold every signal once. *)
Theorem intraday_tab_empty (marketOpen : bool) (signalList : list Signal.t) :
  let signals := enhancedSignals marketOpen signalList in
  intradaySignals signals = [] /\
  (List.length (buySignals signals) + List.length (sellSignals signals))%nat =
  List.length signals.
Proof.
  cbv zeta. unfold enhancedSignals, intradaySignals, buySignals, sellSignals. cbv zeta.
  induction signalList as [ | signal rest IH]; [split; reflexivity | ].
  cbn [filter]. destruct (isValidSignal signal) eqn:Ev; [ | exact IH].
  destruct IH as [IH1 IH2]. cbn [map filter].
  assert (Hty : forall type,
    hasType type (enhance marketOpen signal) =
    match Signal.signal_type signal with Some t => String.eqb t type | None => false end)
    by reflexivity.
  rewrite !Hty.
  destruct (validated_signal_types signal Ev) as [Ht | Ht]; rewrite Ht;
    cbn [String.eqb Ascii.eqb Bool.eqb]; cbn [List.length];
    (split; [exact IH1 | lia]).
Qed.

End SignalsPage.

Section Pages.

Import riskManagement.
Local Open Scope float_scope.

Lemma ToBoolean_andValue (a b : value) :
  ToBoolean (andValue a b) = ToBoolean a && ToBoolean b.
Proof. unfold andValue. destruct (ToBoolean a) eqn:E; [reflexivity | exact E]. Qed.

Lemma ToBoolean_truthy (v : value) : ToBoolean v = true -> truthy (ToNumber v) = true.
Proof. destruct v; cbn; congruence. Qed.

Lemma enhance_priced (defaultCapital : float) (marketOpen : bool) (signal : Signal.t) :
  truthy defaultCapital = true ->
  if SignalsRisk.priced signal
  then SignalsRisk.enhance defaultCapital marketOpen signal =
       Throw (TypeError "Cannot read properties of undefined (reading 'calculatePositionSize')")
  else exists enhanced,
       SignalsRisk.enhance defaultCapital marketOpen signal = Return enhanced /\
       SignalsRisk.riskReward enhanced = RRNumber 0 /\
       SignalsRisk.pnlData enhanced = PnLNull /\
       ToBoolean (SignalsRisk.isValid enhanced) = false.
Proof.
  intros Hc. unfold SignalsRisk.enhance, SignalsRisk.priced. cbv zeta.
  rewrite !ToBoolean_andValue.
  destruct (ToBoolean (Signal.entry_price signal) && ToBoolean (Signal.target_1 signal)
            && ToBoolean (Signal.stop_loss signal)) eqn:E.
  - apply andb_prop in E. destruct E as [E Hs]. apply andb_prop in E. destruct E as [He Ht].
    rewrite calculatePnL_falsy_quantity_throws; auto using ToBoolean_truthy.
  - cbn [bind]. eexists. split; [reflexivity | ].
    cbn [SignalsRisk.riskReward SignalsRisk.pnlData SignalsRisk.isValid].
    rewrite !ToBoolean_andValue. auto.
Qed.

(** X23: with a truthy capital, the signals page's list is built only when no
    signal has an entry price, a first target and a stop loss together:
    one such signal makes the whole mapping throw, and without one every
    entry has the risk/reward 0, no P&L data and a falsy [isValid]. *)
Theorem enhancedSignals_priced
    (defaultCapital : float) (marketOpen : bool) (signalList : list Signal.t) :
  truthy defaultCapital = true ->
  if existsb SignalsRisk.priced signalList
  then SignalsRisk.enhancedSignals defaultCapital marketOpen signalList =
       Throw (TypeError "Cannot read properties of undefined (reading 'calculatePositionSize')")
  else exists signals,
       SignalsRisk.enhancedSignals defaultCapital marketOpen signalList = Return signals /\
       List.length signals = List.length signalList /\
       Forall (fun enhanced =>
                 SignalsRisk.riskReward enhanced = RRNumber 0 /\
                 SignalsRisk.pnlData enhanced = PnLNull /\
                 ToBoolean (SignalsRisk.isValid enhanced) = false) signals.
Proof.
  intros Hc. unfold SignalsRisk.enhancedSignals.
  induction signalList as [ | signal rest IH]; cbn [existsb mapArray].
  - exists []. repeat split. constructor.
  - pose proof (enhance_priced defaultCapital marketOpen signal Hc) as Hs.
    destruct (SignalsRisk.priced signal); cbn [orb].
    + rewrite Hs. reflexivity.
    + destruct Hs as (enhanced & -> & Hfields). cbn [bind].
      destruct (existsb SignalsRisk.priced rest).
      * rewrite IH. reflexivity.
      * destruct IH as (signals & -> & Hlen & Hall). cbn [bind].
        eexists. split; [reflexivity | ]. cbn [List.length].
        split; [lia | constructor; assumption].
Qed.

Lemma enhancedSignals_priced_witness :
  truthy 100000 = true /\
  SignalsRisk.enhancedSignals 100000 true
    [ {| Signal.entry_price := Num 100; Signal.target_1 := Null;
         Signal.target_2 := Null; Signal.target_3 := Null;
         Signal.stop_loss := Num 98; Signal.confidence := Null;
                Signal.signal_type := None; Signal.quantity := Undefined |};
      {| Signal.entry_price := Num 100; Signal.target_1 := Num 106;
         Signal.target_2 := Null; Signal.target_3 := Null;
         Signal.stop_loss := Num 98; Signal.confidence := Null;
                Signal.signal_type := None; Signal.quantity := Undefined |} ] =
  Throw (TypeError "Cannot read properties of undefined (reading 'calculatePositionSize')").
Proof.
  split; [reflexivity | ].
  exact (enhancedSignals_priced 100000 true
           [ {| Signal.entry_price := Num 100; Signal.target_1 := Null;
                Signal.target_2 := Null; Signal.target_3 := Null;
                Signal.stop_loss := Num 98; Signal.confidence := Null;
                Signal.signal_type := None; Signal.quantity := Undefined |};
             {| Signal.entry_price := Num 100; Signal.target_1 := Num 106;
                Signal.target_2 := Null; Signal.target_3 := Null;
                Signal.stop_loss := Num 98; Signal.confidence := Null;
                Signal.signal_type := None; Signal.quantity := Undefined |} ]
           eq_refl).
Defined.

(** X24: with a truthy capital, the risk step of the intraday page comes
    through only for a signal with a truthy quantity and no first target;
    a signal with entry, stop and first target always makes it throw.
    What comes through is never [null] and carries at most one warning. *)
Theorem riskStep_outcomes (capital : float) (signalData : Signal.t) :
  truthy capital = true ->
  let priced := ToBoolean (Signal.entry_price signalData)
                && ToBoolean (Signal.stop_loss signalData) in
  match IntradayRisk.riskStep capital signalData with
  | Throw _ =>
      priced = true /\
      (ToBoolean (Signal.quantity signalData) = false \/
       ToBoolean (Signal.target_1 signalData) = true)
  | Return IntradayRisk.Skipped => priced = false
  | Return (IntradayRisk.Assessed pnlData advice) =>
      priced = true /\
      ToBoolean (Signal.quantity signalData) = true /\
      ToBoolean (Signal.target_1 signalData) = false /\
      pnlData <> PnLNull /\
      (List.length (warnings advice) <= 1)%nat
  end.
Proof.
  intros Hc. cbv zeta. unfold IntradayRisk.riskStep. cbv zeta.
  rewrite ToBoolean_andValue.
  destruct (ToBoolean (Signal.entry_price signalData)
            && ToBoolean (Signal.stop_loss signalData)) eqn:E; [ | reflexivity].
  apply andb_prop in E. destruct E as [He Hs].
  apply ToBoolean_truthy in He, Hs.
  destruct (ToBoolean (Signal.quantity signalData)) eqn:Eq.
  - assert (Hq : exists q, Signal.quantity signalData = Num q /\ truthy q = true).
    { destruct (Signal.quantity signalData) as [ | | q]; try discriminate.
      exists q. split; [reflexivity | exact Eq]. }
    destruct Hq as (q & -> & Hq).
    rewrite calculatePnL_with_quantity by assumption. cbv zeta.
    destruct (ToBoolean (Signal.target_1 signalData)) eqn:Et.
    + rewrite assessRisk_truthy_first_target_throws by exact Et.
      destruct (gtb _ _); cbn [bind]; auto.
    + destruct (assessRisk_falsy_first_target capital
                  (ToNumber (Signal.entry_price signalData))
                  (ToNumber (Signal.stop_loss signalData))
                  (Some [Signal.target_1 signalData]) Et)
        as (advice & -> & Hadvice).
      assert (Hlen : (List.length (warnings advice) <= 1)%nat).
      { destruct Hadvice as [[-> _] | [[-> _] | [-> _]]]; cbn; lia. }
      destruct (gtb _ _); cbn [bind]; repeat split; auto; try discriminate.
  - rewrite calculatePnL_falsy_quantity_throws by assumption. cbn [bind]. auto.
Qed.

Lemma riskStep_outcomes_witness :
  truthy 100000 = true /\
  exists message,
    IntradayRisk.riskStep 100000
      {| Signal.entry_price := Num 100; Signal.target_1 := Num 106;
         Signal.target_2 := Null; Signal.target_3 := Null;
         Signal.stop_loss := Num 98; Signal.confidence := Null;
         Signal.signal_type := None; Signal.quantity := Num 500 |} =
    Throw (TypeError message).
Proof.
  split; [reflexivity | ].
  pose proof (riskStep_outcomes 100000
      {| Signal.entry_price := Num 100; Signal.target_1 := Num 106;
         Signal.target_2 := Null; Signal.target_3 := Null;
         Signal.stop_loss := Num 98; Signal.confidence := Null;
         Signal.signal_type := None; Signal.quantity := Num 500 |} eq_refl) as H.
  eexists. reflexivity.
Defined.

End Pages.

(** ** Rounding to nearest

    What [binary_round_aux] keeps of a mantissa, for the bound on the
    product of a position size and the stop distance. *)

Section Rounding.

Local Open Scope Z_scope.

Lemma binary_round_aux_rounded (s : bool) (m e : Z) (l : location) :
  binary_round_aux prec emax s m e l =
  match fst (rounded m e l) with
  | 0 => S754_zero s
  | Zpos p => if snd (rounded m e l) <=? emax - prec
              then S754_finite s p (snd (rounded m e l)) else S754_infinity s
  | Zneg _ => S754_nan
  end.
Proof.
  unfold binary_round_aux, rounded.
  destruct (shr_fexp prec emax m e l) as [mrs' e'].
  destruct (shr_fexp prec emax _ e' loc_Exact) as [mrs'' e''].
  reflexivity.
Qed.

Lemma shr_1_r (r : shr_record) :
  0 <= shr_m r -> shr_r (shr_1 r) = Z.odd (shr_m r).
Proof.
  destruct r as [m r s]. cbn [shr_m shr_1].
  destruct m as [ | [p | p | ] | p]; intros H; cbn [shr_r]; try reflexivity. lia.
Qed.

Lemma iter_pos_shr_1_r (p : positive) :
  forall r, 0 <= shr_m r ->
  shr_r (iter_pos shr_1 p r) = Z.odd (shr_m r / 2 ^ (Zpos p - 1)).
Proof.
  assert (Hdiv : forall a k, 0 <= a -> 0 < k -> 0 <= a / k)
    by (intros; apply Z.div_pos; lia).
  induction p as [p IH | p IH | ]; intros r Hr; cbn [iter_pos].
  - assert (H2 : 0 < 2 ^ Zpos p) by (apply pow2_pos; lia).
    assert (H2' : 0 < 2 ^ (Zpos p - 1)) by (apply pow2_pos; lia).
    assert (H1 : 0 <= shr_m (shr_1 r)) by (rewrite shr_1_m by assumption; apply Hdiv; lia).
    assert (H3 : 0 <= shr_m (iter_pos shr_1 p (shr_1 r)))
      by (rewrite iter_pos_shr_1 by assumption; apply Hdiv; lia).
    rewrite (IH _ H3), iter_pos_shr_1, shr_1_m by assumption.
    rewrite !Z.div_div by lia. f_equal. f_equal.
    replace (Zpos p~1 - 1) with (1 + Zpos p + (Zpos p - 1)) by lia.
    rewrite !Z.pow_add_r by lia. change (2 ^ 1) with 2. lia.
  - assert (H2 : 0 < 2 ^ Zpos p) by (apply pow2_pos; lia).
    assert (H2' : 0 < 2 ^ (Zpos p - 1)) by (apply pow2_pos; lia).
    assert (H3 : 0 <= shr_m (iter_pos shr_1 p r))
      by (rewrite iter_pos_shr_1 by assumption; apply Hdiv; lia).
    rewrite (IH _ H3), iter_pos_shr_1 by assumption.
    rewrite Z.div_div by lia. f_equal. f_equal.
    replace (Zpos p~0 - 1) with (Zpos p + (Zpos p - 1)) by lia.
    rewrite Z.pow_add_r by lia. reflexivity.
  - rewrite shr_1_r by assumption. change (2 ^ (1 - 1)) with 1. rewrite Z.div_1_r. reflexivity.
Qed.

(** An odd quotient by [2^(k-1)] means the remainder by [2^k] is at least
    half of [2^k]. *)
Lemma odd_half (m k : Z) :
  0 <= m -> 0 < k -> Z.odd (m / 2 ^ (k - 1)) = true ->
  2 ^ (k - 1) <= m mod 2 ^ k.
Proof.
  intros Hm Hk Hodd.
  assert (Hp : 0 < 2 ^ (k - 1)) by (apply pow2_pos; lia).
  assert (H2 : 2 ^ k = 2 * 2 ^ (k - 1)).
  { replace k with (1 + (k - 1)) at 1 by lia. rewrite Z.pow_add_r by lia. reflexivity. }
  pose proof (Z.div_mod m (2 ^ (k - 1)) ltac:(lia)) as Hdm.
  pose proof (Z.mod_pos_bound m (2 ^ (k - 1)) Hp) as Hb.
  set (a := m / 2 ^ (k - 1)) in *. set (b := m mod 2 ^ (k - 1)) in *.
  rewrite Z.odd_spec in Hodd. destruct Hodd as [c Hc].
  assert (Hmod : m mod 2 ^ k = 2 ^ (k - 1) + b).
  { symmetry. apply Z.mod_unique with c; [left; lia | ]. rewrite H2.  nia. }
  lia.
Qed.

(** The location rounds upwards only with the round bit set. *)
Lemma round_nearest_even_cases (m : Z) (mrs : shr_record) :
  round_nearest_even m (loc_of_shr_record mrs) = m \/
  (round_nearest_even m (loc_of_shr_record mrs) = m + 1 /\ shr_r mrs = true).
Proof.
  destruct mrs as [m' [] []]; cbn; try (left; reflexivity); try (right; split; reflexivity).
  destruct (Z.even m); [left | right]; auto.
Qed.

Lemma shr_record_of_loc_r (m : Z) (l : location) :
  shr_r (shr_record_of_loc m l) = true -> l = loc_Inexact Eq \/ l = loc_Inexact Gt.
Proof. destruct l as [ | []]; cbn; intros H; try discriminate; auto. Qed.

(** What the first shift of a rounding does. *)
Lemma shr_fexp_spec (m e : Z) (l : location) :
  0 <= m ->
  let E := Z.max e (fexp prec emax (Zdigits2 m + e)) in
  snd (shr_fexp prec emax m e l) = E /\
  shr_m (fst (shr_fexp prec emax m e l)) = m / 2 ^ (E - e) /\
  (shr_r (fst (shr_fexp prec emax m e l)) = true ->
   (e < E /\ 2 ^ (E - e - 1) <= m mod 2 ^ (E - e)) \/
   (E = e /\ (l = loc_Inexact Eq \/ l = loc_Inexact Gt))).
Proof.
  intros Hm E. unfold shr_fexp, shr.
  set (F := fexp prec emax (Zdigits2 m + e)) in *.
  destruct (F - e) as [ | p | p] eqn:Hk; cbn [fst snd].
  - assert (E = e) by lia. replace (E - e) with 0 by lia.
    rewrite shr_record_of_loc_m, Z.div_1_r.
    repeat split; try lia. intros H1. right. split; [lia | ].
    apply shr_record_of_loc_r in H1. exact H1.
  - assert (HE : E = e + Zpos p) by lia.
    replace (E - e) with (Zpos p) by lia.
    rewrite iter_pos_shr_1, iter_pos_shr_1_r by (rewrite shr_record_of_loc_m; exact Hm).
    rewrite shr_record_of_loc_m.
    repeat split; try lia. intros H1. left. split; [lia | ].
    replace (E - e - 1) with (Zpos p - 1) by lia.
    apply odd_half; [exact Hm | lia | exact H1].
  - assert (E = e) by lia. replace (E - e) with 0 by lia.
    rewrite shr_record_of_loc_m, Z.div_1_r.
    repeat split; try lia. intros H1. right. split; [lia | ].
    apply shr_record_of_loc_r in H1. exact H1.
Qed.

Lemma Zdigits2_bounds (m : Z) :
  0 < m -> 2 ^ (Zdigits2 m - 1) <= m < 2 ^ Zdigits2 m.
Proof.
  destruct m as [ | p | p]; try lia. intros _. cbn [Zdigits2]. apply digits2_pos_bounds.
Qed.

Lemma Zdigits2_le (m k : Z) : 0 <= k -> 0 <= m -> m < 2 ^ k -> Zdigits2 m <= k.
Proof.
  intros Hk Hm H. destruct m as [ | p | p]; try lia.
  - cbn. lia.
  - destruct (Zdigits2_bounds (Zpos p) ltac:(lia)) as [Hlo _].
    assert (Zdigits2 (Zpos p) - 1 < k); [ | lia].
    apply pow2_lt_inv; lia.
Qed.

Lemma Zdigits2_ge (m k : Z) : 0 <= k -> 2 ^ k <= m -> k < Zdigits2 m.
Proof.
  intros Hk H.
  assert (0 < 2 ^ k) by (apply pow2_pos; lia).
  destruct (Zdigits2_bounds m ltac:(lia)) as [_ Hhi].
  apply pow2_lt_inv; [ | lia].
  destruct m as [ | p | p]; cbn; lia.
Qed.

(** The mantissa kept by the first shift has at most 53 bits. *)
Lemma truncated_below (m e : Z) :
  0 <= m ->
  let E := Z.max e (fexp prec emax (Zdigits2 m + e)) in
  m / 2 ^ (E - e) < 2 ^ 53.
Proof.
  intros Hm E.
  destruct (Z.eq_dec m 0) as [-> | Hnz].
  { rewrite Z.div_0_l by (apply Z.pow_nonzero; lia). reflexivity. }
  destruct (Zdigits2_bounds m ltac:(lia)) as [Hlo Hhi].
  set (D := Zdigits2 m) in *.
  assert (HD : 0 < D).
  { subst D. destruct m; cbn; lia. }
  assert (HE : D - 53 <= E - e /\ 0 <= E - e).
  { subst E. unfold fexp, SpecFloat.emin, prec, emax. lia. }
  assert (Hp : 0 < 2 ^ (E - e)) by (apply pow2_pos; lia).
  apply Z.div_lt_upper_bound; [exact Hp | ].
  destruct (Z.le_gt_cases D 53) as [Hs | Hb].
  - assert (2 ^ D <= 2 ^ 53) by (apply Z.pow_le_mono_r; lia). nia.
  - assert (2 ^ D <= 2 ^ (E - e) * 2 ^ 53).
    { rewrite <- Z.pow_add_r by lia. apply Z.pow_le_mono_r; lia. }
    lia.
Qed.

(** A mantissa of 53 bits or more, shifted to an exponent above the
    smallest one, keeps exactly 53 bits. *)
Lemma truncated_normal (m e : Z) :
  2 ^ 52 <= m ->
  let E := Z.max e (fexp prec emax (Zdigits2 m + e)) in
  -1074 < E -> 2 ^ 52 <= m / 2 ^ (E - e).
Proof.
  intros Hm E HE.
  destruct (Zdigits2_bounds m ltac:(lia)) as [Hlo Hhi].
  pose proof (Zdigits2_ge m 52 ltac:(lia) Hm) as HD.
  set (D := Zdigits2 m) in *.
  assert (HEe : E - e = D - 53).
  { subst E. unfold fexp, SpecFloat.emin, prec, emax in *. lia. }
  rewrite HEe.
  assert (Hp : 0 < 2 ^ (D - 53)) by (apply pow2_pos; lia).
  apply Z.div_le_lower_bound; [exact Hp | ].
  replace (D - 1) with (D - 53 + 52) in Hlo by lia.
  rewrite Z.pow_add_r in Hlo by lia. lia.
Qed.

(** What a rounding settles on: the mantissa [t] kept at the exponent [E]
    of the first shift, or one more where the dropped part reaches a half;
    the second shift moves at most one place. *)
Lemma rounded_spec (m e : Z) (l : location) :
  0 <= m -> -1074 <= Z.max e (fexp prec emax (Zdigits2 m + e)) ->
  let E := Z.max e (fexp prec emax (Zdigits2 m + e)) in
  let t := m / 2 ^ (E - e) in
  exists up : Z,
    (up = 0 \/
     (up = 1 /\
      ((e < E /\ 2 ^ (E - e - 1) <= m mod 2 ^ (E - e)) \/
       (E = e /\ (l = loc_Inexact Eq \/ l = loc_Inexact Gt))))) /\
    0 <= fst (rounded m e l) /\
    E <= snd (rounded m e l) <= E + 1 /\
    fst (rounded m e l) * 2 ^ (snd (rounded m e l) - E) <= t + up.
Proof.
  intros Hm HEmin E t.
  destruct (shr_fexp_spec m e l Hm) as (H1 & H2 & H3). fold E in H1, H2, H3.
  pose proof (truncated_below m e Hm) as Ht. cbv zeta in Ht. fold E t in Ht.
  assert (Ht0 : 0 <= t).
  { subst t. apply Z.div_pos; [exact Hm | apply pow2_pos; lia]. }
  unfold rounded.
  destruct (shr_fexp prec emax m e l) as [mrs' e']. cbn [fst snd] in H1, H2, H3.
  fold t in H2. rewrite H2. subst e'.
  set (m2 := round_nearest_even t (loc_of_shr_record mrs')).
  assert (Hup : exists up, (up = 0 \/ (up = 1 /\ shr_r mrs' = true)) /\ m2 = t + up).
  { destruct (round_nearest_even_cases t mrs') as [Hc | [Hc Hr]]; fold m2 in Hc.
    - exists 0. split; [left; reflexivity | lia].
    - exists 1. split; [right; split; [reflexivity | exact Hr] | lia]. }
  destruct Hup as (up & Hupc & Hm2).
  assert (Hm2' : 0 <= m2 <= 2 ^ 53) by (destruct Hupc as [-> | [-> _]]; lia).
  destruct (shr_fexp_spec m2 E loc_Exact ltac:(lia)) as (K1 & K2 & _).
  destruct (shr_fexp prec emax m2 E loc_Exact) as [mrs'' e'']. cbn [fst snd] in K1, K2 |- *.
  assert (HD2 : Zdigits2 m2 <= 54).
  { apply Zdigits2_le; lia. }
  assert (HD2' : 0 <= Zdigits2 m2) by (destruct m2; cbn; lia).
  assert (He'' : E <= e'' <= E + 1).
  { rewrite K1. unfold fexp, SpecFloat.emin, prec, emax in *. lia. }
  exists up. split.
  { destruct Hupc as [-> | [-> Hr]]; [left; reflexivity | right; split; [reflexivity | ]].
    exact (H3 Hr). }
  rewrite K2. rewrite <- K1.
  assert (Hp : 0 < 2 ^ (e'' - E)) by (apply pow2_pos; lia).
  split; [apply Z.div_pos; lia | ].
  split; [exact He'' | ].
  rewrite <- Hm2. rewrite Z.mul_comm. apply Z.mul_div_le. exact Hp.
Qed.

End Rounding.

(** ** Quotients on exact values *)

Section ScaledPowers.

Local Open Scope Z_scope.

Lemma pw_pos (e : Z) : -4400 <= e -> 0 < pw e.
Proof. intros. apply pow2_pos. lia. Qed.

Lemma pw_add (e k : Z) : -4400 <= e -> 0 <= k -> pw (e + k) = pw e * 2 ^ k.
Proof.
  intros He Hk. unfold pw. replace (e + k + 4400) with (e + 4400 + k) by lia.
  apply Z.pow_add_r; lia.
Qed.

Lemma pw_le (u v : Z) : -4400 <= u -> u <= v -> pw u <= pw v.
Proof. intros. unfold pw. apply Z.pow_le_mono_r; lia. Qed.

Lemma pw_le_shift (a b u v w : Z) :
  -4400 <= u -> -4400 <= v -> -4400 <= u + w -> -4400 <= v + w ->
  a * pw u <= b * pw v -> a * pw (u + w) <= b * pw (v + w).
Proof.
  intros Hu Hv Huw Hvw H.
  destruct (Z.le_gt_cases 0 w) as [Hw | Hw].
  - rewrite !pw_add by lia. rewrite !Z.mul_assoc.
    apply Z.mul_le_mono_nonneg_r; [ | exact H].
    apply Z.lt_le_incl, pow2_pos; lia.
  - replace u with (u + w + - w) in H by lia.
    replace v with (v + w + - w) in H by lia.
    rewrite (pw_add (u + w) (- w)), (pw_add (v + w) (- w)) in H by lia.
    rewrite !Z.mul_assoc in H.
    apply Z.mul_le_mono_pos_r in H; [exact H | apply pow2_pos; lia].
Qed.

Lemma pw_eq_shift (a b u v w : Z) :
  -4400 <= u -> -4400 <= v -> -4400 <= u + w -> -4400 <= v + w ->
  a * pw u = b * pw v -> a * pw (u + w) = b * pw (v + w).
Proof.
  intros Hu Hv Huw Hvw H. apply Z.le_antisymm; apply pw_le_shift; lia.
Qed.

(** Division keeps a quotient, a remainder and whether the remainder
    reaches half the divisor. *)
Lemma SFdiv_core_spec (m1 m2 : positive) (e1 e2 : Z) :
  exists r : Z,
    0 <= fst (fst (SFdiv_core_binary prec emax (Zpos m1) e1 (Zpos m2) e2)) /\
    0 <= r < Zpos m2 /\
    Z.min (-1074) (e1 - e2) <= snd (fst (SFdiv_core_binary prec emax (Zpos m1) e1 (Zpos m2) e2))
      <= e1 - e2 /\
    Zpos m1 * 2 ^ (e1 - e2 - snd (fst (SFdiv_core_binary prec emax (Zpos m1) e1 (Zpos m2) e2))) =
      fst (fst (SFdiv_core_binary prec emax (Zpos m1) e1 (Zpos m2) e2)) * Zpos m2 + r /\
    (snd (SFdiv_core_binary prec emax (Zpos m1) e1 (Zpos m2) e2) = loc_Inexact Eq \/
     snd (SFdiv_core_binary prec emax (Zpos m1) e1 (Zpos m2) e2) = loc_Inexact Gt ->
     Zpos m2 <= 2 * r).
Proof.
  unfold SFdiv_core_binary. cbv zeta.
  set (e' := Z.min _ (e1 - e2)).
  assert (He' : Z.min (-1074) (e1 - e2) <= e' <= e1 - e2).
  { subst e'. unfold fexp, SpecFloat.emin, prec, emax. lia. }
  set (s := e1 - e2 - e').
  assert (Hs : 0 <= s) by (subst s; lia).
  set (m' := match s with Z.pos _ => Z.shiftl (Zpos m1) s | 0 => Zpos m1 | Z.neg _ => 0 end).
  assert (Hm' : m' = Zpos m1 * 2 ^ s).
  { subst m'. destruct s as [ | p | p]; [ | | lia].
    - change (2 ^ 0) with 1. lia.
    - rewrite Z.shiftl_mul_pow2 by lia. reflexivity. }
  pose proof (Z_div_mod m' (Zpos m2) ltac:(lia)) as Hdm.
  destruct (Z.div_eucl m' (Zpos m2)) as [q r]. cbn [fst snd].
  destruct Hdm as [Hdm Hr].
  assert (Hq : 0 <= q).
  { assert (0 < 2 ^ s) by (apply pow2_pos; lia). nia. }
  exists r. repeat split; try lia.
  { fold s. rewrite <- Hm', Hdm. ring. }
  unfold new_location, new_location_even, new_location_odd.
  destruct (Z.even (Zpos m2)); destruct (Z.eqb_spec r 0) as [Hz | Hz].
  - intros [H | H]; discriminate.
  - destruct (Z.compare_spec (2 * r) (Zpos m2)); intros [K | K]; try discriminate; lia.
  - intros [H | H]; discriminate.
  - destruct (Z.compare_spec (2 * r + 1) (Zpos m2)); intros [K | K]; try discriminate; lia.
Qed.

(** A valid number that is at least one has a full mantissa. *)
Lemma at_least_one_normal (m : positive) (e N : Z) :
  bounded prec emax m e = true -> 1 <= N -> N * pw 0 <= Zpos m * pw e ->
  2 ^ 52 <= Zpos m /\ -53 < e.
Proof.
  intros Hb HN H.
  destruct (bounded_inv m e Hb) as (HD & He & Hn).
  destruct (digits2_pos_bounds m) as [Mlo Mhi].
  assert (Mhi' : Zpos m < 2 ^ 53).
  { apply Z.lt_le_trans with (1 := Mhi). apply Z.pow_le_mono_r; lia. }
  assert (He' : -53 < e).
  { destruct (Z.lt_ge_cases (-53) e) as [Hlt | Hge]; [exact Hlt | exfalso].
    assert (Hp : pw e <= pw (-53)) by (apply pw_le; lia).
    assert (Hp0 : pw 0 = pw (-53) * 2 ^ 53) by (apply (pw_add (-53) 53); lia).
    pose proof (pw_pos (-53) ltac:(lia)). pose proof (pw_pos e ltac:(lia)).
    change (2 ^ 53) with 9007199254740992 in *. nia. }
  split; [ | exact He'].
  destruct Hn as [Hn | Hn]; [ | lia].
  rewrite Hn in Mlo. exact Mlo.
Qed.

(** The quotient of two positive numbers, cut down to an integer [N] and
    multiplied back, exceeds the dividend by less than the weight of the
    last bit of the dividend. *)
Lemma quotient_bound (m1 m2 mQ : positive) (e1 e2 eQ N : Z) :
  bounded prec emax m1 e1 = true -> bounded prec emax m2 e2 = true ->
  bounded prec emax mQ eQ = true ->
  SFdiv prec emax (S754_finite false m1 e1) (S754_finite false m2 e2) =
    S754_finite false mQ eQ ->
  0 <= N -> N * pw 0 <= Zpos mQ * pw eQ ->
  N * Zpos m2 * pw e2 <= (Zpos m1 + 1) * pw e1.
Proof.
  intros B1 B2 BQ Hdiv HN0 HN.
  destruct (bounded_inv m1 e1 B1) as (HD1 & He1 & _).
  destruct (bounded_inv m2 e2 B2) as (HD2 & He2 & _).
  destruct (bounded_inv mQ eQ BQ) as (HDQ & HeQ & _).
  pose proof (pw_pos e1 ltac:(lia)) as Hp1.
  pose proof (pw_pos e2 ltac:(lia)) as Hp2.
  destruct (Z.eq_dec N 0) as [-> | HNz]; [nia | ].
  assert (HN1 : 1 <= N) by lia.
  destruct (at_least_one_normal mQ eQ N BQ HN1 HN) as [HmQ HeQ'].
  assert (Hm1 : Zpos m1 < 2 ^ 53).
  { destruct (digits2_pos_bounds m1) as [_ Mhi].
    apply Z.lt_le_trans with (1 := Mhi). apply Z.pow_le_mono_r; lia. }
  cbn [SFdiv] in Hdiv. cbv zeta in Hdiv.
  destruct (SFdiv_core_spec m1 m2 e1 e2) as (r & Hq & Hr & He' & Heq & Hloc).
  destruct (SFdiv_core_binary prec emax (Zpos m1) e1 (Zpos m2) e2) as [[q e'] l].
  cbn [fst snd] in Hq, He', Heq, Hloc.
  rewrite binary_round_aux_rounded in Hdiv.
  assert (HEmin : -1074 <= Z.max e' (fexp prec emax (Zdigits2 q + e'))).
  { unfold fexp, SpecFloat.emin, prec, emax. lia. }
  destruct (rounded_spec q e' l Hq HEmin) as (up & Hup & Hm0 & HeR & Hval).
  set (E := Z.max e' (fexp prec emax (Zdigits2 q + e'))) in *.
  set (t := q / 2 ^ (E - e')) in *.
  assert (Hout : fst (rounded q e' l) = Zpos mQ /\ snd (rounded q e' l) = eQ).
  { destruct (fst (rounded q e' l)); try discriminate.
    destruct (snd (rounded q e' l) <=? emax - prec); try discriminate.
    inversion Hdiv. split; reflexivity. }
  destruct Hout as [Hf Hs]. rewrite Hf, Hs in *. clear Hf Hs Hdiv.
  assert (HEe : 0 <= E - e') by (subst E; lia).
  assert (Hpk : 0 < 2 ^ (E - e')) by (apply pow2_pos; lia).
  assert (Hpk2 : 0 < 2 ^ (eQ - E)) by (apply pow2_pos; lia).
  assert (Ht0 : 0 <= t) by (subst t; apply Z.div_pos; lia).
  assert (Htq : t * 2 ^ (E - e') <= q).
  { subst t. rewrite Z.mul_comm. apply Z.mul_div_le. exact Hpk. }
  assert (HmQt : Zpos mQ <= t + up) by nia.
  pose proof (pw_pos e' ltac:(lia)) as Hpe'.
  pose proof (pw_pos E ltac:(lia)) as HpE.
  pose proof (pw_pos (e1 - e2) ltac:(lia)) as Hp12.
  assert (HpwE : pw E = pw e' * 2 ^ (E - e')).
  { replace E with (e' + (E - e')) at 1 by lia. apply pw_add; lia. }
  assert (Hpw12 : pw (e1 - e2) = pw e' * 2 ^ (e1 - e2 - e')).
  { replace (e1 - e2) with (e' + (e1 - e2 - e')) at 1 by lia. apply pw_add; lia. }
  assert (HpwQ : pw eQ = pw E * 2 ^ (eQ - E)).
  { replace eQ with (E + (eQ - E)) at 1 by lia. apply pw_add; lia. }
  (* the dividend against quotient times divisor *)
  assert (HW : (q * Zpos m2 + r) * pw e' = Zpos m1 * pw (e1 - e2)).
  { rewrite Hpw12, <- Heq. ring. }
  (* the value of the quotient against [t + up] at the exponent [E] *)
  assert (HVQ : Zpos mQ * pw eQ <= (t + up) * pw E).
  { rewrite HpwQ. nia. }
  (* it suffices to compare at the exponent [e1 - e2] *)
  assert (Hgoal : N * Zpos m2 * pw 0 <= (Zpos m1 + 1) * pw (e1 - e2)).
  { destruct Hup as [-> | [-> Hup]].
    - (* rounded down *)
      assert (t * pw E <= q * pw e') by (rewrite HpwE; nia).
      nia.
    - (* rounded up: the quotient is at least [t + 1/2] *)
      assert (Hhalf : (2 * t + 1) * (Zpos m2 * pw E) <= 2 * (Zpos m1 * pw (e1 - e2))).
      { destruct Hup as [[HeE Hmod] | [HeE Hl]].
        - pose proof (Z.div_mod q (2 ^ (E - e')) ltac:(lia)) as Hdm. fold t in Hdm.
          assert (H2 : 2 ^ (E - e') = 2 * 2 ^ (E - e' - 1)).
          { replace (E - e') with (1 + (E - e' - 1)) at 1 by lia.
            rewrite Z.pow_add_r by lia. reflexivity. }
          assert (Hq2 : (2 * t + 1) * 2 ^ (E - e') <= 2 * q) by nia.
          rewrite <- HW, HpwE.
          assert (0 <= r * pw e') by nia.
          assert ((2 * t + 1) * 2 ^ (E - e') * (Zpos m2 * pw e') <= 2 * q * (Zpos m2 * pw e'))
            by (apply Z.mul_le_mono_nonneg_r; nia).
          nia.
        - specialize (Hloc Hl).
          assert (Htq' : t = q).
          { subst t. replace (E - e') with 0 by lia. apply Z.div_1_r. }
          rewrite <- HW. replace E with e' by lia. rewrite Htq'.
          nia. }
      assert (Hm1t : Zpos m1 <= 2 * t + 1).
      { change (2 ^ 53) with 9007199254740992 in *.
        change (2 ^ 52) with 4503599627370496 in *. lia. }
      set (T := Zpos m2 * pw E) in *.
      set (Pw := pw (e1 - e2)) in *.
      assert (HT : 0 <= T) by (subst T; nia).
      assert (H1 : N * Zpos m2 * pw 0 <= (t + 1) * T).
      { subst T. nia. }
      assert (H2 : (t + 1) * T <= (Zpos m1 + 1) * Pw).
      { apply Z.mul_le_mono_pos_l with (2 * t + 1); [lia | ].
        apply Z.le_trans with (2 * (t + 1) * (Zpos m1 * Pw)); [nia | nia]. }
      lia. }
  pose proof (pw_le_shift (N * Zpos m2) (Zpos m1 + 1) 0 (e1 - e2) e2
                ltac:(lia) ltac:(lia) ltac:(lia) ltac:(lia) Hgoal) as Hshift.
  replace (0 + e2) with e2 in Hshift by lia.
  replace (e1 - e2 + e2) with e1 in Hshift by lia.
  exact Hshift.
Qed.

End ScaledPowers.

(** ** The product of a position size and the stop distance *)

Section ProductBound.

Local Open Scope Z_scope.

Lemma mantissa_below (m : positive) (e : Z) :
  bounded prec emax m e = true -> Zpos m < 2 ^ 53.
Proof.
  intros Hb. destruct (bounded_inv m e Hb) as (HD & _ & _).
  destruct (digits2_pos_bounds m) as [_ Mhi].
  apply Z.lt_le_trans with (1 := Mhi). apply Z.pow_le_mono_r; lia.
Qed.

(** A product of an integer [N >= 1] and a positive number that stays
    within [(m1 + 1) * 2^e1] before rounding stays within it after
    rounding: [(m1 + 1) * 2^e1] is itself a binary64 number or beyond the
    largest, and rounding to nearest never passes one. *)
Lemma product_bound (mn m2 m1 : positive) (en e2 e1 N : Z) :
  bounded prec emax mn en = true -> bounded prec emax m2 e2 = true ->
  bounded prec emax m1 e1 = true -> e1 <= 966 ->
  1 <= N -> Zpos mn * pw en = N * pw 0 ->
  N * Zpos m2 * pw e2 <= (Zpos m1 + 1) * pw e1 ->
  match SFmul prec emax (S754_finite false mn en) (S754_finite false m2 e2) with
  | S754_zero _ => True
  | S754_finite s mp ep => s = false /\ Zpos mp * pw ep <= (Zpos m1 + 1) * pw e1
  | _ => False
  end.
Proof.
  intros Bn B2 B1 He1max HN Hn HXY.
  destruct (bounded_inv mn en Bn) as (HDn & Hen & _).
  destruct (bounded_inv m2 e2 B2) as (HD2 & He2 & _).
  destruct (bounded_inv m1 e1 B1) as (HD1 & He1 & _).
  pose proof (mantissa_below m1 e1 B1) as Hm1.
  destruct (at_least_one_normal mn en N Bn HN ltac:(lia)) as [Hmn Hen'].
  cbn [SFmul xorb]. rewrite binary_round_aux_rounded.
  set (M := Zpos (mn * m2)). set (e := en + e2).
  assert (HM : M = Zpos mn * Zpos m2) by (subst M; lia).
  assert (HM52 : 2 ^ 52 <= M) by nia.
  assert (HEmin : -1074 <= Z.max e (fexp prec emax (Zdigits2 M + e))).
  { unfold fexp, SpecFloat.emin, prec, emax. lia. }
  destruct (rounded_spec M e loc_Exact ltac:(lia) HEmin) as (up & Hup & Hm0 & HeR & Hval).
  pose proof (truncated_normal M e HM52) as Hnormal. cbv zeta in Hnormal.
  set (E := Z.max e (fexp prec emax (Zdigits2 M + e))) in *.
  set (t := M / 2 ^ (E - e)) in *.
  set (mp := fst (rounded M e loc_Exact)) in *.
  set (ep := snd (rounded M e loc_Exact)) in *.
  assert (HEe : 0 <= E - e) by (subst E; lia).
  assert (Hpk : 0 < 2 ^ (E - e)) by (apply pow2_pos; lia).
  assert (Hpk2 : 0 < 2 ^ (ep - E)) by (apply pow2_pos; lia).
  assert (Ht0 : 0 <= t) by (subst t; apply Z.div_pos; lia).
  pose proof (Z.div_mod M (2 ^ (E - e)) ltac:(lia)) as Hdm. fold t in Hdm.
  pose proof (Z.mod_pos_bound M (2 ^ (E - e)) Hpk) as Hmod.
  pose proof (pw_pos e ltac:(subst e; lia)) as Hpe.
  pose proof (pw_pos E ltac:(lia)) as HpE.
  pose proof (pw_pos e1 ltac:(lia)) as Hp1.
  pose proof (pw_pos e2 ltac:(lia)) as Hp2.
  assert (HpwE : pw E = pw e * 2 ^ (E - e)).
  { replace E with (e + (E - e)) at 1 by lia. apply pw_add; subst e; lia. }
  assert (Hpwp : pw ep = pw E * 2 ^ (ep - E)).
  { replace ep with (E + (ep - E)) at 1 by lia. apply pw_add; lia. }
  (* the exact product *)
  assert (HX : M * pw e = N * Zpos m2 * pw e2).
  { pose proof (pw_eq_shift (Zpos mn) N en 0 e2
                  ltac:(lia) ltac:(lia) ltac:(lia) ltac:(lia) Hn) as Hs.
    replace (0 + e2) with e2 in Hs by lia. fold e in Hs.
    rewrite HM. nia. }
  assert (HtX : t * pw E <= M * pw e) by (rewrite HpwE; nia).
  assert (HY : (Zpos m1 + 1) * pw e1 <= 2 ^ 53 * pw e1) by nia.
  (* a full mantissa at an exponent above that of the bound reaches it *)
  assert (Hbeyond : e1 < E -> (Zpos m1 + 1) * pw e1 <= t * pw E).
  { intros HE1. specialize (Hnormal ltac:(lia)).
    assert (Hp : pw E = pw e1 * 2 ^ (E - e1)).
    { replace E with (e1 + (E - e1)) at 1 by lia. apply pw_add; lia. }
    assert (H2 : 2 <= 2 ^ (E - e1)).
    { change 2 with (2 ^ 1) at 1. apply Z.pow_le_mono_r; lia. }
    change (2 ^ 53) with (2 * 2 ^ 52) in HY.
    assert (2 ^ 52 * (2 * pw e1) <= t * pw E) by (rewrite Hp; nia).
    lia. }
  (* so the exponent stays below the largest *)
  assert (HE970 : E <= 970).
  { destruct (Z.le_gt_cases E 970) as [Hle | Hgt]; [exact Hle | exfalso].
    specialize (Hnormal ltac:(lia)).
    assert (Hp : pw E = pw e1 * 2 ^ (E - e1)).
    { replace E with (e1 + (E - e1)) at 1 by lia. apply pw_add; lia. }
    assert (H2 : 2 ^ 5 <= 2 ^ (E - e1)) by (apply Z.pow_le_mono_r; lia).
    change (2 ^ 53) with (2 * 2 ^ 52) in HY. change (2 ^ 5) with 32 in H2.
    assert (2 ^ 52 * (32 * pw e1) <= t * pw E) by (rewrite Hp; nia).
    change (2 ^ 52) with 4503599627370496 in *. nia. }
  assert (Hval' : mp * pw ep <= (t + up) * pw E) by (rewrite Hpwp; nia).
  assert (Hup' : (t + up) * pw E <= (Zpos m1 + 1) * pw e1).
  { destruct Hup as [-> | [-> Hup]]; [lia | ].
    destruct Hup as [[HeE Hhalf] | [_ [Hl | Hl]]]; try discriminate.
    assert (0 < 2 ^ (E - e - 1)) by (apply pow2_pos; lia).
    assert (Hstrict : t * pw E < (Zpos m1 + 1) * pw e1) by (rewrite HpwE in *; nia).
    destruct (Z.le_gt_cases E e1) as [HE1 | HE1]; [ | specialize (Hbeyond HE1); lia].
    assert (Hp : pw e1 = pw E * 2 ^ (e1 - E)).
    { replace e1 with (E + (e1 - E)) at 1 by lia. apply pw_add; lia. }
    rewrite Hp in Hstrict |- *. rewrite Z.mul_assoc in Hstrict |- *.
    rewrite (Z.mul_comm ((Zpos m1 + 1) * pw E)) in Hstrict |- *.
    rewrite Z.mul_assoc in Hstrict |- *.
    apply Z.mul_lt_mono_pos_r in Hstrict; [ | exact HpE].
    apply Z.mul_le_mono_nonneg_r; lia. }
  destruct mp as [ | p | p] eqn:Hmp; [exact I | | lia].
  assert (Hep : ep <= 971) by lia.
  destruct (Z.leb_spec ep (emax - prec)) as [_ | Hgt];
    [ | unfold emax, prec in Hgt; lia].
  split; [reflexivity | lia].
Qed.

(** The integer a floor denotes, for a positive number. *)
Lemma floor_integer (mQ : positive) (eQ : Z) :
  bounded prec emax mQ eQ = true ->
  exists N : Z, 0 <= N /\ N * pw 0 <= Zpos mQ * pw eQ /\
    match SFfloor (S754_finite false mQ eQ) with
    | S754_zero _ => N = 0
    | S754_finite s mn en => s = false /\ Zpos mn * pw en = N * pw 0
    | _ => False
    end.
Proof.
  intros Hb.
  destruct (bounded_inv mQ eQ Hb) as (HD & He & _).
  pose proof (SFfloor_exact (S754_finite false mQ eQ) Hb) as Hx.
  pose proof (SFfloor_valid (S754_finite false mQ eQ) Hb) as Hv.
  pose proof (SFfloor_sign false (S754_finite false mQ eQ) eq_refl) as Hs.
  cbn [SFexactFloor cond_Zopp] in Hx.
  set (N := if 0 <=? eQ then Zpos mQ * 2 ^ eQ else Zpos mQ / 2 ^ (- eQ)) in *.
  pose proof (pw_pos 0 ltac:(lia)) as Hp0.
  pose proof (pw_pos eQ ltac:(lia)) as HpQ.
  assert (HN : 0 <= N /\ N * pw 0 <= Zpos mQ * pw eQ).
  { subst N. destruct (Z.leb_spec 0 eQ) as [Hge | Hlt].
    - assert (0 < 2 ^ eQ) by (apply pow2_pos; lia).
      assert (pw eQ = pw 0 * 2 ^ eQ) by (apply (pw_add 0 eQ); lia). split; nia.
    - assert (Hp : 0 < 2 ^ (- eQ)) by (apply pow2_pos; lia).
      assert (pw 0 = pw eQ * 2 ^ (- eQ)).
      { replace 0 with (eQ + - eQ) at 1 by lia. apply pw_add; lia. }
      pose proof (Z.mul_div_le (Zpos mQ) (2 ^ (- eQ)) Hp).
      assert (0 <= Zpos mQ / 2 ^ (- eQ)) by (apply Z.div_pos; lia).
      split; [lia | nia]. }
  exists N. split; [apply HN | split; [apply HN | ]].
  destruct (SFfloor (S754_finite false mQ eQ)) as [s | s | | s mn en];
    cbn [SFinteger signed_or_nan] in Hx, Hs; try discriminate.
  - injection Hx as Hx. lia.
  - subst s. split; [reflexivity | ].
    cbn [valid_binary] in Hv. destruct (bounded_inv mn en Hv) as (_ & Hen & _).
    pose proof (pw_pos en ltac:(lia)) as Hpn.
    cbn [cond_Zopp] in Hx.
    destruct (Z.leb_spec 0 en) as [Hge | Hlt].
    + injection Hx as Hx. change (Zpos mn * 2 ^ en = N) in Hx. rewrite <- Hx.
      assert (Hp : pw en = pw 0 * 2 ^ en) by (apply (pw_add 0 en); lia).
      rewrite Hp. ring.
    + destruct (Z.eqb_spec (Zpos mn mod 2 ^ (- en)) 0) as [Hz | Hz]; [ | discriminate].
      injection Hx as Hx. rewrite <- Hx.
      assert (Hp : 0 < 2 ^ (- en)) by (apply pow2_pos; lia).
      assert (H0 : pw 0 = pw en * 2 ^ (- en)).
      { replace 0 with (en + - en) at 1 by lia. apply pw_add; lia. }
      pose proof (Z.div_mod (Zpos mn) (2 ^ (- en)) ltac:(lia)) as Hdm.
      rewrite Hz in Hdm. rewrite H0. nia.
Qed.

(** The budget of a finite positive capital is zero or positive, with an
    exponent well below the largest. *)
Lemma budget_exponent (mc : positive) (ec : Z) :
  bounded prec emax mc ec = true ->
  match SFmul prec emax (S754_finite false mc ec) (Prim2SF 0.01) with
  | S754_zero s | S754_infinity s => s = false
  | S754_finite s _ e1 => s = false /\ e1 <= 966
  | S754_nan => False
  end.
Proof.
  intros Hb. destruct (bounded_inv mc ec Hb) as (HD & He & _).
  pose proof (mantissa_below mc ec Hb) as Hmc.
  change (Prim2SF 0.01) with (S754_finite false 5764607523034235 (-59)).
  cbn [SFmul xorb]. rewrite binary_round_aux_rounded.
  set (M := Zpos (mc * 5764607523034235)). set (e := ec + -59).
  assert (HM : 0 < M < 2 ^ 106).
  { subst M. rewrite Pos2Z.inj_mul. change (2 ^ 106) with (2 ^ 53 * 2 ^ 53).
    change (2 ^ 53) with 9007199254740992 in *. nia. }
  assert (HDM : 0 <= Zdigits2 M <= 106).
  { split; [subst M; cbn; lia | apply Zdigits2_le; lia]. }
  assert (HEmin : -1074 <= Z.max e (fexp prec emax (Zdigits2 M + e))).
  { unfold fexp, SpecFloat.emin, prec, emax. lia. }
  destruct (rounded_spec M e loc_Exact ltac:(lia) HEmin) as (up & _ & Hm0 & HeR & _).
  assert (HE : Z.max e (fexp prec emax (Zdigits2 M + e)) <= 965).
  { unfold fexp, SpecFloat.emin, prec, emax. subst e. lia. }
  destruct (fst (rounded M e loc_Exact)); [reflexivity | | lia].
  destruct (snd (rounded M e loc_Exact) <=? emax - prec); [ | reflexivity].
  split; [reflexivity | lia].
Qed.

(** Scaled powers against the units of [2^-1074]. *)
Lemma pw_units (e : Z) : -1074 <= e -> pw e = 2 ^ (e + 1074) * 2 ^ 3326.
Proof.
  intros He. unfold pw. rewrite <- Z.pow_add_r by lia. f_equal. lia.
Qed.

(** Budget, distance, quotient, floor and product on the exact values. *)
Lemma SFposition_bound (B : spec_float) (m2 : positive) (e2 : Z) :
  valid_binary B = true ->
  match B with
  | S754_zero s | S754_infinity s => s = false
  | S754_finite s _ e1 => s = false /\ e1 <= 966
  | S754_nan => False
  end ->
  bounded prec emax m2 e2 = true ->
  let d := S754_finite false m2 e2 in
  let n := SFfloor (SFdiv prec emax B d) in
  valid_binary (SFdiv prec emax B d) = true ->
  match n with S754_infinity _ | S754_nan => false | _ => true end = true ->
  match SFmul prec emax n d with S754_infinity _ | S754_nan => false | _ => true end = true /\
  SFunits (SFmul prec emax n d) <= SFunits B + SFlastPlace B.
Proof.
  intros VB HB B2 d n VQ Hfin. subst n d.
  destruct (bounded_inv m2 e2 B2) as (_ & He2 & _).
  destruct B as [sB | sB | | sB m1 e1]; [ | | elim HB | ].
  - (* a budget of zero *)
    subst sB. cbn. split; [reflexivity | lia].
  - (* an infinite budget gives an infinite size *)
    subst sB. cbn in Hfin. discriminate.
  - destruct HB as [-> He1]. cbn [valid_binary] in VB.
    destruct (bounded_inv m1 e1 VB) as (_ & He1' & _).
    assert (Hlast : 0 < 2 ^ (e1 + 1074)) by (apply pow2_pos; lia).
    cbn [SFunits SFlastPlace cond_Zopp].
    destruct (SFdiv prec emax (S754_finite false m1 e1) (S754_finite false m2 e2))
      as [sQ | sQ | | sQ mQ eQ] eqn:Hq.
    + cbn [SFfloor SFmul SFunits xorb]. split; [reflexivity | nia].
    + cbn in Hfin. discriminate.
    + cbn in Hfin. discriminate.
    + pose proof (SFdiv_sign (S754_finite false m1 e1) (S754_finite false m2 e2)
                    false false eq_refl eq_refl) as Hsg.
      rewrite Hq in Hsg. cbn in Hsg. subst sQ. cbn [valid_binary] in VQ.
      destruct (floor_integer mQ eQ VQ) as (N & HN0 & HNQ & Hfl).
      pose proof (SFfloor_valid (S754_finite false mQ eQ) VQ) as Vn.
      pose proof (quotient_bound m1 m2 mQ e1 e2 eQ N VB B2 VQ Hq HN0 HNQ) as HXY.
      destruct (SFfloor (S754_finite false mQ eQ)) as [sn | sn | | sn mn en];
        try contradiction.
      * cbn [SFmul SFunits xorb]. split; [reflexivity | nia].
      * destruct Hfl as [-> Hn]. cbn [valid_binary] in Vn.
        destruct (bounded_inv mn en Vn) as (_ & Hen & _).
        assert (HN1 : 1 <= N).
        { pose proof (pw_pos en ltac:(lia)). pose proof (pw_pos 0 ltac:(lia)). nia. }
        pose proof (product_bound mn m2 m1 en e2 e1 N Vn B2 VB He1 HN1 Hn HXY) as Hp.
        destruct (SFmul prec emax (S754_finite false mn en) (S754_finite false m2 e2))
          as [sp | sp | | sp mp ep] eqn:Hmul; try contradiction.
        -- cbn [SFunits]. split; [reflexivity | nia].
        -- destruct Hp as [-> Hp]. split; [reflexivity | ].
           cbn [SFunits cond_Zopp].
           assert (Hep : -1074 <= ep).
           { pose proof (binary_round_aux_rounded false (Zpos (mn * m2)) (en + e2) loc_Exact) as Hr.
             cbn [SFmul xorb] in Hmul. rewrite Hmul in Hr.
             assert (HEmin : -1074 <= Z.max (en + e2)
                                        (fexp prec emax (Zdigits2 (Zpos (mn * m2)) + (en + e2)))).
             { unfold fexp, SpecFloat.emin, prec, emax. lia. }
             destruct (rounded_spec (Zpos (mn * m2)) (en + e2) loc_Exact ltac:(lia) HEmin)
               as (up & _ & _ & HeR & _).
             destruct (fst (rounded (Zpos (mn * m2)) (en + e2) loc_Exact)); try discriminate.
             destruct (snd (rounded (Zpos (mn * m2)) (en + e2) loc_Exact) <=? emax - prec);
               try discriminate.
             injection Hr as _ Hr. lia. }
           rewrite (pw_units ep), (pw_units e1) in Hp by lia.
           rewrite !Z.mul_assoc in Hp.
           apply Z.mul_le_mono_pos_r in Hp; [lia | reflexivity].
Qed.

End ProductBound.

Section PositionBound.

Import riskManagement.
Local Open Scope float_scope.

(** C8, amended: for every capital above zero and non-zero entry price and
    stop-loss with [entryPrice !== stopLoss], whose distance
    [|entryPrice - stopLoss|] and computed position are finite, the product
    of the position and the distance is finite and exceeds the budget
    [capital * 0.01] by at most one unit in the last place of the budget. *)
Theorem position_within_one_unit_of_budget (capital entryPrice stopLoss : float) :
  (0 <? capital) = true ->
  (entryPrice =? 0) = false -> (stopLoss =? 0) = false ->
  (entryPrice =? stopLoss) = false ->
  is_finite (Math_abs (entryPrice - stopLoss)) = true ->
  is_finite (calculatePositionSize capital entryPrice stopLoss) = true ->
  let budget := capital * 0.01 in
  let product :=
    calculatePositionSize capital entryPrice stopLoss * Math_abs (entryPrice - stopLoss) in
  is_finite product = true /\
  (units product <= units budget + lastPlace budget)%Z.
Proof.
  intros Hc He0 Hs0 Hne Hfd Hfp budget product.
  (* the prices are numbers, so the guards pass *)
  assert (Hnan : is_nan entryPrice = false /\ is_nan stopLoss = false).
  { revert Hfd. rewrite is_finite_Prim2SF, !is_nan_Prim2SF.
    unfold Math_abs. rewrite abs_spec, sub_spec. unfold SF64sub.
    destruct (Prim2SF entryPrice) as [s1 | s1 | | s1 m1 e1];
      destruct (Prim2SF stopLoss) as [s2 | s2 | | s2 m2 e2];
      try (intros; split; reflexivity); cbn; try discriminate.
    all: destruct s1, s2; cbn; discriminate. }
  destruct Hnan as [Hne1 Hns1].
  assert (Hte : truthy entryPrice = true).
  { unfold truthy, is_zero. change zero with 0. rewrite He0, Hne1. reflexivity. }
  assert (Hts : truthy stopLoss = true).
  { unfold truthy, is_zero. change zero with 0. rewrite Hs0, Hns1. reflexivity. }
  pose proof (positive_truthy capital Hc) as Htc.
  pose proof (sub_nonzero entryPrice stopLoss Hne1 Hns1 Hne) as Hd0.
  assert (Hsize : calculatePositionSize capital entryPrice stopLoss =
                  Math_floor (budget / Math_abs (entryPrice - stopLoss))).
  { unfold calculatePositionSize. rewrite Htc, Hte, Hts. cbn [negb orb]. cbv zeta.
    rewrite Hd0. reflexivity. }
  subst product. rewrite Hsize in Hfp |- *. clear Hsize.
  set (d := Math_abs (entryPrice - stopLoss)) in *.
  (* the distance is a positive finite number *)
  assert (Hd : exists m2 e2, Prim2SF d = S754_finite false m2 e2 /\
                             bounded prec emax m2 e2 = true).
  { pose proof (Prim2SF_valid d) as Hv. revert Hv.
    rewrite is_finite_Prim2SF in Hfd. rewrite is_zero_Prim2SF in Hd0.
    assert (Hsign : signed_or_nan false (Prim2SF d)).
    { subst d. unfold Math_abs. rewrite abs_spec. apply SFabs_sign. }
    destruct (Prim2SF d) as [s | s | | s m2 e2]; try discriminate.
    cbn in Hsign. subst s. intros Hv. exists m2, e2. split; [reflexivity | exact Hv]. }
  destruct Hd as (m2 & e2 & Hd & B2).
  (* the budget is zero or positive, with room below the largest exponent *)
  assert (HB : match Prim2SF budget with
               | S754_zero s | S754_infinity s => s = false
               | S754_finite s _ e1 => s = false /\ (e1 <= 966)%Z
               | S754_nan => False
               end).
  { subst budget. rewrite mul_spec. unfold SF64mul.
    rewrite zero_ltb_Prim2SF in Hc.
    pose proof (Prim2SF_valid capital) as Vc.
    destruct (Prim2SF capital) as [s | [] | | [] mc ec]; try discriminate.
    - reflexivity.
    - exact (budget_exponent mc ec Vc). }
  pose proof (Prim2SF_valid (budget / d)) as VQ.
  rewrite is_finite_Prim2SF in Hfp |- *. unfold units, lastPlace.
  rewrite mul_spec. rewrite Prim2SF_Math_floor in Hfp |- *.
  rewrite div_spec in VQ, Hfp |- *. rewrite Hd in VQ, Hfp |- *.
  exact (SFposition_bound (Prim2SF budget) m2 e2 (Prim2SF_valid budget) HB B2 VQ Hfp).
Qed.

Lemma position_within_one_unit_of_budget_witness :
  is_finite (calculatePositionSize 100000 100 98 * Math_abs (100 - 98)) = true /\
  (units (calculatePositionSize 100000 100 98 * Math_abs (100 - 98)) <=
   units (100000 * 0.01) + lastPlace (100000 * 0.01))%Z.
Proof.
  exact (position_within_one_unit_of_budget 100000 100 98
           eq_refl eq_refl eq_refl eq_refl eq_refl eq_refl).
Defined.

End PositionBound.
